(* ===== verification/_CoqProject ===== *)
-Q . S2P
Prelude.v
Animation.v
Slider.v
Carousel.v
SliderDom.v
Notab.v
