(* ===== verification/Prelude.v ===== *)
(** * A verification development for TestReactPurrweb's slider scripts

    The repository is a small page whose only stateful logic lives in
    three browser scripts:

    - [src/Scripts/Animation.js]: a frame-clocked progress driver
      ([function Animation]).  Its state is a set of closure variables
      ([start], [duration], [progress], [paused], [cancelled], [cycled])
      and one property ([reverseFlag]); its methods are [setDuration],
      [onStart], [run], [cancel], [pause], [isPaused], [resume], [reverse],
      [slow], [cycle] and the private frame callback [animate], which
      re-registers itself with [requestAnimationFrame].  Two methods,
      [onUpdate] and [onFinish], are meant to be overridden by the
      object that owns the animation; the prototype versions warn and
      cancel.
    - [src/Scripts/Slider.js]: [createSliderFromHTMLElementArray] builds a
      carousel over at most ten page elements and returns the [slider]
      object: [selectedSlide], [isAnimated], [rightToLeftFlag], [times],
      one [mainAnimation] and the methods [getNextSlideIndex],
      [launchAnimation], [onClickAction], [updateBottomIndicator],
      [slideTo], [fillContainerCurrent], [fillContainerNext]; it
      overrides the animation's [onUpdate] (moves the carousel) and
      [onFinish] (swaps the two containers and chains the next step).
      Before returning, the constructor creates the slider's twelve
      elements and one list item per bottom indicator, registers the
      click listeners (each indicator's closure keeps its index, the two
      arrows compute theirs when clicked) that call [onClickAction],
      sizes the slider, gives every element its classes and appends the
      tree to the element it was given.  [window.onload] looks up the
      demo's elements with [$] ([getElementById]) and builds three
      sliders in order.
    - [src/Scripts/Notab.js]: page glue independent of the two others:
      an immediately invoked function with two closure variables
      ([cookieShown], [animationProgress]) and four listeners ([scroll]
      shows the cookie banner after 300 px, [scroll2] drives the
      section's rotation/opacity/offset effect, [cookiesListener] hides
      the banner, a load handler arms a 5 s timer that shows it), and
      the form check [validate].

    The two first scripts interact by callbacks: the slider calls the
    animation's [setDuration] and [run]; the animation calls back the
    slider's [onUpdate] every frame and its [onFinish] at the end, and
    [onFinish] re-enters [run] to chain the next step.

    ** Library layout

    - [Prelude] (this file): JavaScript primitives the scripts rely on
      (ToBoolean, [!], [instanceof], [%] on integers, [Math.max.apply]),
      the [js_scope]
      notations, the shared tactics, the [jsdb] hint database and the
      generic lemmas on [Z], [Q] and lists.
    - [Animation]: the record [anim] of the closure variables, one
      definition per method, and the interface [AnimHost] through which
      the owner object overrides [onUpdate]/[onFinish] (with its laws
      [AnimHostLaws]); [animate_step], [run] and [frame] follow
      Animation.js lines 21-27 and 59-79.  The prototype object
      ([ProtoObj], lines 82-90) is one instance of the interface.
    - [Slider]: the layout computed once by the constructor, the
      [slider] object with the part of the DOM its methods write, one
      definition per method, the slider as second instance of
      [AnimHost], the page events (indicator click, arrow clicks,
      animation frame) as a step function, reachability, and the
      invariant of the carousel.
    - [Carousel]: the navigation contract of the specification
      (Section 4.2) as an abstract machine [cstep] over [cstate] (idle on
      an index, or sliding with the committed index, the target, the
      direction and the pending steps), the abstraction [alpha] of the
      slider object into it, and the refinement of [Slider.handle].
    - [SliderDom]: the document the constructor writes, as a store of
      element nodes (tag, classes, parent, children, text, size) with
      the click listeners of each node, and the constructor's statements
      in a state monad over it ([createElement], [classList_add],
      [appendChild] with its move semantics, [addEventListener], ...):
      [buildSliderNodes] (lines 55-67), [assembleSlider] (145-186) and
      [buildSliderDom], which adds line 187's [appendChild] to the host.
      Two small program logics over the monad, [local_stmt] (a statement
      works only on the nodes created since a given counter value and
      leaves the older ones as they were) and [adds_nodes] (it creates
      [k] nodes), each with its bind rule and one rule per primitive.
      Each listener records the slider object its closure refers to
      (named by the node [divSlider] of its constructor call); a click
      bubbles along the ancestors and runs the listeners' bodies
      ([call_listener], lines 151-156) on the page's slider objects.
      [createSlider] is the constructor as the page calls it, entries
      possibly null and the insertion point possibly not an element,
      with the checks of lines 15-28 evaluated on those values and the
      TypeErrors of lines 48 and 187 as a [Thrown] completion; [dollar]
      and [window_onload] model lines 198-209.
    - [Notab]: the page state ([page]: closure variables, the listener
      lists of the document, the window and the accept button, the
      viewport, the banner's class, the timer and the styles), one
      definition per handler, DOM event dispatch (over the listener list
      of the start of dispatch, skipping removed listeners) and the page
      events as a step function; [validate] over the form's fields, with
      its TypeError as a [Thrown] result.

    ** What is proved

    - Animation: progress accumulates as elapsed time over duration
      across frames; [run] and a frame need fuel one (fuel adequacy);
      the value passed to [onUpdate] is always a real in [0, 1], as the
      spec types it, and the animation stays well typed under every
      method ([onUpdate_values_in_unit], by rule induction over the
      calls a client can make);
      [reverse] keeps the reported value continuous and is an
      involution; the prototype owner warns and cancels; what [cancel]
      does to the frame already requested (unpaused, that frame reports
      and leaves no callback; paused, it re-requests itself); [run]
      reports its start value twice and a frame then reports the
      elapsed fraction; and, as findings, [resume] drops the time
      before [pause], a paused animation keeps re-registering after
      [cancel], and [cycle(v)] reads [v] unlike [reverse(v)].
    - Slider: the invariant of every reachable state (indices in range,
      one-hot indicators on the target, one pending frame exactly while
      locked, containers disjoint and holding the right items, carousel
      offset within one width); the plan of a click (minimal step count,
      ties forward, 300 ms in total), its equivalence with a search for
      the shortest walk of [getNextSlideIndex] steps (the header
      comment's "sliding through least amount of elements"), and that
      it reaches its target after exactly that many frames; clicks
      dropped while locked; the constructor's geometry; a one-item
      carousel ignores every event and a two-item one moves forward in
      one 300 ms step; and, as findings, a requested frame that ends a
      step still calls [onFinish] after [cancel] (the slider then
      restarts the animation, so [cancel] changes nothing), and the
      same element given twice empties the current container.
    - Carousel: the abstract machine keeps its states well formed and
      a request reaches its target after exactly the planned steps; every
      slider event is a stutter or one step of the machine, and every
      run of events is a path of it (refinement by simulation).
    - SliderDom: the tree the constructor appends to its host (sizes,
      classes, one indicator per item); on any document, the
      constructor creates 12 + len nodes and changes the existing nodes
      only by appending its slider div to the host (by the [local_stmt]
      and [adds_nodes] rules); a click on any node of the
      document is the step [Slider.handle] takes on the matching event
      (composition of the DOM wiring with the slider's logic); on the
      demo page, [window.onload] builds the ten-item and the one-item
      sliders in order, and a click on any node steps only the slider
      that holds it (the two sliders are independent); and, as
      findings, the dead [!x instanceof C] checks (a null insertion
      point gets through, the constructor builds its detached elements,
      leaves the existing document as it was and throws at line 187;
      entries past the tenth are never checked), a missing element
      throws out of [window.onload] before the second slider, and the
      indicator text is a doubly encoded bullet.
    - Notab: the invariant of the page's listener lists, progress and
      styles; the banner is shown at most once and is shown when the
      timer fires after load; one scroll runs both document listeners;
      the section effect freezes when complete and follows
      [min(1, 2 sp - 1)]; [validate] submits exactly
      complete forms, marks exactly the empty checked fields and throws
      exactly without textarea; and, as findings, the zero-height
      section, the banner shown again after an early accept, and the
      TypeError.

    ** Modelling choices

    - Time is the integer millisecond clock of [new Date().valueOf()];
      each event (a click or a frame callback) happens at one instant
      [now], and all synchronous code of that event reads the same
      instant.
    - JavaScript numbers that hold durations and progress are rational
      numbers [Q]: the model is exact where the browser rounds, and
      [x / 0] (Infinity or NaN in the browser) is never reached by the
      slider from a reachable state (durations stay positive).  Where
      the code can divide by zero (Notab's [scroll2] divides by the
      section's height) the quotient is a [jsnum] with its infinities
      and NaN.  Indices and widths are integers [Z], and [%] is the
      truncated remainder [Z.rem].
    - [requestAnimationFrame] is a count [frames] of pending callbacks of
      the animation; a [Frame] event fires one of them.
    - The synchronous recursion [run -> animate -> onFinish -> run] is a
      fixpoint on a fuel argument; [Animation.run_fuel_irrelevant] and
      [Animation.frame_fuel_irrelevant] prove every fuel [>= 1] gives the
      same result for an owner that satisfies [AnimHostLaws], so the
      constant [Animation.anim_fuel] loses nothing.
    - The DOM is modelled only where the slider writes it: the carousel
      offset, the style of the two containers and of the next slide, the
      children of the two containers (with [appendChild]'s move
      semantics: a node has one parent), the [display] style of every
      item node and the "selected" class of every bottom indicator.
      Node identities are kept, so duplicated elements alias.  The
      slider's own elements are nodes of [SliderDom.dom]; the items stay
      in [Slider] by identity, so the two stores do not overlap.
    - The theorems on the constructor's tree quantify over every item
      count it can use (1 to 10, [MAX_CAROUSEL_LENGTH]) and every size,
      and are checked case by case on a document holding the body.
      [render] is given fuel 8 (16 for the demo page) and [ancestors]
      fuel 8, more than the depth of the tree (body, slider, panel,
      scroller, button: 5 levels), so neither runs out on it.

    ** Not modelled

    - The element lookups [ch], [btn], [m] of Notab.js (lines 5-7): the
      model names the three elements directly.
    - Arguments of the constructor other than an array of elements or
      nulls and an element or null: a non-array first argument, or an
      entry that is an object but not an element (its [offsetWidth] is
      undefined and the sizes become NaN).
    - The browser's CSS: whether a "hidden" holder can be clicked is the
      page's stylesheet, so the accept click is an event at any time;
      the stylesheet and the page's HTML are not part of [src/].
*)

From Stdlib Require Export QArith Qround ZArith Lia Lqa String Sorted.
From stdpp Require Export base list gmap.

Declare Scope js_scope.
Delimit Scope js_scope with js.

(** ** JavaScript primitives *)

(** The values that reach the scripts' optional arguments. *)
Inductive jsval : Type :=
| JUndefined
| JNull
| JBool (b : bool)
| JNum (q : Q)
| JStr (s : string)
| JObj.

(** ToBoolean, i.e. [!!v]. *)
Definition truthy (v : jsval) : bool :=
  match v with
  | JUndefined | JNull => false
  | JBool b => b
  | JNum q => negb (Qeq_bool q 0)
  | JStr s => negb (String.eqb s "")
  | JObj => true
  end.

(** [v === !!v]: strict equality of [v] with the boolean [!!v]; it holds
    exactly when [v] is itself a boolean. *)
Definition strict_eq_not_not (v : jsval) : bool :=
  match v with
  | JBool b => Bool.eqb b (truthy (JBool b))
  | _ => false
  end.

(** [!v]: a boolean primitive. *)
Definition js_not (v : jsval) : jsval := JBool (negb (truthy v)).

(** [v instanceof C]; [inC] tells whether an object [v] has
    [C.prototype] on its chain.  A primitive is an instance of no
    class. *)
Definition js_instanceof (v : jsval) (inC : bool) : bool :=
  match v with
  | JObj => inC
  | _ => false
  end.

(** [a % n] on integer numbers: the remainder has the sign of [a]. *)
Definition js_rem (a n : Z) : Z := Z.rem a n.

(** [Math.max.apply(null, xs)]: [None] is [-Infinity], the result on an
    empty array. *)
Definition math_max_apply (xs : list Z) : option Z :=
  fold_right (fun x acc => match acc with
                           | None => Some x
                           | Some m => Some (Z.max x m)
                           end) None xs.

(** [Math.max(a, b)] where [b] may be [-Infinity]. *)
Definition math_max2 (a : Z) (b : option Z) : Z :=
  match b with None => a | Some m => Z.max a m end.

(** A JavaScript number as a division can produce it: finite, one of
    the two infinities, or NaN. *)
Inductive jsnum : Type :=
| Fin (q : Q)
| PosInf
| NegInf
| NaN.

(** [a / b] on finite numbers, [b] never being [-0]: a zero divisor
    gives an infinity of the sign of [a], or NaN for [0 / 0]. *)
Definition js_div (a b : Q) : jsnum :=
  if Qeq_bool b 0 then
    if negb (Qle_bool a 0) then PosInf
    else if negb (Qle_bool 0 a) then NegInf
    else NaN
  else Fin (a / b).

(** Equality of the rationals as written (numerator and denominator),
    finer than [Qeq]. *)
#[export] Instance Q_eq_dec : EqDecision Q.
Proof. solve_decision. Defined.

(** [x > y] on finite numbers. *)
Definition js_gt (x y : Q) : bool := negb (Qle_bool x y).

(** [Math.min(a, b)] on finite numbers. *)
Definition math_min2 (a b : Q) : Q := if Qle_bool a b then a else b.

Infix "%%" := js_rem (at level 40, left associativity) : js_scope.
Notation "'⌜' z '⌝q'" := (inject_Z z) (format "⌜ z ⌝q") : js_scope.

(** ** Automation *)

Create HintDb jsdb.

(** Turn the boolean comparisons of the model into propositions. *)
Ltac qbool :=
  repeat match goal with
  | H : Qle_bool _ _ = true |- _ => apply Qle_bool_iff in H
  | H : Qle_bool _ _ = false |- _ =>
      apply not_true_iff_false in H; rewrite Qle_bool_iff in H; apply Qnot_le_lt in H
  | H : Qeq_bool _ _ = true |- _ => apply Qeq_bool_iff in H
  | H : (_ =? _)%Z = true |- _ => apply Z.eqb_eq in H
  | H : (_ =? _)%Z = false |- _ => apply Z.eqb_neq in H
  | H : (_ <=? _)%Z = true |- _ => apply Z.leb_le in H
  | H : (_ <=? _)%Z = false |- _ => apply Z.leb_gt in H
  | H : (_ <? _)%Z = true |- _ => apply Z.ltb_lt in H
  | H : (_ <? _)%Z = false |- _ => apply Z.ltb_ge in H
  end.

(** Case on the first boolean test of the goal, keeping its equation. *)
Ltac case_if :=
  match goal with
  | |- context [if ?c then _ else _] =>
      let E := fresh "E" in destruct c eqn:E; qbool
  end.

(** ** Generic lemmas *)

Section JsLemmas.
Local Open Scope Z_scope.

(** On a non-negative dividend, JavaScript's [%] is the mathematical
    modulus. *)
Lemma js_rem_mod (a n : Z) : 0 <= a -> 0 < n -> js_rem a n = a mod n.
Proof. intros. unfold js_rem. apply Z.rem_mod_nonneg; lia. Qed.

Lemma js_rem_bound (a n : Z) : 0 <= a -> 0 < n -> 0 <= js_rem a n < n.
Proof. intros. rewrite js_rem_mod by lia. apply Z.mod_pos_bound; lia. Qed.

Lemma math_max_apply_ge (xs : list Z) (x : Z) :
  In x xs -> exists m, math_max_apply xs = Some m /\ x <= m.
Proof.
  induction xs as [|y ys IH]; simpl; [tauto|].
  intros [->|Hin].
  - destruct (math_max_apply ys); eexists; split; eauto; lia.
  - destruct (IH Hin) as (m & -> & Hm). eexists; split; eauto; lia.
Qed.

Lemma math_max2_ge_l (a : Z) (b : option Z) : a <= math_max2 a b.
Proof. destruct b; simpl; lia. Qed.

Lemma math_max2_ge_r (a m : Z) (b : option Z) :
  b = Some m -> m <= math_max2 a b.
Proof. intros ->; simpl; lia. Qed.
(** [x mod n] from a candidate remainder and quotient. *)
Lemma mod_of_range (x r q n : Z) : 0 <= r < n -> x = r + q * n -> x mod n = r.
Proof. intros Hr ->. rewrite Z_mod_plus_full. apply Z.mod_small. exact Hr. Qed.
End JsLemmas.

(** A modulus whose argument is within one period of its range. *)
Ltac solve_mod :=
  first [ apply (mod_of_range _ _ 0); lia
        | apply (mod_of_range _ _ 1); lia
        | apply (mod_of_range _ _ (-1)); lia ].

(** A decidable proposition on closed data, by evaluation of its
    decision procedure. *)
Ltac decide_eval := apply (bool_decide_unpack _); vm_compute; reflexivity.

(** Split a membership in an explicit list into its cases. *)
Ltac elem_split H :=
  repeat (apply elem_of_cons in H as [->|H]);
  [..|apply elem_of_nil in H; contradiction].

(** A natural number in a closed range, split into its values. *)
Lemma nat_range_seq (n lo hi : nat) : (lo <= n <= hi)%nat -> n ∈ seq lo (S hi - lo).
Proof. intros. apply elem_of_seq. lia. Qed.

Ltac nat_cases n :=
  match goal with
  | H : (?lo <= n <= ?hi)%nat |- _ =>
      let Hs := fresh "Hs" in
      pose proof (nat_range_seq n lo hi H) as Hs; vm_compute in Hs; elem_split Hs
  end.

(** A property of every index below [m], from its decision procedure
    evaluated on each. *)
Lemma forall_lt_of_forallb (P : nat -> Prop) `{!forall k, Decision (P k)} (m : nat) :
  forallb (fun k => bool_decide (P k)) (seq 0 m) = true -> forall k, (k < m)%nat -> P k.
Proof.
  intros Hall k Hk. apply forallb_forall with (x := k) in Hall.
  - exact (bool_decide_eq_true_1 _ Hall).
  - apply in_seq. lia.
Qed.

(** A side condition of a theorem at a closed input, decided by evaluation. *)
Ltac by_eval :=
  vm_compute; repeat split; intros; first [reflexivity | discriminate | lia].

Section QLemmas.
Local Open Scope Q_scope.

Lemma js_div_fin (a b : Q) : ~ (b == 0) -> js_div a b = Fin (a / b).
Proof.
  intros Hb. unfold js_div. destruct (Qeq_bool b 0) eqn:E; [|reflexivity].
  apply Qeq_bool_iff in E. contradiction.
Qed.

Lemma Qle_bool_false (x y : Q) : Qle_bool x y = false <-> y < x.
Proof.
  split; intros H.
  - apply Qnot_le_lt. intros Hle. apply Qle_bool_iff in Hle. congruence.
  - apply not_true_iff_false. rewrite Qle_bool_iff. now apply Qlt_not_le.
Qed.

(** A non-negative elapsed time over a positive duration is a
    non-negative fraction. *)
Lemma Qdiv_nonneg (x d : Q) : 0 <= x -> 0 < d -> 0 <= x / d.
Proof.
  intros Hx Hd. unfold Qdiv. apply Qmult_le_0_compat; [exact Hx|].
  apply Qlt_le_weak, Qinv_lt_0_compat, Hd.
Qed.

Lemma inject_Z_sub_nonneg (a b : Z) : (b <= a)%Z -> 0 <= inject_Z (a - b).
Proof. intros H. change 0 with (inject_Z 0). rewrite <- Zle_Qle. lia. Qed.

Lemma Qdiv_add_same (x y d : Q) : ~ d == 0 -> x / d + y / d == (x + y) / d.
Proof. intros Hd. field. exact Hd. Qed.

Lemma inject_Z_sub (a b : Z) : inject_Z (a - b) == inject_Z a - inject_Z b.
Proof.
  unfold Z.sub. rewrite inject_Z_plus, inject_Z_opp. reflexivity.
Qed.

Lemma Qdiv_le_mono (x y d : Q) : x <= y -> 0 < d -> x / d <= y / d.
Proof.
  intros Hxy Hd. unfold Qdiv. apply Qmult_le_compat_r; [exact Hxy|].
  apply Qlt_le_weak, Qinv_lt_0_compat, Hd.
Qed.

(** Elapsed times over one duration add up. *)
Lemma elapsed_telescope (p : Q) (s t u : Z) (d : Q) :
  ~ d == 0 ->
  p + inject_Z (t - s) / d + inject_Z (u - t) / d == p + inject_Z (u - s) / d.
Proof. intros Hd. rewrite !inject_Z_sub. field. exact Hd. Qed.
(** A positive total split over [k >= 1] steps stays positive. *)
Lemma Qdiv_pos_Z (c : Q) (k : Z) : 0 < c -> (0 < k)%Z -> 0 < c / inject_Z k.
Proof.
  intros Hc Hk. apply Qlt_shift_div_l; [|rewrite Qmult_0_l; exact Hc].
  change 0 with (inject_Z 0). rewrite <- Zlt_Qlt. exact Hk.
Qed.

(** A frame at least one duration after the last tick finishes. *)
Lemma Qdiv_ge_1 (x d : Q) : 0 < d -> d <= x -> 1 <= x / d.
Proof.
  intros Hd Hx. apply Qle_shift_div_l; [exact Hd|]. rewrite Qmult_1_l. exact Hx.
Qed.

Lemma inject_Z_neq_0 (k : Z) : k <> 0%Z -> ~ inject_Z k == 0.
Proof. intros Hk H. apply Hk. unfold Qeq in H. simpl in H. lia. Qed.

(** The progress [run] leaves: [0 + (now - now) / duration]. *)
Lemma fresh_progress_zero (d : Q) : 0 + inject_Z 0 / d == 0.
Proof. unfold Qdiv. change (inject_Z 0) with 0. rewrite Qmult_0_l. reflexivity. Qed.

Lemma fresh_progress (d : Q) : 0 <= 0 + inject_Z 0 / d < 1.
Proof. rewrite fresh_progress_zero. lra. Qed.
End QLemmas.

(** [Some] is injective; unlike [injection], applying this lemma does
    not normalise the two sides. *)
Lemma some_eq {A : Type} (a b : A) : Some a = Some b -> a = b.
Proof. intros H. injection H. exact (fun e => e). Qed.

Section ListLemmas.
Context {A : Type}.

Lemma last_cons_default (x d : A) (l : list A) : List.last (x :: l) d = List.last l x.
Proof.
  revert x d. induction l as [|y l IH]; intros x d; [reflexivity|].
  change (List.last (y :: l) d = List.last (y :: l) x).
  rewrite !IH. reflexivity.
Qed.
End ListLemmas.

Lemma sorted_le_last (t : Z) (ts : list Z) :
  Sorted Z.le (t :: ts) -> (t <= List.last ts t)%Z.
Proof.
  revert t. induction ts as [|u ts IH]; intros t Hs; [simpl; lia|].
  apply Sorted_inv in Hs as [Hs Hr]. apply HdRel_inv in Hr.
  rewrite last_cons_default. specialize (IH u Hs). lia.
Qed.

#[export] Hint Resolve Qdiv_le_mono js_rem_bound math_max2_ge_l Qdiv_nonneg inject_Z_sub_nonneg : jsdb.
