(* ===== verification/Animation.v ===== *)
(** * Animation: the frame-clocked progress driver of Animation.js

    [anim] holds the closure variables of [function Animation] and its
    [reverseFlag] property, plus the number of [animate] callbacks
    registered with [requestAnimationFrame].  The methods that touch
    only this state are functions on [anim]; the ones that call the
    overridable [onUpdate]/[onFinish] ([onStart], [run], [animate]) are
    written against the interface [AnimHost] of the object that owns
    the animation.  The prototype object [ProtoObj] (Animation.js lines
    82-90) is the first instance of the interface; the slider is the
    second (Slider.v).  The theorems cover termination of the re-entrant
    [run], the progress arithmetic of [animate], [reverse], [pause]/
    [resume] and [cancel]. *)

From S2P Require Import Prelude.

Local Open Scope Q_scope.

Module Anim.

(** ** State *)

Record anim : Type := mkAnim {
  start : Z;          (** [var start]: clock at the last tick *)
  duration : Q;       (** [var duration] *)
  progress : Q;       (** [var progress] *)
  paused : bool;      (** [var paused] *)
  cancelled : bool;   (** [var cancelled] *)
  reverseFlag : bool; (** [this.reverseFlag] *)
  cycled : bool;      (** [var cycled] *)
  frames : nat        (** pending [requestAnimationFrame(animate)] callbacks *)
}.

Definition STANDARD_DURATION : Q := 1000.

(** [new Animation(dur)]: [dur || STANDARD_DURATION].  [start] and
    [progress] are [undefined] in the source until the first [run], which
    writes both before anything reads them; the model starts them at 0. *)
Definition Animation (dur : option Q) : anim :=
  {| start := 0;
     duration := match dur with
                 | Some d => if Qeq_bool d 0 then STANDARD_DURATION else d
                 | None => STANDARD_DURATION
                 end;
     progress := 0; paused := false; cancelled := false;
     reverseFlag := false; cycled := false; frames := 0 |}.

(** ** Methods on the animation state *)

Definition setDuration (dur : Q) (a : anim) : anim :=
  {| start := start a; duration := dur; progress := progress a;
     paused := paused a; cancelled := cancelled a;
     reverseFlag := reverseFlag a; cycled := cycled a; frames := frames a |}.

Definition set_progress (p : Q) (a : anim) : anim :=
  {| start := start a; duration := duration a; progress := p;
     paused := paused a; cancelled := cancelled a;
     reverseFlag := reverseFlag a; cycled := cycled a; frames := frames a |}.

Definition cancel (a : anim) : anim :=
  {| start := start a; duration := duration a; progress := progress a;
     paused := paused a; cancelled := true;
     reverseFlag := reverseFlag a; cycled := cycled a; frames := frames a |}.

Definition pause (a : anim) : anim :=
  {| start := start a; duration := duration a; progress := progress a;
     paused := true; cancelled := cancelled a;
     reverseFlag := reverseFlag a; cycled := cycled a; frames := frames a |}.

Definition isPaused (a : anim) : bool := paused a.

Definition resume (now : Z) (a : anim) : anim :=
  {| start := now; duration := duration a; progress := progress a;
     paused := false; cancelled := cancelled a;
     reverseFlag := reverseFlag a; cycled := cycled a; frames := frames a |}.

(** [reverse(flag)]: with no argument (or more than one) the flag is
    toggled, with one it is set to [!!flag]; a change mirrors
    [progress]. *)
Definition reverse (args : list jsval) (a : anim) : anim :=
  let flag := match args with
              | [v] => truthy v
              | _ => negb (reverseFlag a)
              end in
  if Bool.eqb (reverseFlag a) flag then a
  else {| start := start a; duration := duration a; progress := 1 - progress a;
          paused := paused a; cancelled := cancelled a;
          reverseFlag := flag; cycled := cycled a; frames := frames a |}.

Definition slow (factor : Q) (a : anim) : anim :=
  {| start := start a; duration := duration a * factor; progress := progress a;
     paused := paused a; cancelled := cancelled a;
     reverseFlag := reverseFlag a; cycled := cycled a; frames := frames a |}.

(** [cycle(flag)]: sets [cycled] when [flag === !!flag] (a boolean),
    toggles it otherwise. *)
Definition cycle (args : list jsval) (a : anim) : anim :=
  let flag := match args with v :: _ => v | [] => JUndefined end in
  let c := if strict_eq_not_not flag then truthy flag else negb (cycled a) in
  {| start := start a; duration := duration a; progress := progress a;
     paused := paused a; cancelled := cancelled a;
     reverseFlag := reverseFlag a; cycled := c; frames := frames a |}.

(** [requestAnimationFrame(animate)] *)
Definition request_frame (a : anim) : anim :=
  {| start := start a; duration := duration a; progress := progress a;
     paused := paused a; cancelled := cancelled a;
     reverseFlag := reverseFlag a; cycled := cycled a; frames := S (frames a) |}.

(** The browser takes one pending callback to call it. *)
Definition take_frame (a : anim) : option anim :=
  match frames a with
  | O => None
  | S k => Some {| start := start a; duration := duration a; progress := progress a;
                  paused := paused a; cancelled := cancelled a;
                  reverseFlag := reverseFlag a; cycled := cycled a; frames := k |}
  end.

(** The first lines of [run]: [start = now; paused = false; cancelled = false]. *)
Definition run_prologue (now : Z) (a : anim) : anim :=
  {| start := now; duration := duration a; progress := progress a;
     paused := false; cancelled := false;
     reverseFlag := reverseFlag a; cycled := cycled a; frames := frames a |}.

(** The first lines of [animate] past the pause test:
    [progress += (now - start) / duration; start = now]. *)
Definition tick (now : Z) (a : anim) : anim :=
  {| start := now; duration := duration a;
     progress := progress a + inject_Z (now - start a) / duration a;
     paused := paused a; cancelled := cancelled a;
     reverseFlag := reverseFlag a; cycled := cycled a; frames := frames a |}.

(** The value passed to [onUpdate]: [reverseFlag ? 1 - progress : progress]. *)
Definition reported (a : anim) : Q :=
  if reverseFlag a then 1 - progress a else progress a.

(** ** The owner object *)

(** The object that holds the animation and overrides its two
    extension points.  [onFinish] receives [run] because the owner may
    re-enter it (the slider chains its steps that way). *)
Class AnimHost (W : Type) := {
  host_anim : W -> anim;
  host_set_anim : anim -> W -> W;
  onUpdate : Q -> W -> W;
  onFinish : (W -> W) -> W -> W
}.

Section WithHost.
Context {W : Type} `{AnimHost W}.

Definition map_anim (f : anim -> anim) (w : W) : W :=
  host_set_anim (f (host_anim w)) w.

(** [onStart]: [progress = 0; this.onUpdate(this.reverseFlag ? 1 : 0)]. *)
Definition onStart (w : W) : W :=
  let w1 := map_anim (set_progress 0) w in
  onUpdate (if reverseFlag (host_anim w1) then 1 else 0) w1.

(** One call of [animate] (lines 59-79), [rerun] standing for
    [that.run]. *)
Definition animate_step (rerun : W -> W) (now : Z) (w : W) : W :=
  let a := host_anim w in
  if paused a then map_anim request_frame w
  else
    let a1 := tick now a in
    if Qle_bool 1 (progress a1) then
      let w1 := onFinish rerun (host_set_anim (set_progress 1 a1) w) in
      if cycled (host_anim w1) then rerun w1 else w1
    else
      let w1 := host_set_anim (if cancelled a1 then a1 else request_frame a1) w in
      onUpdate (reported (host_anim w1)) w1.

(** [run] (lines 21-27): the synchronous recursion through [onFinish]
    and [cycled] is bounded by [fuel]. *)
Fixpoint run (fuel : nat) (now : Z) (w : W) : W :=
  match fuel with
  | O => w
  | S f => animate_step (run f now) now (onStart (map_anim (run_prologue now) w))
  end.

(** A frame: the browser calls one pending [animate]. *)
Definition frame (fuel : nat) (now : Z) (w : W) : option W :=
  match take_frame (host_anim w) with
  | None => None
  | Some a => Some (animate_step (run fuel now) now (host_set_anim a w))
  end.

End WithHost.

(** Fuel enough for every owner satisfying [AnimHostLaws]: the fuel
    theorems below show that any fuel of at least one gives the same
    result. *)
Definition anim_fuel : nat := 2.

(** ** The prototype object *)

(** An object that keeps [Animation.prototype.onUpdate] and
    [Animation.prototype.onFinish]; [console] collects the warnings. *)
Record ProtoObj : Type := mkProto {
  proto_anim : anim;
  console : list string
}.

Definition proto_warning : string :=
  "You should override Animation.onUpdate() method.".

(** [Animation.prototype.onUpdate]: [this.cancel(); console.warn(...)]. *)
Definition proto_onUpdate (_ : Q) (o : ProtoObj) : ProtoObj :=
  {| proto_anim := cancel (proto_anim o); console := console o ++ [proto_warning] |}.

(** [Animation.prototype.onFinish]: [this.onUpdate(this.reverseFlag ? 0 : 1)]. *)
Definition proto_onFinish (_ : ProtoObj -> ProtoObj) (o : ProtoObj) : ProtoObj :=
  proto_onUpdate (if reverseFlag (proto_anim o) then 0 else 1) o.

#[export] Instance proto_host : AnimHost ProtoObj := {
  host_anim := proto_anim;
  host_set_anim a o := {| proto_anim := a; console := console o |};
  onUpdate := proto_onUpdate;
  onFinish := proto_onFinish
}.

(** ** Laws of an owner *)

(** The fields of the animation that [animate] computes with. *)
Definition clock (a : anim) : Z * Q * Q * bool :=
  (start a, duration a, progress a, paused a).

(** What an owner must respect for [run] to terminate: [host_anim] and
    [host_set_anim] form a lens, [onUpdate] leaves the clock alone, and
    [onFinish] uses the [run] it receives only through its results. *)
Class AnimHostLaws (W : Type) `{AnimHost W} : Prop := {
  host_get_set : forall a w, host_anim (host_set_anim a w) = a;
  host_set_get : forall w, host_set_anim (host_anim w) w = w;
  host_set_set : forall a b w, host_set_anim a (host_set_anim b w) = host_set_anim a w;
  onUpdate_clock : forall p w, clock (host_anim (onUpdate p w)) = clock (host_anim w);
  onFinish_proper : Proper (pointwise_relation W eq ==> eq ==> eq) onFinish
}.

(** An owner whose [onUpdate] only observes the animation. *)
Class PureUpdate (W : Type) `{AnimHost W} : Prop :=
  onUpdate_anim : forall p w, host_anim (onUpdate p w) = host_anim w.

(** Frames fired one after the other at the instants [ts]. *)
Fixpoint frames_at {W : Type} `{AnimHost W} (fuel : nat) (ts : list Z) (w : W)
  : option W :=
  match ts with
  | [] => Some w
  | t :: ts' => match frame fuel t w with
                | None => None
                | Some w' => frames_at fuel ts' w'
                end
  end.

(** ** Equivalence of animation states *)

(** Two states that agree up to [Qeq] on their rational fields. *)
Definition anim_equiv (a b : anim) : Prop :=
  start a = start b /\ duration a == duration b /\ progress a == progress b /\
  paused a = paused b /\ cancelled a = cancelled b /\
  reverseFlag a = reverseFlag b /\ cycled a = cycled b /\ frames a = frames b.

#[export] Instance anim_equiv_Equivalence : Equivalence anim_equiv.
Proof.
  split.
  - intros a. split_and!; reflexivity.
  - intros a b (?&?&?&?&?&?&?&?). split_and!; symmetry; assumption.
  - intros a b c (?&?&?&?&?&?&?&?) (?&?&?&?&?&?&?&?).
    split_and!; etransitivity; eassumption.
Qed.

#[export] Instance reported_proper : Proper (anim_equiv ==> Qeq) reported.
Proof.
  intros a b (?&?&Hp&?&?&Hr&?&?). unfold reported. rewrite Hr. destruct (reverseFlag b); rewrite Hp; reflexivity.
Qed.

#[export] Instance reverse_proper (args : list jsval) :
  Proper (anim_equiv ==> anim_equiv) (reverse args).
Proof.
  intros a b (Hs&Hd&Hp&?&?&Hr&?&?). unfold reverse. rewrite Hr.
  destruct (Bool.eqb _ _).
  - split_and!; assumption.
  - split_and!; simpl; try assumption; try reflexivity. rewrite Hp. reflexivity.
Qed.

#[export] Instance tick_proper (now : Z) : Proper (anim_equiv ==> anim_equiv) (tick now).
Proof.
  intros a b (Hs&Hd&Hp&?&?&?&?&?). unfold tick.
  split_and!; cbn [start duration progress paused cancelled reverseFlag cycled frames];
    try assumption; try reflexivity.
  rewrite Hs, Hd, Hp. reflexivity.
Qed.

(** ** An observing owner *)

(** The simplest owner that overrides [onUpdate]: it records every value
    it is given, and keeps [onFinish] as a no-op. *)
Record Recorder : Type := mkRecorder {
  rec_anim : anim;
  seen : list Q
}.

#[export] Instance recorder_host : AnimHost Recorder := {
  host_anim := rec_anim;
  host_set_anim a r := {| rec_anim := a; seen := seen r |};
  onUpdate p r := {| rec_anim := rec_anim r; seen := seen r ++ [p] |};
  onFinish _ r := r
}.

#[export] Instance proto_laws : AnimHostLaws ProtoObj.
Proof.
  split.
  - reflexivity.
  - intros []; reflexivity.
  - reflexivity.
  - intros p []; reflexivity.
  - intros r1 r2 _ w w' ->. reflexivity.
Qed.

#[export] Instance recorder_laws : AnimHostLaws Recorder.
Proof.
  split.
  - reflexivity.
  - intros []; reflexivity.
  - reflexivity.
  - reflexivity.
  - intros r1 r2 _ w w' ->. reflexivity.
Qed.

#[export] Instance recorder_pure : PureUpdate Recorder.
Proof. intros p r. reflexivity. Qed.

(** A recorder holding a fresh [new Animation(dur)]. *)
Definition fresh_recorder (dur : option Q) : Recorder :=
  {| rec_anim := Animation dur; seen := [] |}.

(** ** Callers of a recorded animation *)

(** What a caller does to a recorded animation at an instant: call one
    of its public methods, or let the browser call a pending frame. *)
Inductive rec_op : Type :=
| OpSetDuration (d : Q)
| OpSlow (factor : Q)
| OpCancel
| OpPause
| OpResume
| OpReverse (args : list jsval)
| OpCycle (args : list jsval)
| OpRun
| OpFrame.

Definition apply_op (now : Z) (o : rec_op) (r : Recorder) : option Recorder :=
  match o with
  | OpSetDuration d => Some (map_anim (setDuration d) r)
  | OpSlow f => Some (map_anim (slow f) r)
  | OpCancel => Some (map_anim cancel r)
  | OpPause => Some (map_anim pause r)
  | OpResume => Some (map_anim (resume now) r)
  | OpReverse args => Some (map_anim (reverse args) r)
  | OpCycle args => Some (map_anim (cycle args) r)
  | OpRun => Some (run anim_fuel now r)
  | OpFrame => frame anim_fuel now r
  end.

(** Arguments that keep the duration positive, as the slider's
    [setDuration(300 / k)] with [k >= 1] does. *)
Definition op_ok (o : rec_op) : Prop :=
  match o with
  | OpSetDuration d => 0 < d
  | OpSlow f => 0 < f
  | _ => True
  end.

(** States of a recorder reached by calls at non-decreasing instants. *)
Inductive rec_reachable : Z -> Recorder -> Prop :=
| rec_new (dur : option Q) :
    (forall d, dur = Some d -> 0 <= d) -> rec_reachable 0 (fresh_recorder dur)
| rec_step (t now : Z) (o : rec_op) (r r' : Recorder) :
    rec_reachable t r -> (t <= now)%Z -> op_ok o -> apply_op now o r = Some r' ->
    rec_reachable now r'.

(** The typing of an animation at instant [t]: a positive duration, a
    progress in [0, 1] and a last tick not in the future. *)
Definition anim_wf (t : Z) (a : anim) : Prop :=
  0 < duration a /\ 0 <= progress a <= 1 /\ (start a <= t)%Z.

(** The type the spec gives the argument of [onUpdate]. *)
Definition unit_interval (p : Q) : Prop := 0 <= p <= 1.

(** A recorder whose animation is well typed at [t] and which was only
    ever given values of that type. *)
Definition rec_ok (t : Z) (r : Recorder) : Prop :=
  anim_wf t (rec_anim r) /\ Forall unit_interval (seen r).

(** ** Termination of the re-entrant [run] *)

Section Laws.
Context {W : Type} `{AnimHostLaws W}.

Lemma host_anim_map (f : anim -> anim) (w : W) : host_anim (map_anim f w) = f (host_anim w).
Proof. unfold map_anim. apply host_get_set. Qed.

(** After the prologue of [run] and [onStart], the clock reads [now],
    progress [0] and the animation is not paused. *)
Lemma onStart_prologue_clock (now : Z) (w : W) :
  clock (host_anim (onStart (map_anim (run_prologue now) w))) =
  (now, duration (host_anim w), 0, false).
Proof.
  unfold onStart. rewrite onUpdate_clock, !host_anim_map. reflexivity.
Qed.

(** A tick at the instant of the last one adds nothing. *)
Lemma fresh_tick_no_finish (now : Z) (a : anim) :
  start a = now -> progress a = 0 -> Qle_bool 1 (progress (tick now a)) = false.
Proof.
  intros Hs Hp. unfold tick. cbn [progress start]. rewrite Hs, Hp, Z.sub_diag.
  reflexivity.
Qed.

(** [animate] uses [rerun] only on its finishing branch. *)
Lemma animate_step_unfinished (r1 r2 : W -> W) (now : Z) (w : W) :
  paused (host_anim w) = false ->
  Qle_bool 1 (progress (tick now (host_anim w))) = false ->
  animate_step r1 now w = animate_step r2 now w.
Proof. intros Hp Hq. unfold animate_step. rewrite Hp, Hq. reflexivity. Qed.

Lemma run_S (f : nat) (now : Z) (w : W) :
  run (S f) now w = animate_step (run f now) now (onStart (map_anim (run_prologue now) w)).
Proof. reflexivity. Qed.

(** [run] does not re-enter itself: its [animate] never finishes. *)
Lemma run_S_settles (f : nat) (now : Z) (w : W) : run (S f) now w = run 1 now w.
Proof.
  rewrite !run_S. pose proof (onStart_prologue_clock now w) as Hc.
  unfold clock in Hc. injection Hc as Hs _ Hp Hpa.
  apply animate_step_unfinished; [exact Hpa|]. now apply fresh_tick_no_finish.
Qed.

(** C8: [run] never recurses: with any fuel of at least one, it gives
    the result of fuel one, for every owner satisfying the laws. *)
Theorem run_fuel_irrelevant (f : nat) (now : Z) (w : W) :
  run (S f) now w = run 1 now w.
Proof. exact (run_S_settles f now w). Qed.

(** One frame needs fuel one: any larger fuel gives the same
    state, so [anim_fuel] is enough and the bounded recursion is the
    source's unbounded one. *)
Theorem frame_fuel_irrelevant (f : nat) (now : Z) (w : W) :
  frame (S f) now w = frame 1 now w.
Proof.
  unfold frame. destruct (take_frame (host_anim w)) as [a|]; [|reflexivity].
  f_equal. unfold animate_step. cbv zeta.
  destruct (paused _); [reflexivity|]. destruct (Qle_bool _ _); [|reflexivity].
  rewrite (onFinish_proper _ _ (fun x => run_S_settles f now x) _ _ eq_refl).
  destruct (cycled _); [apply run_S_settles|reflexivity].
Qed.

(** A paused animation's frame only re-registers [animate]: any number
    of frames leave the owner as it is. *)
Lemma paused_frames_fixed (f : nat) (ts : list Z) (w : W) :
  paused (host_anim w) = true -> (1 <= frames (host_anim w))%nat ->
  frames_at f ts w = Some w.
Proof.
  intros Hp Hf. induction ts as [|t ts IH]; [reflexivity|].
  cbn [frames_at]. unfold frame, take_frame.
  destruct (frames (host_anim w)) as [|k] eqn:Hk; [lia|].
  unfold animate_step. rewrite host_get_set. cbn [paused]. rewrite Hp.
  unfold map_anim. rewrite host_get_set, host_set_set.
  replace (request_frame _) with (host_anim w)
    by (unfold request_frame; destruct (host_anim w); cbn in *; congruence).
  rewrite host_set_get. exact IH.
Qed.

(** C25: a paused animation re-registers its callback whether or not it
    was cancelled: a cancelled, paused animation keeps one frame pending
    through any number of frames. *)
Theorem cancel_while_paused_keeps_ticking (f : nat) (ts : list Z) (w : W) :
  paused (host_anim w) = true -> cancelled (host_anim w) = true ->
  (1 <= frames (host_anim w))%nat ->
  frames_at f ts w = Some w.
Proof. intros Hp _ Hf. exact (paused_frames_fixed f ts w Hp Hf). Qed.
End Laws.

(** ** Progress arithmetic *)

Section Pure.
Context {W : Type} `{AnimHostLaws W} `{!PureUpdate W}.

(** A frame that does not reach the end advances the clock and keeps
    exactly one callback pending. *)
Lemma frame_unfinished (f : nat) (now : Z) (w : W) :
  (1 <= frames (host_anim w))%nat ->
  paused (host_anim w) = false -> cancelled (host_anim w) = false ->
  Qle_bool 1 (progress (tick now (host_anim w))) = false ->
  exists w', frame f now w = Some w' /\ host_anim w' = tick now (host_anim w).
Proof.
  intros Hf Hp Hc Hq. unfold frame, take_frame.
  destruct (host_anim w) as [s d p pa c r cy fr] eqn:Ha; cbn in *.
  destruct fr as [|k]; [lia|]. subst.
  eexists; split; [reflexivity|].
  unfold animate_step. rewrite host_get_set. cbn. rewrite Hq.
  rewrite onUpdate_anim, host_get_set. reflexivity.
Qed.

(** C7: without pause, the progress after frames at the instants [ts]
    is the elapsed time since the last tick divided by the duration,
    as long as it stays below 1; one callback stays pending. *)
Theorem frame_progress_accumulates (f : nat) (ts : list Z) (w : W) :
  (1 <= frames (host_anim w))%nat ->
  paused (host_anim w) = false -> cancelled (host_anim w) = false ->
  0 < duration (host_anim w) ->
  Sorted Z.le (start (host_anim w) :: ts) ->
  progress (host_anim w) +
    inject_Z (List.last ts (start (host_anim w)) - start (host_anim w)) /
    duration (host_anim w) < 1 ->
  exists w', frames_at f ts w = Some w' /\
    progress (host_anim w') ==
      progress (host_anim w) +
      inject_Z (List.last ts (start (host_anim w)) - start (host_anim w)) /
      duration (host_anim w) /\
    start (host_anim w') = List.last ts (start (host_anim w)) /\
    frames (host_anim w') = frames (host_anim w).
Proof.
  revert w. induction ts as [|t ts IH]; intros w Hf Hp Hc Hd Hs Hlt.
  - exists w. split_and!; [reflexivity| |reflexivity..].
    cbn. rewrite Z.sub_diag. field. lra.
  - pose proof (sorted_le_last _ _ Hs) as Hlast.
    rewrite last_cons_default in *.
    apply Sorted_inv in Hs as [Hs Hr]. apply HdRel_inv in Hr.
    pose proof (sorted_le_last _ _ Hs) as Ht.
    destruct (frame_unfinished f t w) as (w1 & Hw1 & Ha1); try assumption.
    { apply Qle_bool_false. cbn [tick progress].
      apply Qle_lt_trans with (2 := Hlt). apply Qplus_le_r.
      apply Qdiv_le_mono; [rewrite <- Zle_Qle; lia|exact Hd]. }
    cbn [frames_at]. rewrite Hw1.
    destruct (IH w1) as (w2 & Hw2 & Hp2 & Hs2 & Hf2);
      rewrite ?Ha1; cbn [tick progress start duration paused cancelled frames];
      try assumption.
    + rewrite elapsed_telescope by lra. exact Hlt.
    + exists w2. rewrite Hw2, Hp2, Hs2, Hf2, Ha1. cbn.
      split_and!; try reflexivity. apply elapsed_telescope. lra.
Qed.
(** A frame of a cancelled animation that does not end the run only
    advances the clock. *)
Lemma animate_cancelled_unfinished (rerun : W -> W) (now : Z) (w : W) :
  paused (host_anim w) = false -> cancelled (host_anim w) = true ->
  Qle_bool 1 (progress (tick now (host_anim w))) = false ->
  host_anim (animate_step rerun now w) = tick now (host_anim w).
Proof.
  intros Hp Hc Hq. unfold animate_step. cbv zeta. rewrite Hp, Hq.
  replace (cancelled (tick now (host_anim w))) with true by (symmetry; exact Hc).
  rewrite onUpdate_anim, host_get_set. reflexivity.
Qed.

(** C13: what [cancel] does to the frame already requested, when that
    frame does not end the run.  Unpaused, the frame still advances and
    reports the progress but requests no further frame, so the browser
    has no callback left to call.  Paused, the frame re-requests itself
    and leaves the owner as it found it: the cancellation waits for the
    next unpaused frame.  (A frame that ends the run calls [onFinish]
    whether or not the animation was cancelled.) *)
Theorem cancel_frame_cases (f : nat) (now : Z) (w : W) :
  frames (host_anim w) = 1%nat ->
  Qle_bool 1 (progress (tick now (host_anim w))) = false ->
  exists w', frame f now (map_anim cancel w) = Some w' /\
    (paused (host_anim w) = true -> w' = map_anim cancel w) /\
    (paused (host_anim w) = false ->
       progress (host_anim w') = progress (tick now (host_anim w)) /\
       frames (host_anim w') = 0%nat /\
       forall now', frame f now' w' = None).
Proof.
  intros Hf Hq. unfold frame at 1, map_anim. rewrite host_get_set.
  destruct (host_anim w) as [st d p pa c r cy fr] eqn:Ha. cbn in Hf, Hq. subst fr.
  cbn [take_frame cancel frames start duration progress paused cancelled reverseFlag cycled].
  eexists. split; [reflexivity|]. destruct pa; split; intros Hpa; try discriminate.
  - unfold animate_step. rewrite host_get_set. cbn [paused].
    unfold map_anim. rewrite host_get_set, !host_set_set. reflexivity.
  - rewrite animate_cancelled_unfinished by (rewrite host_get_set; first [reflexivity|exact Hq]).
    rewrite host_get_set. split_and!; [reflexivity..|].
    intros now'. unfold frame.
    rewrite animate_cancelled_unfinished by (rewrite host_get_set; first [reflexivity|exact Hq]).
    rewrite host_get_set. reflexivity.
Qed.

(** C24: [resume] re-anchors the clock and discards the time between
    the last tick and the [pause]: an unpaused animation paused at any
    instant, given any number of frames while paused, resumed at [t2]
    and given a frame at [t3], has advanced by [(t3 - t2) / duration]
    only, whatever time ran between its last tick and the pause. *)
Theorem pause_resume_drops_time (f : nat) (ts : list Z) (t2 t3 : Z) (w : W) :
  (1 <= frames (host_anim w))%nat ->
  paused (host_anim w) = false -> cancelled (host_anim w) = false ->
  0 < duration (host_anim w) -> (t2 <= t3)%Z ->
  progress (host_anim w) + inject_Z (t3 - t2) / duration (host_anim w) < 1 ->
  exists w', (frames_at f ts (map_anim pause w) ≫=
              fun w1 => frame f t3 (map_anim (resume t2) w1)) = Some w' /\
    progress (host_anim w') ==
      progress (host_anim w) + inject_Z (t3 - t2) / duration (host_anim w) /\
    start (host_anim w') = t3 /\ frames (host_anim w') = frames (host_anim w).
Proof.
  intros Hf Hp Hc Hd Ht Hlt.
  rewrite paused_frames_fixed by (rewrite host_anim_map; first [reflexivity|exact Hf]).
  cbn [mbind option_bind].
  destruct (frame_unfinished f t3 (map_anim (resume t2) (map_anim pause w)))
    as (w' & Hw' & Ha'); rewrite ?host_anim_map; cbn [resume pause frames paused cancelled].
  1-3: first [assumption|reflexivity].
  - apply Qle_bool_false. cbn [tick progress start duration resume pause]. exact Hlt.
  - exists w'. rewrite Hw', Ha', !host_anim_map. cbn. split_and!; reflexivity.
Qed.
End Pure.

(** ** The prototype's extension points *)

(** C29: an owner that keeps the prototype's [onUpdate] gets a warning
    at [onStart] and another one at the first [animate], and cancels
    itself: the run leaves no frame pending beyond those already
    there. *)
Theorem proto_self_cancels (f : nat) (now : Z) (o : ProtoObj) :
  let o' := run (S f) now o in
  cancelled (proto_anim o') = true /\
  frames (proto_anim o') = frames (proto_anim o) /\
  console o' = console o ++ [proto_warning; proto_warning].
Proof.
  cbv zeta. rewrite run_S_settles, run_S. unfold animate_step.
  rewrite fresh_tick_no_finish by reflexivity. cbn.
  rewrite <- app_assoc. split_and!; reflexivity.
Qed.

(** ** Reverse *)

(** C28: [reverse] never makes the reported progress jump: whatever its
    argument and whatever the state, the value [animate] passes to
    [onUpdate] is the same before and after. *)
Theorem reverse_reported_continuous (args : list jsval) (a : anim) :
  reported (reverse args a) == reported a.
Proof.
  destruct a as [s d p pa c r cy fr]. unfold reverse, reported.
  destruct r, args as [|v [|? ?]]; cbn;
    try destruct (truthy v); cbn; try reflexivity; ring.
Qed.

(** [reverse()] twice gives back the same animation state (up to
    [Qeq] on progress). *)
Theorem reverse_twice (a : anim) : anim_equiv (reverse [] (reverse [] a)) a.
Proof.
  destruct a as [s d p pa c r cy fr]. unfold reverse.
  destruct r; cbn; split_and!; cbn; try reflexivity; ring.
Qed.

(** ** The type of the reported progress *)

Lemma anim_wf_mono (t t' : Z) (a : anim) : anim_wf t a -> (t <= t')%Z -> anim_wf t' a.
Proof. intros (Hd & Hp & Hs) Ht. split; [exact Hd|split; [exact Hp|lia]]. Qed.

(** [anim_wf] reads only the clock fields. *)
Lemma anim_wf_fields (t : Z) (a b : anim) :
  start b = start a -> duration b = duration a -> progress b = progress a ->
  anim_wf t a -> anim_wf t b.
Proof. unfold anim_wf. intros -> -> ->. exact id. Qed.

Lemma reported_unit (a : anim) : 0 <= progress a <= 1 -> unit_interval (reported a).
Proof. unfold reported, unit_interval. intros [? ?]. destruct (reverseFlag a); split; lra. Qed.

(** A tick at a later instant does not decrease the progress. *)
Lemma tick_progress_nonneg (t now : Z) (a : anim) :
  anim_wf t a -> (t <= now)%Z -> 0 <= progress (tick now a).
Proof.
  intros (Hd & [Hp0 _] & Hs) Ht. cbn [tick progress].
  assert (0 <= inject_Z (now - start a) / duration a)
    by (apply Qdiv_nonneg; [apply inject_Z_sub_nonneg; lia|exact Hd]).
  lra.
Qed.

Lemma rec_map_ok (t : Z) (f : anim -> anim) (r : Recorder) :
  anim_wf t (f (rec_anim r)) -> Forall unit_interval (seen r) -> rec_ok t (map_anim f r).
Proof. intros Ha Hs. split; assumption. Qed.

Lemma rec_update_ok (t : Z) (p : Q) (r : Recorder) :
  unit_interval p -> rec_ok t r -> rec_ok t (onUpdate p r).
Proof.
  intros Hp [Ha Hs]. split; [exact Ha|]. cbn. apply Forall_app; split; [exact Hs|].
  apply Forall_singleton. exact Hp.
Qed.

Lemma onStart_ok (now : Z) (r : Recorder) : rec_ok now r -> rec_ok now (onStart r).
Proof.
  intros [(Hd & _ & Hs) Hseen]. unfold onStart. apply rec_update_ok.
  - cbn. destruct (reverseFlag (rec_anim r)); unfold unit_interval; lra.
  - apply rec_map_ok; [|exact Hseen]. cbn. unfold anim_wf. cbn. split_and!; try lra; lia.
Qed.

(** One call of [animate] keeps the recorder well typed, given a
    [rerun] that does. *)
Lemma animate_step_ok (rerun : Recorder -> Recorder) (t now : Z) (r : Recorder) :
  (forall r', rec_ok now r' -> rec_ok now (rerun r')) ->
  rec_ok t r -> (t <= now)%Z -> rec_ok now (animate_step rerun now r).
Proof.
  intros Hrerun [Ha Hs] Ht. pose proof (tick_progress_nonneg t now _ Ha Ht) as Hp1.
  pose proof Ha as (Hd & Hp & Hst). unfold animate_step. cbn [host_anim recorder_host].
  destruct (paused (rec_anim r)).
  { apply rec_map_ok; [|exact Hs]. apply (anim_wf_mono t); [|exact Ht].
    apply (anim_wf_fields _ (rec_anim r)); [reflexivity..|exact Ha]. }
  assert (Hw : forall p, 0 <= p <= 1 -> anim_wf now (set_progress p (tick now (rec_anim r))))
    by (intros p Hp'; split_and!; cbn; first [exact Hd|apply Hp'|lia]).
  destruct (Qle_bool 1 _) eqn:E; qbool.
  - assert (Hr1 : rec_ok now {| rec_anim := set_progress 1 (tick now (rec_anim r)); seen := seen r |})
      by (split; [apply Hw; split; lra|exact Hs]).
    cbn [onFinish recorder_host host_anim rec_anim].
    destruct (cycled _); [apply Hrerun|]; exact Hr1.
  - assert (Ht1 : anim_wf now (tick now (rec_anim r)))
      by (apply (anim_wf_fields _ (set_progress (progress (tick now (rec_anim r))) (tick now (rec_anim r))));
          [reflexivity..|apply Hw; split; lra]).
    apply rec_update_ok; [apply reported_unit|split; [|exact Hs]];
      destruct (cancelled _); cbn; first [apply Ht1 | apply (anim_wf_fields _ _ _ eq_refl eq_refl eq_refl Ht1)].
Qed.

Lemma run_ok (f : nat) (now : Z) (r : Recorder) : rec_ok now r -> rec_ok now (run f now r).
Proof.
  revert r. induction f as [|f IH]; intros r Hr; [exact Hr|]. cbn [run].
  apply (animate_step_ok _ now); [exact IH| |lia]. apply onStart_ok.
  destruct Hr as [(Hd & Hp & _) Hs]. apply rec_map_ok; [|exact Hs].
  split_and!; cbn; first [apply Hd | apply Hp | lia].
Qed.

Lemma frame_ok (f : nat) (t now : Z) (r r' : Recorder) :
  rec_ok t r -> (t <= now)%Z -> frame f now r = Some r' -> rec_ok now r'.
Proof.
  intros [Ha Hs] Ht. unfold frame, take_frame. cbn [host_anim recorder_host].
  destruct (frames (rec_anim r)); [discriminate|]. intros [= <-].
  apply (animate_step_ok _ t); [intros; apply run_ok; assumption| |exact Ht].
  split; [|exact Hs]. apply (anim_wf_fields _ (rec_anim r)); [reflexivity..|exact Ha].
Qed.

Lemma apply_op_ok (t now : Z) (o : rec_op) (r r' : Recorder) :
  rec_ok t r -> (t <= now)%Z -> op_ok o -> apply_op now o r = Some r' -> rec_ok now r'.
Proof.
  intros Hr Ht Ho. pose proof Hr as [(Hd & Hp & Hst) Hs].
  destruct o; cbn [apply_op]; try (intros <-%some_eq); [apply rec_map_ok; [|exact Hs]..| |].
  - split_and!; cbn; first [exact Ho | apply Hp | lia].
  - split_and!; cbn; first [apply Qmult_lt_0_compat; assumption | apply Hp | lia].
  - split_and!; cbn; first [exact Hd | apply Hp | lia].
  - split_and!; cbn; first [exact Hd | apply Hp | lia].
  - split_and!; cbn; first [exact Hd | apply Hp | lia].
  - unfold reverse. destruct (Bool.eqb _ _); split_and!; cbn; first [exact Hd | apply Hp | lia | lra].
  - split_and!; cbn; first [exact Hd | apply Hp | lia].
  - apply run_ok. destruct Hr as [Ha Hs']. split; [|exact Hs']. eapply anim_wf_mono; eassumption.
  - apply frame_ok with (1 := Hr) (2 := Ht).
Qed.

(** C9: the argument of [onUpdate] has the type the spec gives it, a
    real in [0, 1]: whatever methods a caller applies at
    non-decreasing instants, with positive durations and slow-down
    factors, the animation keeps a positive duration and a progress in
    [0, 1], and every value it reported to its owner lies in [0, 1]. *)
Theorem onUpdate_values_in_unit (t : Z) (r : Recorder) :
  rec_reachable t r -> anim_wf t (rec_anim r) /\ Forall unit_interval (seen r).
Proof.
  induction 1 as [dur Hdur|t now o r r' _ IH Ht Ho Hr'].
  - split; [|constructor]. split_and!; cbn; try lra; [|reflexivity].
    destruct dur as [d|]; [|reflexivity]. destruct (Qeq_bool d 0) eqn:E; [reflexivity|].
    specialize (Hdur d eq_refl). apply Qle_lt_or_eq in Hdur as [Hlt|Heq]; [exact Hlt|].
    apply Qeq_bool_neq in E. symmetry in Heq. contradiction.
  - exact (apply_op_ok t now o r r' IH Ht Ho Hr').
Qed.

(** ** Scenarios *)

(** C23: the progress [run] and the frames report to [onUpdate]: for
    any recorded animation of positive duration, [run] at [t0] reports
    the start value twice (once from [onStart], once from its
    synchronous first [animate]), and a frame at [t1], before the end,
    reports the elapsed fraction [(t1 - t0) / duration] of the run, or
    its complement when the animation is reversed. *)
Theorem run_then_frame_reports (f : nat) (t0 t1 : Z) (r : Recorder) :
  0 < duration (rec_anim r) -> inject_Z (t1 - t0) / duration (rec_anim r) < 1 ->
  exists r' v0 v1 v2, frame f t1 (run (S f) t0 r) = Some r' /\
    seen r' = seen r ++ [v0; v1; v2] /\
    v0 == (if reverseFlag (rec_anim r) then 1 else 0) /\
    v1 == (if reverseFlag (rec_anim r) then 1 else 0) /\
    v2 == (if reverseFlag (rec_anim r) then 1 - inject_Z (t1 - t0) / duration (rec_anim r)
           else inject_Z (t1 - t0) / duration (rec_anim r)).
Proof.
  intros Hd Hx. destruct r as [[st d p pa c rv cy fr] sn]. cbn in *.
  rewrite Z.sub_diag. cbn.
  assert (Hq : Qle_bool 1 (0 + inject_Z 0 / d + inject_Z (t1 - t0) / d) = false).
  { apply Qle_bool_false. assert (E : 0 + inject_Z 0 / d == 0) by (unfold Qdiv; ring).
    rewrite E. lra. }
  replace (Qle_bool 1 (0 + inject_Z 0 / d)) with false by reflexivity.
  cbn. rewrite Z.sub_diag, Hq. cbn. do 4 eexists. split; [reflexivity|].
  rewrite <- !app_assoc. split; [reflexivity|].
  unfold reported. cbn. rewrite ?Z.sub_diag. unfold Qdiv.
  destruct rv; split_and!; ring.
Qed.

(** The two flag setters read a single argument differently:
    [reverse(v)] sets the flag to [!!v], [cycle(v)] sets it only when [v]
    is a boolean and toggles it otherwise (so [cycle(1)] on a cycling
    animation stops it). *)
Theorem flag_setters_disagree (v : jsval) (a : anim) :
  reverseFlag (reverse [v] a) = truthy v /\
  cycled (cycle [v] a) = match v with JBool b => b | _ => negb (cycled a) end.
Proof.
  split.
  - unfold reverse. destruct (Bool.eqb (reverseFlag a) (truthy v)) eqn:E; [|reflexivity].
    apply Bool.eqb_prop in E. exact E.
  - destruct v as [| |[]| | |]; reflexivity.
Qed.

(** ** Witnesses *)

Lemma run_fuel_irrelevant_witness :
  run 5 0 (fresh_recorder (Some 1000)) = run 1 0 (fresh_recorder (Some 1000)).
Proof. apply (run_fuel_irrelevant 4 0 (fresh_recorder (Some 1000))). Defined.

Lemma cancel_while_paused_keeps_ticking_witness :
  let w := map_anim (fun a => pause (cancel a)) (run anim_fuel 0 (fresh_recorder (Some 1000))) in
  frames_at anim_fuel [5; 10; 5000]%Z w = Some w.
Proof.
  intros w. apply (cancel_while_paused_keeps_ticking anim_fuel [5; 10; 5000]%Z w);
    [reflexivity | reflexivity | vm_compute; lia].
Defined.

Lemma frame_progress_accumulates_witness :
  let w := run anim_fuel 0 (fresh_recorder (Some 1000)) in
  exists w', frames_at anim_fuel [100; 250]%Z w = Some w' /\
    progress (host_anim w') ==
      progress (host_anim w) +
      inject_Z (List.last [100; 250]%Z (start (host_anim w)) - start (host_anim w)) /
      duration (host_anim w) /\
    start (host_anim w') = List.last [100; 250]%Z (start (host_anim w)) /\
    frames (host_anim w') = frames (host_anim w).
Proof.
  intros w. apply (frame_progress_accumulates anim_fuel [100; 250]%Z w).
  - vm_compute. lia.
  - reflexivity.
  - reflexivity.
  - vm_compute. reflexivity.
  - change (Sorted Z.le [0; 100; 250]%Z). repeat constructor; lia.
  - vm_compute. reflexivity.
Defined.

Lemma cancel_frame_cases_witness :
  let w := run anim_fuel 0 (fresh_recorder (Some 1000)) in
  exists w', frame anim_fuel 100 (map_anim cancel w) = Some w' /\
    (paused (host_anim w) = true -> w' = map_anim cancel w) /\
    (paused (host_anim w) = false ->
       progress (host_anim w') = progress (tick 100 (host_anim w)) /\
       frames (host_anim w') = 0%nat /\
       forall now', frame anim_fuel now' w' = None).
Proof.
  intros w. apply (cancel_frame_cases anim_fuel 100 w); vm_compute; reflexivity.
Defined.

Lemma run_then_frame_reports_witness :
  let r := fresh_recorder (Some 1000) in
  exists r' v0 v1 v2, frame 1 400 (run 2 0 r) = Some r' /\
    seen r' = seen r ++ [v0; v1; v2] /\
    v0 == (if reverseFlag (rec_anim r) then 1 else 0) /\
    v1 == (if reverseFlag (rec_anim r) then 1 else 0) /\
    v2 == (if reverseFlag (rec_anim r) then 1 - inject_Z (400 - 0) / duration (rec_anim r)
           else inject_Z (400 - 0) / duration (rec_anim r)).
Proof.
  intros r. apply (run_then_frame_reports 1 0 400 r); reflexivity.
Defined.

Lemma pause_resume_drops_time_witness :
  let w := default (fresh_recorder None)
             (frame anim_fuel 10 (run anim_fuel 0 (fresh_recorder (Some 1000)))) in
  exists w', (frames_at anim_fuel [17%Z] (map_anim pause w) ≫=
              fun w1 => frame anim_fuel 30 (map_anim (resume 20) w1)) = Some w' /\
    progress (host_anim w') ==
      progress (host_anim w) + inject_Z (30 - 20) / duration (host_anim w) /\
    start (host_anim w') = 30%Z /\ frames (host_anim w') = frames (host_anim w).
Proof.
  intros w. apply (pause_resume_drops_time anim_fuel [17%Z] 20 30 w);
    first [vm_compute; reflexivity | vm_compute; lia | lia].
Defined.

Lemma onUpdate_values_in_unit_witness :
  rec_reachable 100 (map_anim (reverse []) (run anim_fuel 100 (fresh_recorder (Some 1000)))) /\
  anim_wf 100 (rec_anim (map_anim (reverse []) (run anim_fuel 100 (fresh_recorder (Some 1000))))) /\
  Forall unit_interval (seen (map_anim (reverse []) (run anim_fuel 100 (fresh_recorder (Some 1000))))).
Proof.
  assert (Hr : rec_reachable 100
                 (map_anim (reverse []) (run anim_fuel 100 (fresh_recorder (Some 1000))))).
  { apply (rec_step 100 100 (OpReverse [])
             (run anim_fuel 100 (fresh_recorder (Some 1000)))); [|lia|exact I|reflexivity].
    apply (rec_step 0 100 OpRun (fresh_recorder (Some 1000))); [|lia|exact I|reflexivity].
    apply rec_new. intros d Hd. apply some_eq in Hd. subst d. lra. }
  split; [exact Hr|]. exact (onUpdate_values_in_unit _ _ Hr).
Defined.

End Anim.
