(* ===== verification/Slider.v ===== *)
(** * Slider: the carousel of Slider.js

    [layout] holds the constants the constructor
    [createSliderFromHTMLElementArray] computes once and the slider's
    methods read through their closure ([HTMLElementArrayUsed], [len],
    the container size and the centring offsets).  [slider] is the
    object the constructor returns together with the part of the page it
    writes: the carousel offset, the two data containers (style and
    children), the next-slide offset, the [display] style of the item
    nodes and the "selected" class of the bottom indicators.  Each method
    is one definition; the slider is an instance of [Anim.AnimHost] whose
    [onUpdate]/[onFinish] are the overrides of lines 133-143; the page
    events are the step function [handle] and [reachable] is the set of
    states they reach from the constructor. *)

From S2P Require Import Prelude Animation.

Import Anim.
Local Open Scope Z_scope.

Module Slider.

(** ** Constants (lines 31-39) *)

Definition MAX_CAROUSEL_LENGTH : nat := 10.
Definition MIN_SLIDER_WIDTH : Z := 200.
Definition MIN_SLIDER_HEIGHT : Z := 100.
Definition ANIMATION_DURATION : Q := 300.

(** ** Data *)

(** A page element handed to the constructor: its node identity and its
    rendered size. *)
Record elem : Type := mkElem {
  node : nat;
  offsetWidth : Z;
  offsetHeight : Z
}.

(** The closure constants of one slider. *)
Record layout : Type := mkLayout {
  HTMLElementArrayUsed : list elem;
  len : Z;
  mainContainerWidth : Z;
  mainContainerHeight : Z;
  offsetsLeft : list Q;
  offsetsTop : list Q
}.

(** One of [containerCurrent] / [containerNext]: its [style.left],
    [style.top] ([None] while unset) and its child nodes. *)
Record container : Type := mkContainer {
  cleft : option Q;
  ctop : option Q;
  children : list nat
}.

Record slider : Type := mkSlider {
  sl : layout;
  selectedSlide : Z;
  isAnimated : bool;
  rightToLeftFlag : bool;
  times : Z;
  mainAnimation : anim;
  carouselLeft : option Q;      (** [carousel.style.left], px *)
  nextSlideLeft : option Z;     (** [carouselNextElement.style.left], percent *)
  containerCurrent : container;
  containerNext : container;
  display : gmap nat bool;      (** [style.display] of item nodes: "block" is [true] *)
  selectedClass : list bool     (** bottom indicator [i] has class "selected" *)
}.

(** ** Field updates *)

Definition with_logic (sel : Z) (anim' : bool) (rtl : bool) (t : Z) (s : slider) : slider :=
  {| sl := sl s; selectedSlide := sel; isAnimated := anim'; rightToLeftFlag := rtl;
     times := t; mainAnimation := mainAnimation s; carouselLeft := carouselLeft s;
     nextSlideLeft := nextSlideLeft s; containerCurrent := containerCurrent s;
     containerNext := containerNext s; display := display s;
     selectedClass := selectedClass s |}.

Definition set_selectedSlide (i : Z) (s : slider) : slider :=
  with_logic i (isAnimated s) (rightToLeftFlag s) (times s) s.
Definition set_isAnimated (b : bool) (s : slider) : slider :=
  with_logic (selectedSlide s) b (rightToLeftFlag s) (times s) s.
Definition set_rightToLeftFlag (b : bool) (s : slider) : slider :=
  with_logic (selectedSlide s) (isAnimated s) b (times s) s.
Definition set_times (t : Z) (s : slider) : slider :=
  with_logic (selectedSlide s) (isAnimated s) (rightToLeftFlag s) t s.

Definition with_dom (cl : option Q) (nl : option Z) (cur nxt : container)
    (disp : gmap nat bool) (cls : list bool) (s : slider) : slider :=
  {| sl := sl s; selectedSlide := selectedSlide s; isAnimated := isAnimated s;
     rightToLeftFlag := rightToLeftFlag s; times := times s;
     mainAnimation := mainAnimation s; carouselLeft := cl; nextSlideLeft := nl;
     containerCurrent := cur; containerNext := nxt; display := disp;
     selectedClass := cls |}.

Definition set_mainAnimation (a : anim) (s : slider) : slider :=
  {| sl := sl s; selectedSlide := selectedSlide s; isAnimated := isAnimated s;
     rightToLeftFlag := rightToLeftFlag s; times := times s;
     mainAnimation := a; carouselLeft := carouselLeft s; nextSlideLeft := nextSlideLeft s;
     containerCurrent := containerCurrent s; containerNext := containerNext s;
     display := display s; selectedClass := selectedClass s |}.

Definition set_carouselLeft (x : Q) (s : slider) : slider :=
  with_dom (Some x) (nextSlideLeft s) (containerCurrent s) (containerNext s)
    (display s) (selectedClass s) s.

(** ** DOM primitives *)

(** [element[i]] on a JavaScript array; an index outside the array reads
    [undefined], which the slider never does: the invariant keeps every
    index it reads in range. *)
Definition js_at {A : Type} (l : list A) (i : Z) (dflt : A) : A :=
  nth (Z.to_nat i) l dflt.

(** [parent.removeChild(parent.firstChild)] guarded by
    [if (parent.firstChild)]. *)
Definition remove_first_child (c : list nat) : list nat := tail c.

(** [parent.appendChild(n)] moves [n]: it leaves its old parent (the
    other container, or this one) and becomes the last child. *)
Definition detach (n : nat) (c : list nat) : list nat := filter (fun m => m <> n) c.

(** ** Methods *)

Section Methods.
Variable L : layout.

(** [trunc(x) = (x + len) % len] (lines 43-45). *)
Definition trunc (x : Z) : Z := js_rem (x + len L) (len L).

Definition item_node (i : Z) : nat := node (js_at (HTMLElementArrayUsed L) i (mkElem 0 0 0)).
End Methods.

Definition rightToLeftMultiplier (s : slider) : Z :=
  if rightToLeftFlag s then 1 else -1.

Definition getNextSlideIndex (s : slider) : Z :=
  trunc (sl s) (selectedSlide s + rightToLeftMultiplier s).

(** [fillContainerCurrent(index)] (lines 113-121). *)
Definition fillContainerCurrent (index : Z) (s : slider) : slider :=
  let L := sl s in
  let n := item_node L index in
  let cur := containerCurrent s in
  let cur' := {| cleft := Some (js_at (offsetsLeft L) index 0%Q);
                 ctop := Some (js_at (offsetsTop L) index 0%Q);
                 children := detach n (remove_first_child (children cur)) ++ [n] |} in
  let nxt := containerNext s in
  let nxt' := {| cleft := cleft nxt; ctop := ctop nxt; children := detach n (children nxt) |} in
  with_dom (carouselLeft s) (nextSlideLeft s) cur' nxt' (<[n := true]> (display s))
    (selectedClass s) s.

(** [fillContainerNext(index)] (lines 122-131). *)
Definition fillContainerNext (index : Z) (s : slider) : slider :=
  let L := sl s in
  let n := item_node L index in
  let nxt := containerNext s in
  let nxt' := {| cleft := Some (js_at (offsetsLeft L) index 0%Q);
                 ctop := Some (js_at (offsetsTop L) index 0%Q);
                 children := detach n (remove_first_child (children nxt)) ++ [n] |} in
  let cur := containerCurrent s in
  let cur' := {| cleft := cleft cur; ctop := ctop cur; children := detach n (children cur) |} in
  with_dom (carouselLeft s) (Some (if rightToLeftFlag s then 100 else -100)) cur' nxt'
    (<[n := true]> (display s)) (selectedClass s) s.

(** [updateBottomIndicator(index)] (lines 99-102). *)
Definition updateBottomIndicator (index : Z) (s : slider) : slider :=
  let cls := <[Z.to_nat index := true]> (<[Z.to_nat (selectedSlide s) := false]> (selectedClass s)) in
  with_dom (carouselLeft s) (nextSlideLeft s) (containerCurrent s) (containerNext s)
    (display s) cls s.

(** [launchAnimation()] (lines 87-92); [run] is [this.mainAnimation.run]. *)
Definition launchAnimation (run : slider -> slider) (s : slider) : slider :=
  let nextSlideIndex := getNextSlideIndex s in
  let s1 := fillContainerNext nextSlideIndex s in
  run (set_selectedSlide nextSlideIndex s1).

(** [slideTo(index)] (lines 103-112). *)
Definition slideTo (run : slider -> slider) (index : Z) (s : slider) : slider :=
  let L := sl s in
  let s1 := set_isAnimated true s in
  let diff := index - selectedSlide s1 in
  let s2 := set_rightToLeftFlag
              (Qle_bool (inject_Z (trunc L diff)) (inject_Z (len L) / 2)) s1 in
  let s3 := updateBottomIndicator index s2 in
  let numAnimations := Z.min (trunc L diff) (trunc L (- diff)) in
  let s4 := set_mainAnimation
              (setDuration (ANIMATION_DURATION / inject_Z numAnimations) (mainAnimation s3)) s3 in
  let s5 := set_times numAnimations s4 in
  launchAnimation run s5.

(** [onClickAction(event, index)] (lines 93-98); [which] is [event.which]. *)
Definition onClickAction (run : slider -> slider) (which : Z) (index : Z) (s : slider) : slider :=
  if negb (which =? 1) || (selectedSlide s =? index) || isAnimated s then s
  else slideTo run index s.

(** The override of [mainAnimation.onUpdate] (line 133). *)
Definition slider_onUpdate (progress : Q) (s : slider) : slider :=
  set_carouselLeft
    (- inject_Z (rightToLeftMultiplier s) * progress * inject_Z (mainContainerWidth (sl s)))%Q s.

(** The override of [mainAnimation.onFinish] (lines 134-143). *)
Definition slider_onFinish (run : slider -> slider) (s : slider) : slider :=
  let s1 := set_carouselLeft 0 s in
  let s2 := fillContainerCurrent (selectedSlide s1) s1 in
  let s3 := set_times (times s2 - 1) s2 in
  if times s3 >? 0 then launchAnimation run s3
  else set_isAnimated false s3.

#[export] Instance slider_host : AnimHost slider := {
  host_anim := mainAnimation;
  host_set_anim := set_mainAnimation;
  onUpdate := slider_onUpdate;
  onFinish := slider_onFinish
}.

#[export] Instance slider_laws : AnimHostLaws slider.
Proof.
  split.
  - reflexivity.
  - intros []; reflexivity.
  - reflexivity.
  - reflexivity.
  - intros r1 r2 Hr w w' ->. unfold onFinish, slider_host, slider_onFinish, launchAnimation.
    cbv zeta. destruct (_ >? 0); [apply Hr|reflexivity].
Qed.

#[export] Instance slider_pure : PureUpdate slider.
Proof. intros p s. reflexivity. Qed.

(** ** Construction (lines 13-53, 69-80, 189-195) *)

(** The three type checks read [!x instanceof C], which parses as
    [(!x) instanceof C]: [!x] is a boolean primitive, an instance of no
    class, whatever [x] is. *)
Definition negated_instanceof (x : jsval) : bool := js_instanceof (js_not x) true.

Definition empty_container : container := {| cleft := None; ctop := None; children := [] |}.

(** The layout the constructor computes from the array it uses. *)
Definition make_layout (used : list elem) : layout :=
  let W := math_max2 MIN_SLIDER_WIDTH (math_max_apply (map offsetWidth used)) in
  let H := math_max2 MIN_SLIDER_HEIGHT (math_max_apply (map offsetHeight used)) in
  {| HTMLElementArrayUsed := used;
     len := Z.of_nat (length used);
     mainContainerWidth := W;
     mainContainerHeight := H;
     offsetsLeft := (fun x => (inject_Z (W - offsetWidth x) / 2)%Q) <$> used;
     offsetsTop := (fun x => (inject_Z (H - offsetHeight x) / 2)%Q) <$> used |}.

(** [HTMLElementArrayUsed.forEach(element => element.style.display = "none")]. *)
Definition hide_all (used : list elem) (disp : gmap nat bool) : gmap nat bool :=
  foldl (fun m e => <[node e := false]> m) disp used.

(** Lines 192-195: fill the current container with the first item,
    select the first indicator and return the slider. *)
Definition initial_fill (s0 : slider) : slider :=
  updateBottomIndicator 0 (fillContainerCurrent 0 s0).

(** Lines 41-53, 69-143 and 189-195 on the kept elements [used]: the
    closure constants, the slider object, the hidden items and the
    first fill. *)
Definition make_slider (used : list elem) : slider :=
  let L := make_layout used in
  let s0 := {| sl := L; selectedSlide := 0; isAnimated := false;
               rightToLeftFlag := true; times := 0;
               mainAnimation := Animation (Some ANIMATION_DURATION);
               carouselLeft := None; nextSlideLeft := None;
               containerCurrent := empty_container; containerNext := empty_container;
               display := hide_all used ∅;
               selectedClass := replicate (length used) false |} in
  initial_fill s0.

(** Lines 13-53, 69-143 and 189-195 on an array of elements inserted
    into an element: the checks (each argument an object of its class),
    the slice of line 41 and the slider object.  The document work of
    lines 55-67 and 145-187, and the call on arbitrary page values, are
    in SliderDom. *)
Definition createSliderFromHTMLElementArray (HTMLElementArray : list elem) : option slider :=
  if negated_instanceof JObj || (length HTMLElementArray =? 0)%nat then None
  else if negated_instanceof JObj then None
  else if existsb (fun _ => negated_instanceof JObj) HTMLElementArray then None
  else Some (make_slider (firstn MAX_CAROUSEL_LENGTH HTMLElementArray)).

(** ** Page events *)

(** The listeners of lines 146-156: a click on bottom indicator [j], on
    the left or the right scroller (with [event.which]), and a frame in
    which the browser calls the pending [animate]. *)
Inductive event : Type :=
| IndicatorClick (j : Z) (which : Z)
| LeftScrollerClick (which : Z)
| RightScrollerClick (which : Z)
| AnimationFrame.

(** The effect of one event at instant [now]; [None] when the event
    cannot happen (no such indicator, no pending frame). *)
Definition handle (now : Z) (e : event) (s : slider) : option slider :=
  let run := Anim.run anim_fuel now in
  match e with
  | IndicatorClick j which =>
      if (0 <=? j) && (j <? len (sl s)) then Some (onClickAction run which j s) else None
  | LeftScrollerClick which =>
      Some (onClickAction run which (trunc (sl s) (selectedSlide s - 1)) s)
  | RightScrollerClick which =>
      Some (onClickAction run which (trunc (sl s) (selectedSlide s + 1)) s)
  | AnimationFrame => frame anim_fuel now s
  end.

(** States reached from a constructed slider by events at
    non-decreasing instants; [t] is the instant of the last event. *)
Inductive reachable : Z -> slider -> Prop :=
| reach_init (arr : list elem) (s : slider) (t : Z) :
    createSliderFromHTMLElementArray arr = Some s -> reachable t s
| reach_step (t t' : Z) (e : event) (s s' : slider) :
    reachable t s -> t <= t' -> handle t' e s = Some s' -> reachable t' s'.

(** Frames [D] ms apart, the first [D] ms after [t]. *)
Fixpoint ticks (t D : Z) (r : nat) : list Z :=
  match r with
  | O => []
  | S r' => (t + D) :: ticks (t + D) D r'
  end.

(** ** Sample pages *)

(** [n] distinct elements, of growing widths. *)
Definition demo_items (n : nat) : list elem :=
  map (fun i => mkElem i (100 + 10 * Z.of_nat i) 50) (seq 0 n).

Definition no_slider : slider :=
  mkSlider (make_layout []) 0 false true 0 (Animation None) None None
    empty_container empty_container ∅ [].

Definition demo4 : slider :=
  Eval vm_compute in default no_slider (createSliderFromHTMLElementArray (demo_items 4)).

Definition demo1 : slider :=
  Eval vm_compute in default no_slider (createSliderFromHTMLElementArray (demo_items 1)).

Definition demo2 : slider :=
  Eval vm_compute in default no_slider (createSliderFromHTMLElementArray (demo_items 2)).

Definition demo10 : slider :=
  Eval vm_compute in default no_slider (createSliderFromHTMLElementArray (demo_items 10)).

(** [demo4] after a click on its third indicator at 0. *)
Definition demo4_sliding : slider :=
  Eval vm_compute in default no_slider (handle 0 (IndicatorClick 2 1) demo4).

(** The events [evs] one after the other; after each, the selected slide
    and whether the slider is locked. *)
Fixpoint trace (evs : list (Z * event)) (s : slider) : option (list (Z * bool)) :=
  match evs with
  | [] => Some []
  | (t, e) :: evs' =>
      match handle t e s with
      | None => None
      | Some s' => match trace evs' s' with
                   | None => None
                   | Some l => Some ((selectedSlide s', isAnimated s') :: l)
                   end
      end
  end.

(** ** The invariant *)

(** The indicator list with exactly [i] selected. *)
Definition onehot (n : nat) (i : Z) : list bool :=
  (fun k => Z.of_nat k =? i) <$> seq 0 n.

(** Where the running transition ends: [times - 1] further steps in the
    current direction. *)
Definition target (s : slider) : Z :=
  if isAnimated s
  then (selectedSlide s + rightToLeftMultiplier s * (times s - 1)) mod len (sl s)
  else selectedSlide s.

(** [k] single steps in direction [m] from slide [sel], each to
    [trunc(sel + m)] as [getNextSlideIndex] computes it. *)
Fixpoint walk (L : layout) (m : Z) (k : nat) (sel : Z) : Z :=
  match k with
  | O => sel
  | S k' => walk L m k' (trunc L (sel + m))
  end.

(** The plan the header comment promises (line 6), found by search: the
    fewest single steps after which a walk forward or backward lands on
    [index], forward when both directions need as many. *)
Definition shortest_walk (L : layout) (sel index : Z) : option (nat * Z) :=
  (fun '(_, k) => (k, if decide (walk L 1 k sel = index) then 1 else -1)) <$>
    list_find (fun k => walk L 1 k sel = index \/ walk L (-1) k sel = index)
      (seq 0 (Z.to_nat (len L))).

Definition wf_layout (L : layout) : Prop :=
  1 <= len L <= 10 /\
  len L = Z.of_nat (length (HTMLElementArrayUsed L)) /\
  0 <= mainContainerWidth L.

(** The elements handed to the constructor are distinct nodes. *)
Definition distinct_items (L : layout) : Prop := NoDup (map node (HTMLElementArrayUsed L)).

(** The carousel offset [onUpdate] writes for the current progress. *)
Definition carousel_offset (s : slider) : Q :=
  (- inject_Z (rightToLeftMultiplier s) * reported (mainAnimation s) *
   inject_Z (mainContainerWidth (sl s)))%Q.

(** The animation state [run] leaves: clock at [now], progress [0],
    one frame requested. *)
Definition ran (now : Z) (a : anim) : anim :=
  request_frame (tick now (set_progress 0 (run_prologue now a))).

(** The animation state at the end of a step: the one [animate] finished
    with, progress clamped to 1. *)
Definition finished_ok (a a0 : anim) : Prop :=
  frames a0 = 0%nat /\ clock a0 = clock a /\ cancelled a0 = cancelled a /\
  cycled a0 = false /\ reverseFlag a0 = reverseFlag a.

Definition slider_inv (t : Z) (s : slider) : Prop :=
  let L := sl s in
  let a := mainAnimation s in
  wf_layout L /\
  0 <= selectedSlide s < len L /\
  paused a = false /\ cancelled a = false /\ cycled a = false /\ reverseFlag a = false /\
  selectedClass s = onehot (Z.to_nat (len L)) (target s) /\
  if isAnimated s then
    2 <= len L /\ 1 <= times s <= len L /\ frames a = 1%nat /\ (0 < duration a)%Q /\
    start a <= t /\ (0 <= progress a < 1)%Q /\
    (exists x, carouselLeft s = Some x /\ (x == carousel_offset s)%Q) /\
    children (containerCurrent s) =
      [item_node L (trunc L (selectedSlide s - rightToLeftMultiplier s))] /\
    children (containerNext s) = [item_node L (selectedSlide s)]
  else
    times s = 0 /\ frames a = 0%nat /\
    (forall x, carouselLeft s = Some x -> (x == 0)%Q) /\
    children (containerCurrent s) = [item_node L (selectedSlide s)] /\
    children (containerNext s) = [].

(** ** Index arithmetic *)

(** [trunc] is the modulus on every argument it is given. *)
Lemma trunc_mod (L : layout) (x : Z) : 0 < len L -> - len L <= x -> trunc L x = x mod len L.
Proof.
  intros Hn Hx. unfold trunc. rewrite js_rem_mod by lia.
  replace (x + len L) with (x + 1 * len L) by lia. apply Z_mod_plus_full.
Qed.

(** [trunc(diff) <= len / 2], computed over rationals in the source. *)
Lemma half_le_bool (a n : Z) : Qle_bool (inject_Z a) (inject_Z n / 2) = (2 * a <=? n).
Proof.
  apply eq_true_iff_eq. rewrite Qle_bool_iff, Z.leb_le, Zle_Qle, inject_Z_mult.
  change (inject_Z 2) with 2%Q. unfold Qdiv. change (/ 2)%Q with (1#2)%Q.
  split; intros; lra.
Qed.

(** The plan of [slideTo]: the chosen direction reaches [j] in
    [min(fwd, bwd)] steps, at most half the carousel. *)
Lemma slide_plan (n sel j : Z) :
  0 <= sel < n -> 0 <= j < n -> sel <> j ->
  let fwd := (j - sel) mod n in
  let bwd := (sel - j) mod n in
  let m := if 2 * fwd <=? n then 1 else -1 in
  let k := Z.min fwd bwd in
  1 <= k /\ 2 * k <= n /\ (sel + m * k) mod n = j.
Proof.
  intros Hs Hj Hne. cbv zeta.
  assert (Hfb : (sel < j /\ (j - sel) mod n = j - sel /\ (sel - j) mod n = sel - j + n) \/
                (j < sel /\ (j - sel) mod n = j - sel + n /\ (sel - j) mod n = sel - j)).
  { destruct (Z_lt_le_dec sel j); [left|right]; split_and!; solve_mod || lia. }
  destruct Hfb as [(? & -> & ->)|(? & -> & ->)]; case_if;
    (split; [lia|split; [lia|solve_mod]]).
Qed.

(** ** The indicator list *)

Lemma length_onehot (n : nat) (i : Z) : length (onehot n i) = n.
Proof. unfold onehot. rewrite length_fmap. apply length_seq. Qed.

Lemma onehot_lookup (n : nat) (i : Z) (k : nat) :
  onehot n i !! k = if decide (k < n)%nat then Some (Z.of_nat k =? i) else None.
Proof.
  unfold onehot. rewrite list_lookup_fmap.
  case_decide; [rewrite lookup_seq_lt by lia | rewrite lookup_seq_ge by lia]; reflexivity.
Qed.

(** [updateBottomIndicator] moves the single selected indicator. *)
Lemma onehot_move (n : nat) (i j : Z) :
  0 <= i < Z.of_nat n -> 0 <= j < Z.of_nat n ->
  <[Z.to_nat j := true]> (<[Z.to_nat i := false]> (onehot n i)) = onehot n j.
Proof.
  intros Hi Hj. apply list_eq. intros k.
  rewrite !list_lookup_insert, length_insert, length_onehot, !onehot_lookup.
  repeat case_decide; f_equal; lia.
Qed.

Lemma onehot_init (n : nat) :
  (1 <= n)%nat -> <[0%nat := true]> (<[0%nat := false]> (replicate n false)) = onehot n 0.
Proof.
  intros Hn. apply list_eq. intros k.
  rewrite !list_lookup_insert, length_insert, length_replicate, onehot_lookup.
  repeat case_decide; try (f_equal; lia).
  - rewrite lookup_replicate_2 by lia. f_equal. lia.
  - apply lookup_replicate_None. lia.
Qed.

(** ** Construction establishes the invariant *)

Lemma existsb_const_false {A : Type} (l : list A) : existsb (fun _ => false) l = false.
Proof. induction l; auto. Qed.

Lemma existsb_false {A : Type} (f : A -> bool) (l : list A) :
  (forall x, f x = false) -> existsb f l = false.
Proof. intros Hf. induction l as [|x l IH]; [reflexivity|]. cbn. rewrite Hf, IH. reflexivity. Qed.

(** [!x instanceof C] is [false] on every value. *)
Lemma negated_instanceof_false (x : jsval) : negated_instanceof x = false.
Proof. reflexivity. Qed.

Lemma create_make (es : list elem) (s : slider) :
  createSliderFromHTMLElementArray es = Some s -> s = make_slider (firstn MAX_CAROUSEL_LENGTH es).
Proof.
  unfold createSliderFromHTMLElementArray. rewrite !negated_instanceof_false, existsb_false by reflexivity.
  destruct (length es =? 0)%nat; [discriminate|]. intros H%some_eq. symmetry. exact H.
Qed.

Lemma create_spec (arr : list elem) (s : slider) :
  createSliderFromHTMLElementArray arr = Some s ->
  arr <> [] /\
  s = updateBottomIndicator 0 (fillContainerCurrent 0
        {| sl := make_layout (firstn MAX_CAROUSEL_LENGTH arr); selectedSlide := 0;
           isAnimated := false; rightToLeftFlag := true; times := 0;
           mainAnimation := Animation (Some ANIMATION_DURATION);
           carouselLeft := None; nextSlideLeft := None;
           containerCurrent := empty_container; containerNext := empty_container;
           display := hide_all (firstn MAX_CAROUSEL_LENGTH arr) ∅;
           selectedClass := replicate (length (firstn MAX_CAROUSEL_LENGTH arr)) false |}).
Proof.
  unfold createSliderFromHTMLElementArray. cbn [negated_instanceof js_not js_instanceof orb].
  rewrite existsb_const_false. destruct (length arr =? 0)%nat eqn:E; [discriminate|].
  intros H%some_eq. subst. split; [|reflexivity].
  intros ->. discriminate.
Qed.

Lemma inv_init (arr : list elem) (s : slider) (t : Z) :
  createSliderFromHTMLElementArray arr = Some s -> slider_inv t s.
Proof.
  intros H. apply create_spec in H as [Hne ->].
  set (used := firstn MAX_CAROUSEL_LENGTH arr).
  assert (Hlen : (1 <= length used <= 10)%nat).
  { unfold used, MAX_CAROUSEL_LENGTH. rewrite length_firstn. destruct arr; [congruence|]. cbn [length]. lia. }
  unfold slider_inv, wf_layout. cbn -[onehot used].
  split_and!; try reflexivity; try lia.
  - apply Z.le_trans with MIN_SLIDER_WIDTH; [discriminate|apply math_max2_ge_l].
  - rewrite Nat2Z.id. apply onehot_init. lia.
  - discriminate.
Qed.

(** ** Helpers for the invariant *)

Lemma inv_mono (t t' : Z) (s : slider) : slider_inv t s -> t <= t' -> slider_inv t' s.
Proof.
  unfold slider_inv. intros H Ht. destruct (isAnimated s); [|exact H].
  destruct_and! H. split_and!; try assumption. lia.
Qed.

Lemma item_node_inj (L : layout) (i j : Z) :
  distinct_items L -> wf_layout L -> 0 <= i < len L -> 0 <= j < len L ->
  item_node L i = item_node L j -> i = j.
Proof.
  intros Hd (_ & Hlen & _) Hi Hj Heq. unfold item_node, js_at in Heq.
  rewrite <- !(map_nth node) in Heq.
  apply NoDup_ListNoDup in Hd.
  assert (Z.to_nat i = Z.to_nat j); [|lia].
  eapply (proj1 (NoDup_nth _ _) Hd); [..|exact Heq]; rewrite length_map; lia.
Qed.

(** One step from [sel] in direction [m] stays in range, moves, and
    [trunc(next - m)] gives [sel] back. *)
Lemma step_index (L : layout) (sel m : Z) :
  2 <= len L -> 0 <= sel < len L -> m = 1 \/ m = -1 ->
  0 <= trunc L (sel + m) < len L /\ trunc L (sel + m) <> sel /\
  trunc L (trunc L (sel + m) - m) = sel.
Proof.
  intros Hn Hs Hm.
  assert (Hx : trunc L (sel + m) = (sel + m) mod len L) by (apply trunc_mod; lia).
  rewrite Hx.
  assert (Hr : 0 <= (sel + m) mod len L < len L) by (apply Z.mod_pos_bound; lia).
  split; [exact Hr|]. split.
  - intros Heq. destruct Hm as [-> | ->];
      [destruct (Z.eq_dec sel (len L - 1)) | destruct (Z.eq_dec sel 0)];
      [ assert ((sel + 1) mod len L = 0) by solve_mod
      | assert ((sel + 1) mod len L = sel + 1) by solve_mod
      | assert ((sel + -1) mod len L = len L - 1) by solve_mod
      | assert ((sel + -1) mod len L = sel + -1) by solve_mod ]; lia.
  - rewrite trunc_mod by lia. rewrite Zminus_mod_idemp_l.
    replace (sel + m - m) with sel by lia. apply Z.mod_small. exact Hs.
Qed.

(** The end of the transition does not move when a step is taken. *)
Lemma target_advance (L : layout) (sel m tm : Z) :
  0 < len L -> - len L <= sel + m ->
  (trunc L (sel + m) + m * (tm - 1 - 1)) mod len L = (sel + m * (tm - 1)) mod len L.
Proof.
  intros Hn Hx. rewrite trunc_mod, Zplus_mod_idemp_l by lia. f_equal. lia.
Qed.

Lemma detach_other (n m : nat) : m <> n -> detach n [m] = [m].
Proof. intros H. unfold detach. rewrite filter_cons_True by exact H. reflexivity. Qed.

Lemma detach_self (n : nat) : detach n [n] = [].
Proof. unfold detach. rewrite filter_cons_False by (intros H; exact (H eq_refl)). reflexivity. Qed.

(** [ran] reads only the duration, the direction, the cycle flag and the
    pending frames of the animation it restarts. *)
Lemma ran_fields (now : Z) (a b : anim) :
  duration a = duration b -> reverseFlag a = reverseFlag b -> cycled a = cycled b ->
  frames a = frames b -> ran now a = ran now b.
Proof. destruct a, b; cbn. intros -> -> -> ->. reflexivity. Qed.

(** ** What [run] does to a slider *)

Lemma slider_run (f : nat) (now : Z) (s : slider) :
  run (S f) now s =
  let s' := set_mainAnimation (ran now (mainAnimation s)) s in
  set_carouselLeft (carousel_offset s') s'.
Proof.
  rewrite run_S_settles, run_S. unfold animate_step.
  rewrite fresh_tick_no_finish by reflexivity. reflexivity.
Qed.

(** ** The slider after each handler *)

(** [slideTo(j)]: the record it leaves, with [run] expanded. *)
Lemma slideTo_result (f : nat) (now j : Z) (s : slider) :
  let L := sl s in
  let sel := selectedSlide s in
  let rtl := Qle_bool (inject_Z (trunc L (j - sel))) (inject_Z (len L) / 2) in
  let k := Z.min (trunc L (j - sel)) (trunc L (- (j - sel))) in
  let n' := trunc L (sel + (if rtl then 1 else -1)) in
  let nn := item_node L n' in
  let s' := {| sl := L; selectedSlide := n'; isAnimated := true; rightToLeftFlag := rtl;
               times := k;
               mainAnimation := ran now (setDuration (ANIMATION_DURATION / inject_Z k)
                                                    (mainAnimation s));
               carouselLeft := carouselLeft s;
               nextSlideLeft := Some (if rtl then 100 else -100);
               containerCurrent := {| cleft := cleft (containerCurrent s);
                                      ctop := ctop (containerCurrent s);
                                      children := detach nn (children (containerCurrent s)) |};
               containerNext := {| cleft := Some (js_at (offsetsLeft L) n' 0%Q);
                                   ctop := Some (js_at (offsetsTop L) n' 0%Q);
                                   children := detach nn (remove_first_child
                                                 (children (containerNext s))) ++ [nn] |};
               display := <[nn := true]> (display s);
               selectedClass := <[Z.to_nat j := true]>
                                  (<[Z.to_nat sel := false]> (selectedClass s)) |} in
  slideTo (run (S f) now) j s = set_carouselLeft (carousel_offset s') s'.
Proof. intros. unfold slideTo, launchAnimation. rewrite slider_run. reflexivity. Qed.

Lemma inv_slideTo (t now j : Z) (s : slider) :
  slider_inv t s -> distinct_items (sl s) -> isAnimated s = false ->
  0 <= j < len (sl s) -> j <> selectedSlide s -> t <= now ->
  slider_inv now (slideTo (run anim_fuel now) j s).
Proof.
  intros Hinv Hd Hidle Hj Hne Ht.
  unfold slider_inv in Hinv. rewrite Hidle in Hinv.
  destruct Hinv as (Hwf & Hsel & Hpa & Hca & Hcy & Hrf & Hcls & Htimes & Hfr & Hcar & Hcur & Hnext).
  pose proof Hwf as (Hn & Hlen & HW).
  change anim_fuel with (S 1). rewrite slideTo_result. cbv zeta.
  unfold set_carouselLeft, with_dom, slider_inv, rightToLeftMultiplier.
  cbn -[trunc item_node onehot carousel_offset target].
  rewrite (trunc_mod (sl s) (j - selectedSlide s)) by lia.
  rewrite (trunc_mod (sl s) (- (j - selectedSlide s))) by lia.
  replace (- (j - selectedSlide s)) with (selectedSlide s - j) by lia.
  rewrite half_le_bool, Z.sub_diag.
  destruct (slide_plan (len (sl s)) (selectedSlide s) j) as (Hk1 & Hk2 & Hland); try lia.
  set (k := Z.min _ _) in *.
  set (m := if 2 * ((j - selectedSlide s) mod len (sl s)) <=? len (sl s) then 1 else -1) in *.
  assert (Hm : m = 1 \/ m = -1) by (unfold m; destruct (_ <=? _); auto).
  destruct (step_index (sl s) (selectedSlide s) m) as (Hr & Hneq & Hback); try lia.
  set (n' := trunc (sl s) (selectedSlide s + m)) in *.
  assert (Hnode : item_node (sl s) (selectedSlide s) <> item_node (sl s) n')
    by (intros Heq; apply item_node_inj in Heq; auto; lia).
  split_and!; try assumption; try reflexivity; try lia.
  1: { rewrite Hcls. unfold target. rewrite Hidle, onehot_move by lia. f_equal.
        unfold rightToLeftMultiplier. cbn -[trunc]. fold m. unfold n'.
        rewrite trunc_mod, Zplus_mod_idemp_l by lia.
        replace (selectedSlide s + m + m * (k - 1)) with (selectedSlide s + m * k) by lia.
        symmetry. exact Hland. }
  all: first
    [ rewrite Hfr; reflexivity
    | apply Qdiv_pos_Z; [reflexivity|lia]
    | apply fresh_progress
    | eexists; split; reflexivity
    | rewrite Hcur, detach_other by exact Hnode; do 2 f_equal; symmetry; exact Hback
    | rewrite Hnext; reflexivity ].
Qed.

(** A frame that does not reach the end: the carousel follows progress. *)
Lemma frame_unfinished_result (f : nat) (now : Z) (s : slider) :
  frames (mainAnimation s) = 1%nat -> paused (mainAnimation s) = false ->
  cancelled (mainAnimation s) = false ->
  Qle_bool 1 (progress (tick now (mainAnimation s))) = false ->
  frame f now s =
    Some (let s' := set_mainAnimation (tick now (mainAnimation s)) s in
          set_carouselLeft (carousel_offset s') s').
Proof.
  destruct s as [L sel an rtl tm [st d p pa c r cy fr] cl nl cur nxt disp cls].
  cbn [mainAnimation frames paused cancelled]. intros -> -> -> Hq.
  unfold frame, animate_step. cbn [host_anim host_set_anim slider_host take_frame
    mainAnimation set_mainAnimation frames paused tick progress start duration].
  cbn [progress tick start duration] in Hq. rewrite Hq. reflexivity.
Qed.

(** A frame that reaches the end hands the slider, progress at 1, to
    [onFinish]. *)
Lemma frame_finished_result (f : nat) (now : Z) (s : slider) :
  frames (mainAnimation s) = 1%nat -> paused (mainAnimation s) = false ->
  cycled (mainAnimation s) = false ->
  Qle_bool 1 (progress (tick now (mainAnimation s))) = true ->
  exists a0, frames a0 = 0%nat /\ clock a0 = clock (mainAnimation s) /\
    cancelled a0 = cancelled (mainAnimation s) /\ cycled a0 = false /\
    reverseFlag a0 = reverseFlag (mainAnimation s) /\
    frame (S f) now s =
      Some (slider_onFinish (run (S f) now)
              (set_mainAnimation (set_progress 1 (tick now a0)) s)).
Proof.
  destruct s as [L sel an rtl tm [st d p pa c r cy fr] cl nl cur nxt disp cls].
  cbn [mainAnimation frames paused cycled]. intros -> -> -> Hq.
  exists {| start := st; duration := d; progress := p; paused := false; cancelled := c;
            reverseFlag := r; cycled := false; frames := 0 |}.
  split_and!; [reflexivity..|].
  unfold frame, animate_step. cbn [host_anim host_set_anim slider_host take_frame
    mainAnimation set_mainAnimation frames paused tick progress start duration].
  cbn [progress tick start duration] in Hq. rewrite Hq. cbn [onFinish slider_host].
  unfold slider_onFinish. cbv zeta. destruct (_ >? 0).
  - unfold launchAnimation. rewrite !slider_run. reflexivity.
  - reflexivity.
Qed.

(** [onFinish] on the last step: containers swapped, lock released. *)
Lemma onFinish_last_result (r : slider -> slider) (s : slider) :
  times s - 1 <= 0 ->
  slider_onFinish r s =
    let L := sl s in
    let sel := selectedSlide s in
    let n := item_node L sel in
    {| sl := L; selectedSlide := sel; isAnimated := false;
       rightToLeftFlag := rightToLeftFlag s; times := times s - 1;
       mainAnimation := mainAnimation s; carouselLeft := Some 0%Q;
       nextSlideLeft := nextSlideLeft s;
       containerCurrent := {| cleft := Some (js_at (offsetsLeft L) sel 0%Q);
                              ctop := Some (js_at (offsetsTop L) sel 0%Q);
                              children := detach n (remove_first_child
                                            (children (containerCurrent s))) ++ [n] |};
       containerNext := {| cleft := cleft (containerNext s); ctop := ctop (containerNext s);
                           children := detach n (children (containerNext s)) |};
       display := <[n := true]> (display s);
       selectedClass := selectedClass s |}.
Proof.
  intros Ht. destruct s as [L sel an rtl tm a cl nl cur nxt disp cls]. cbn in Ht.
  unfold slider_onFinish. cbv zeta. cbn [times set_times with_logic fillContainerCurrent
    with_dom set_carouselLeft selectedSlide sl].
  replace (tm - 1 >? 0) with false by lia. reflexivity.
Qed.

(** [onFinish] with steps left: containers swapped and the next step
    launched through [run]. *)
Lemma onFinish_more_result (f : nat) (now : Z) (s : slider) :
  times s - 1 > 0 ->
  slider_onFinish (run (S f) now) s =
    let L := sl s in
    let sel := selectedSlide s in
    let n := item_node L sel in
    let n' := trunc L (sel + rightToLeftMultiplier s) in
    let nn := item_node L n' in
    let s' :=
      {| sl := L; selectedSlide := n'; isAnimated := isAnimated s;
         rightToLeftFlag := rightToLeftFlag s; times := times s - 1;
         mainAnimation := ran now (mainAnimation s); carouselLeft := Some 0%Q;
         nextSlideLeft := Some (if rightToLeftFlag s then 100 else -100);
         containerCurrent :=
           {| cleft := Some (js_at (offsetsLeft L) sel 0%Q);
              ctop := Some (js_at (offsetsTop L) sel 0%Q);
              children := detach nn (detach n (remove_first_child
                                       (children (containerCurrent s))) ++ [n]) |};
         containerNext :=
           {| cleft := Some (js_at (offsetsLeft L) n' 0%Q);
              ctop := Some (js_at (offsetsTop L) n' 0%Q);
              children := detach nn (remove_first_child
                                       (detach n (children (containerNext s)))) ++ [nn] |};
         display := <[nn := true]> (<[n := true]> (display s));
         selectedClass := selectedClass s |} in
    set_carouselLeft (carousel_offset s') s'.
Proof.
  intros Ht. destruct s as [L sel an rtl tm a cl nl cur nxt disp cls]. cbn in Ht.
  unfold slider_onFinish. cbv zeta. cbn [times set_times with_logic fillContainerCurrent
    with_dom set_carouselLeft selectedSlide sl].
  replace (tm - 1 >? 0) with true by lia. unfold launchAnimation. rewrite slider_run.
  reflexivity.
Qed.

(** ** Each handler preserves the invariant *)

Lemma inv_frame_unfinished (t now : Z) (s : slider) :
  slider_inv t s -> isAnimated s = true -> t <= now ->
  Qle_bool 1 (progress (tick now (mainAnimation s))) = false ->
  slider_inv now (let s' := set_mainAnimation (tick now (mainAnimation s)) s in
                  set_carouselLeft (carousel_offset s') s').
Proof.
  intros Hinv Han Ht Hq. unfold slider_inv in Hinv. rewrite Han in Hinv.
  destruct Hinv as (Hwf & Hsel & Hpa & Hca & Hcy & Hrf & Hcls & Hn2 & Htm & Hfr & Hd & Hst
                    & Hpr & Hcar & Hcur & Hnext).
  apply Qle_bool_false in Hq. cbn [tick progress] in Hq.
  assert (start (mainAnimation s) <= now) by lia.
  assert (0 <= inject_Z (now - start (mainAnimation s)) / duration (mainAnimation s))%Q
    by auto with jsdb.
  unfold slider_inv, set_carouselLeft, with_dom, set_mainAnimation, target.
  cbn -[trunc item_node onehot carousel_offset].
  rewrite Han. unfold target in Hcls. rewrite Han in Hcls.
  split_and!; try assumption; try lia; try lra.
  eexists. split; reflexivity.
Qed.

Lemma inv_onFinish_last (t now : Z) (r : slider -> slider) (s : slider) (a0 : anim) :
  slider_inv t s -> isAnimated s = true -> times s = 1 -> t <= now ->
  finished_ok (mainAnimation s) a0 ->
  slider_inv now (slider_onFinish r (set_mainAnimation (set_progress 1 (tick now a0)) s)).
Proof.
  intros Hinv Han Htm1 Ht (Hf0 & Hcl & Hc0 & Hcy0 & Hr0).
  unfold slider_inv in Hinv. rewrite Han in Hinv.
  destruct Hinv as (Hwf & Hsel & Hpa & Hca & Hcy & Hrf & Hcls & Hn2 & Htm & Hfr & Hd & Hst
                    & Hpr & Hcar & Hcur & Hnext).
  unfold clock in Hcl. injection Hcl as Hs0 Hd0 Hp0 Hpa0.
  rewrite onFinish_last_result by (cbn; lia). cbv zeta.
  unfold slider_inv, target. cbn -[trunc item_node onehot].
  unfold target in Hcls. rewrite Han, Htm1 in Hcls.
  replace (selectedSlide s + rightToLeftMultiplier s * (1 - 1)) with (selectedSlide s)
    in Hcls by lia.
  rewrite Z.mod_small in Hcls by lia.
  split_and!; try assumption; try congruence; try lia.
  - rewrite Hcur. reflexivity.
  - rewrite Hnext. apply detach_self.
Qed.

Lemma inv_onFinish_more (t now : Z) (f : nat) (s : slider) (a0 : anim) :
  slider_inv t s -> distinct_items (sl s) -> isAnimated s = true -> 2 <= times s ->
  t <= now -> finished_ok (mainAnimation s) a0 ->
  slider_inv now (slider_onFinish (run (S f) now)
                    (set_mainAnimation (set_progress 1 (tick now a0)) s)).
Proof.
  intros Hinv Hdist Han Htm2 Ht (Hf0 & Hcl & Hc0 & Hcy0 & Hr0).
  unfold slider_inv in Hinv. rewrite Han in Hinv.
  destruct Hinv as (Hwf & Hsel & Hpa & Hca & Hcy & Hrf & Hcls & Hn2 & Htm & Hfr & Hd & Hst
                    & Hpr & Hcar & Hcur & Hnext).
  unfold clock in Hcl. injection Hcl as Hs0 Hd0 Hp0 Hpa0.
  rewrite onFinish_more_result by (cbn; lia). cbv zeta.
  unfold set_carouselLeft, with_dom, slider_inv, target, rightToLeftMultiplier.
  cbn -[trunc item_node onehot carousel_offset].
  unfold target, rightToLeftMultiplier in Hcls. rewrite Han in Hcls. rewrite Han, Z.sub_diag.
  unfold rightToLeftMultiplier in Hcur.
  set (m := if rightToLeftFlag s then 1 else -1) in *.
  assert (Hm : m = 1 \/ m = -1) by (unfold m; destruct (rightToLeftFlag s); auto).
  destruct (step_index (sl s) (selectedSlide s) m) as (Hr & Hneq & Hback); try lia.
  set (n' := trunc (sl s) (selectedSlide s + m)) in *.
  assert (Hnode : item_node (sl s) (selectedSlide s) <> item_node (sl s) n')
    by (intros Heq; apply item_node_inj in Heq; auto; lia).
  rewrite <- Hd0 in Hd.
  split_and!; try assumption; try congruence; try lia.
  1: { rewrite Hcls. f_equal. symmetry. apply target_advance; lia. }
  all: first
    [ apply fresh_progress
    | eexists; split; reflexivity
    | rewrite Hcur; cbn [remove_first_child tail]; unfold detach at 2; rewrite filter_nil;
      cbn [app]; rewrite detach_other by exact Hnode; do 2 f_equal; symmetry; exact Hback
    | rewrite Hnext, detach_self; reflexivity ].
Qed.

(** ** The layout never changes *)

Lemma sl_run (f : nat) (now : Z) (w : slider) : sl (run (S f) now w) = sl w.
Proof. rewrite slider_run. reflexivity. Qed.

Lemma sl_onFinish (r : slider -> slider) (w : slider) :
  (forall x, sl (r x) = sl x) -> sl (slider_onFinish r w) = sl w.
Proof.
  intros Hr. unfold slider_onFinish, launchAnimation. cbv zeta.
  destruct (_ >? 0); [rewrite Hr|]; reflexivity.
Qed.

Lemma sl_handle (now : Z) (e : event) (s s' : slider) :
  handle now e s = Some s' -> sl s' = sl s.
Proof.
  assert (Hc : forall which j, sl (onClickAction (run anim_fuel now) which j s) = sl s).
  { intros which j. unfold onClickAction.
    destruct (negb (which =? 1) || (selectedSlide s =? j) || isAnimated s); [reflexivity|].
    change anim_fuel with (S 1). rewrite slideTo_result. reflexivity. }
  destruct e as [j which|which|which|]; unfold handle; cbv zeta.
  - destruct ((0 <=? j) && (j <? len (sl s))); [|discriminate].
    intros H%some_eq. subst. apply Hc.
  - intros H%some_eq. subst. apply Hc.
  - intros H%some_eq. subst. apply Hc.
  - unfold frame. destruct (take_frame (host_anim s)) as [a0|]; [|discriminate].
    intros H%some_eq. subst. unfold animate_step.
    cbn [host_anim host_set_anim slider_host map_anim onUpdate onFinish mainAnimation
         set_mainAnimation].
    destruct (paused a0); [reflexivity|].
    destruct (Qle_bool 1 (progress (tick now a0))); [|reflexivity].
    change anim_fuel with (S 1).
    set (w1 := slider_onFinish _ _).
    assert (Hw1 : sl w1 = sl s) by (unfold w1; rewrite sl_onFinish by apply sl_run; reflexivity).
    destruct (cycled (mainAnimation w1)); [rewrite sl_run|]; exact Hw1.
Qed.

(** ** Clicks *)

(** A left-button click on another index of an idle slider slides. *)
Lemma onClickAction_go (run : slider -> slider) (j : Z) (s : slider) :
  isAnimated s = false -> selectedSlide s <> j -> onClickAction run 1 j s = slideTo run j s.
Proof.
  intros Han Hne. unfold onClickAction. rewrite Han.
  destruct (Z.eqb_spec (selectedSlide s) j); [contradiction|reflexivity].
Qed.

Lemma inv_click (t now which j : Z) (s : slider) :
  slider_inv t s -> distinct_items (sl s) -> t <= now -> 0 <= j < len (sl s) ->
  slider_inv now (onClickAction (run anim_fuel now) which j s).
Proof.
  intros Hinv Hd Ht Hj. unfold onClickAction.
  destruct (negb (which =? 1) || (selectedSlide s =? j) || isAnimated s) eqn:E.
  - eapply inv_mono; eauto.
  - apply orb_false_iff in E as [E Han]. apply orb_false_iff in E as [_ Hsj].
    apply Z.eqb_neq in Hsj. eapply inv_slideTo; eauto.
Qed.

(** The arrows' targets are indices of the carousel. *)
Lemma arrow_target_range (s : slider) (d : Z) (t : Z) :
  slider_inv t s -> d = 1 \/ d = -1 ->
  0 <= trunc (sl s) (selectedSlide s + d) < len (sl s).
Proof.
  intros (Hwf & Hsel & _) Hd. destruct Hwf as (Hn & _).
  rewrite trunc_mod by lia. apply Z.mod_pos_bound. lia.
Qed.

Lemma inv_handle (t now : Z) (e : event) (s s' : slider) :
  slider_inv t s -> distinct_items (sl s) -> t <= now -> handle now e s = Some s' ->
  slider_inv now s'.
Proof.
  intros Hinv Hd Ht. destruct e as [j which|which|which|]; unfold handle; cbv zeta.
  - destruct ((0 <=? j) && (j <? len (sl s))) eqn:E; [|discriminate].
    apply andb_true_iff in E as [E1 E2]. qbool.
    intros H%some_eq. subst. apply inv_click with t; auto.
  - intros H%some_eq. subst. apply inv_click with t; auto.
    replace (selectedSlide s - 1) with (selectedSlide s + -1) by lia.
    eapply arrow_target_range; eauto.
  - intros H%some_eq. subst. apply inv_click with t; auto. eapply arrow_target_range; eauto.
  - pose proof Hinv as (Hwf & Hsel & Hpa & Hca & Hcy & Hrf & Hcls & Hrest).
    destruct (isAnimated s) eqn:Han.
    + destruct Hrest as (Hn2 & Htm & Hfr & _).
      destruct (Qle_bool 1 (progress (tick now (mainAnimation s)))) eqn:Hq.
      * change anim_fuel with (S 1).
        destruct (frame_finished_result 1 now s Hfr Hpa Hcy Hq)
          as (a0 & Hf0 & Hcl & Hc0 & Hcy0 & Hr0 & ->).
        intros H%some_eq. subst.
        destruct (Z.eq_dec (times s) 1) as [H1|H1].
        -- eapply inv_onFinish_last; eauto. unfold finished_ok. auto.
        -- eapply inv_onFinish_more; eauto; [lia|]. unfold finished_ok. auto.
      * rewrite (frame_unfinished_result _ _ _ Hfr Hpa Hca Hq).
        intros H%some_eq. subst. apply inv_frame_unfinished with t; auto.
    + destruct Hrest as (_ & Hfr & _). unfold frame. cbn [host_anim slider_host].
      unfold take_frame. rewrite Hfr. discriminate.
Qed.

Lemma slider_reachable_inv (t : Z) (s : slider) :
  reachable t s -> distinct_items (sl s) -> slider_inv t s.
Proof.
  induction 1 as [arr s t Hc | t t' e s s' Hr IH Ht Hh]; intros Hd.
  - eapply inv_init; eauto.
  - pose proof (sl_handle _ _ _ _ Hh) as Hsl. rewrite Hsl in Hd.
    eapply inv_handle; eauto.
Qed.

(** C1: every state a constructed slider reaches through clicks and
    frames satisfies the carousel invariant: the selected index is in
    range, exactly one indicator is selected and it is the transition's
    final target, the animation is neither paused, cancelled nor cycled;
    idle, nothing is pending, the carousel is at rest and the current
    container alone holds the selected item; animating, one frame is
    pending, progress is in [0, 1), the carousel offset follows it, and
    the two containers hold the previous and the selected item. *)
Theorem slider_invariant (t : Z) (s : slider) :
  reachable t s -> distinct_items (sl s) -> slider_inv t s.
Proof. exact (slider_reachable_inv t s). Qed.

(** ** Consequences of the invariant *)

(** C5: the two containers never hold the same node, each holds at most
    one, and the current one always holds the item on display (the
    selected one when idle, the previous one while sliding). *)
Theorem containers_disjoint (t : Z) (s : slider) :
  reachable t s -> distinct_items (sl s) ->
  NoDup (children (containerCurrent s) ++ children (containerNext s)) /\
  length (children (containerCurrent s)) = 1%nat /\
  (length (children (containerNext s)) <= 1)%nat.
Proof.
  intros Hr Hd. pose proof (slider_reachable_inv t s Hr Hd) as (Hwf & Hsel & _ & _ & _ & _ & _ & H).
  destruct (isAnimated s); destruct_and! H.
  - match goal with Hc : children (containerCurrent s) = _ , Hn : children (containerNext s) = _ |- _ =>
      rewrite Hc, Hn end.
    set (m := rightToLeftMultiplier s).
    assert (Hm : m = 1 \/ m = -1) by (unfold m, rightToLeftMultiplier; destruct (rightToLeftFlag s); auto).
    assert (Hp : trunc (sl s) (selectedSlide s - m) = trunc (sl s) (selectedSlide s + - m))
      by (f_equal; lia).
    destruct (step_index (sl s) (selectedSlide s) (- m)) as (Hr1 & Hne & _); try lia.
    split_and!; [|reflexivity|cbn; lia].
    cbn. constructor; [|constructor; [set_solver|constructor]].
    rewrite list_elem_of_singleton. intros Heq. rewrite Hp in Heq.
    apply item_node_inj in Heq; auto; lia.
  - match goal with Hc : children (containerCurrent s) = _ , Hn : children (containerNext s) = _ |- _ =>
      rewrite Hc, Hn end.
    split_and!; [|reflexivity|cbn; lia]. cbn. constructor; [set_solver|constructor].
Qed.

(** C11: the carousel never moves by more than one container width: the
    offset [onUpdate] writes stays within [-W, W]. *)
Theorem carousel_offset_bounded (t : Z) (s : slider) (x : Q) :
  reachable t s -> distinct_items (sl s) -> carouselLeft s = Some x ->
  (- inject_Z (mainContainerWidth (sl s)) <= x <= inject_Z (mainContainerWidth (sl s)))%Q.
Proof.
  intros Hr Hd Hx.
  pose proof (slider_reachable_inv t s Hr Hd) as ((_ & _ & HW) & _ & _ & _ & _ & Hrf & _ & H).
  assert (HWq : (0 <= inject_Z (mainContainerWidth (sl s)))%Q)
    by (change 0%Q with (inject_Z 0); rewrite <- Zle_Qle; exact HW).
  destruct (isAnimated s).
  - destruct H as (_ & _ & _ & _ & _ & Hp & (y & Hy & Hxy) & _).
    rewrite Hx in Hy. injection Hy as <-. rewrite Hxy.
    unfold carousel_offset, reported, rightToLeftMultiplier. rewrite Hrf.
    set (p := progress (mainAnimation s)) in *.
    set (W := inject_Z (mainContainerWidth (sl s))) in *.
    destruct Hp as [Hp0 Hp1].
    assert (0 <= p * W <= W)%Q.
    { split; [apply Qmult_le_0_compat; assumption|].
      rewrite <- (Qmult_1_l W) at 2. apply Qmult_le_compat_r; [lra|assumption]. }
    destruct (rightToLeftFlag s).
    + change (inject_Z 1) with 1%Q. lra.
    + change (inject_Z (-1)) with (-1)%Q. lra.
  - destruct H as (_ & _ & Hc & _). specialize (Hc x Hx). split; lra.
Qed.

(** ** Navigation *)

(** What a click on an index [j] sets up, from an idle slider. *)
Lemma slideTo_fields (t now j : Z) (s : slider) :
  slider_inv t s -> isAnimated s = false -> 0 <= j < len (sl s) -> j <> selectedSlide s ->
  let n := len (sl s) in
  let fwd := (j - selectedSlide s) mod n in
  let bwd := (selectedSlide s - j) mod n in
  let s1 := slideTo (run anim_fuel now) j s in
  isAnimated s1 = true /\ times s1 = Z.min fwd bwd /\
  rightToLeftFlag s1 = (2 * fwd <=? n) /\
  duration (mainAnimation s1) = (ANIMATION_DURATION / inject_Z (Z.min fwd bwd))%Q /\
  target s1 = j.
Proof.
  intros ((Hn & _) & Hsel & _) Hidle Hj Hne. cbv zeta.
  change anim_fuel with (S 1). rewrite slideTo_result. cbv zeta.
  unfold set_carouselLeft, with_dom, target, rightToLeftMultiplier.
  cbn -[trunc].
  rewrite (trunc_mod (sl s) (j - selectedSlide s)) by lia.
  rewrite (trunc_mod (sl s) (- (j - selectedSlide s))) by lia.
  replace (- (j - selectedSlide s)) with (selectedSlide s - j) by lia.
  rewrite half_le_bool.
  destruct (slide_plan (len (sl s)) (selectedSlide s) j) as (Hk1 & Hk2 & Hland); try lia.
  split_and!; try reflexivity.
  set (k := Z.min _ _) in *.
  set (m := if 2 * ((j - selectedSlide s) mod len (sl s)) <=? len (sl s) then 1 else -1) in *.
  assert (Hm : m = 1 \/ m = -1) by (unfold m; destruct (_ <=? _); auto).
  rewrite trunc_mod, Zplus_mod_idemp_l by lia.
  rewrite <- Hland. f_equal. lia.
Qed.

(** C3: a click on indicator [j] of an idle slider showing [sel] takes
    [min((j - sel) mod N, (sel - j) mod N)] single steps, forward when
    the forward distance is at most [N/2] (so a tie goes forward), each
    step lasting [300 / steps] ms so the whole transition lasts 300 ms,
    and marks indicator [j] at once; the transition ends on [j]. *)
Theorem click_plan (t now j : Z) (s : slider) :
  reachable t s -> distinct_items (sl s) -> isAnimated s = false ->
  0 <= j < len (sl s) -> j <> selectedSlide s -> t <= now ->
  let n := len (sl s) in
  let fwd := (j - selectedSlide s) mod n in
  let bwd := (selectedSlide s - j) mod n in
  let s1 := onClickAction (run anim_fuel now) 1 j s in
  times s1 = Z.min fwd bwd /\ rightToLeftFlag s1 = (2 * fwd <=? n) /\
  (inject_Z (times s1) * duration (mainAnimation s1) == ANIMATION_DURATION)%Q /\
  target s1 = j /\ selectedClass s1 = onehot (Z.to_nat n) j.
Proof.
  intros Hr Hd Hidle Hj Hne Ht. pose proof (slider_reachable_inv t s Hr Hd) as Hinv. cbv zeta.
  unfold onClickAction.
  assert (Hg : (negb (1 =? 1) || (selectedSlide s =? j) || isAnimated s) = false)
    by (rewrite Hidle; destruct (Z.eqb_spec (selectedSlide s) j); [lia|reflexivity]).
  rewrite Hg.
  destruct (slideTo_fields t now j s Hinv Hidle Hj Hne) as (Han & Htm & Hrtl & Hdur & Htg).
  assert (Hinv1 := inv_slideTo t now j s Hinv Hd Hidle Hj Hne Ht).
  destruct Hinv1 as (_ & _ & _ & _ & _ & _ & Hcls & _).
  assert (Hk : (1 <= Z.min ((j - selectedSlide s) mod len (sl s))
                            ((selectedSlide s - j) mod len (sl s)))).
  { destruct Hinv as ((Hn & _) & Hsel & _).
    destruct (slide_plan (len (sl s)) (selectedSlide s) j) as (Hk1 & _); lia. }
  assert (Hsl : sl (slideTo (run anim_fuel now) j s) = sl s)
    by (change anim_fuel with (S 1); rewrite slideTo_result; reflexivity).
  split_and!; [exact Htm | exact Hrtl | | exact Htg | rewrite Hcls, Htg, Hsl; reflexivity].
  rewrite Hdur, Htm. field.
  apply inject_Z_neq_0. lia.
Qed.

(** ** The plan is the shortest walk *)

(** A walk of [k] steps lands where the modulus says. *)
Lemma walk_mod (L : layout) (m : Z) (k : nat) (sel : Z) :
  0 < len L -> m = 1 \/ m = -1 -> 0 <= sel < len L ->
  walk L m k sel = (sel + m * Z.of_nat k) mod len L.
Proof.
  intros Hn Hm. revert sel. induction k as [|k IH]; intros sel Hsel; cbn [walk].
  - replace (sel + m * Z.of_nat 0) with sel by lia. rewrite Z.mod_small by lia. reflexivity.
  - rewrite trunc_mod by lia. rewrite IH by (apply Z.mod_pos_bound; lia).
    rewrite Zplus_mod_idemp_l. f_equal. lia.
Qed.

(** The forward and backward distances between two distinct slides
    add up to the length. *)
Lemma fwd_bwd_sum (n sel j : Z) :
  0 <= sel < n -> 0 <= j < n -> sel <> j -> (j - sel) mod n + (sel - j) mod n = n.
Proof.
  intros Hs Hj Hne. destruct (Z_lt_le_dec sel j).
  - rewrite (mod_of_range (j - sel) (j - sel) 0), (mod_of_range (sel - j) (sel - j + n) (-1)); lia.
  - rewrite (mod_of_range (j - sel) (j - sel + n) (-1)), (mod_of_range (sel - j) (sel - j) 0); lia.
Qed.

(** A walk of fewer than [n] steps that lands on [j] has the length of
    the distance in its direction. *)
Lemma landing_distance (n sel j k m : Z) :
  0 < n -> 0 <= k < n -> (m = 1 \/ m = -1) -> (sel + m * k) mod n = j ->
  k = (m * (j - sel)) mod n.
Proof.
  intros Hn Hk Hm Hland. subst j. rewrite <- (Z.mod_small k n Hk) at 1.
  destruct Hm as [->| ->].
  - rewrite Z.mul_1_l, Zminus_mod_idemp_l. f_equal. lia.
  - replace (-1 * ((sel + -1 * k) mod n - sel)) with (sel - (sel + -1 * k) mod n) by lia.
    rewrite Zminus_mod_idemp_r. f_equal. lia.
Qed.

Lemma landing_at_distance (n sel j m : Z) :
  0 < n -> 0 <= j < n -> (m = 1 \/ m = -1) -> (sel + m * ((m * (j - sel)) mod n)) mod n = j.
Proof.
  intros Hn Hj Hm. rewrite Zplus_mod, Z.mul_mod_idemp_r, <- Zplus_mod by lia.
  replace (sel + m * (m * (j - sel))) with j by (destruct Hm as [-> | ->]; lia).
  apply Z.mod_small. exact Hj.
Qed.

(** The search finds [min(fwd, bwd)] steps, forward exactly when the
    forward distance is at most half the length. *)
Lemma shortest_walk_spec (L : layout) (sel j : Z) :
  0 <= sel < len L -> 0 <= j < len L -> sel <> j ->
  let fwd := (j - sel) mod len L in
  let bwd := (sel - j) mod len L in
  shortest_walk L sel j =
    Some (Z.to_nat (Z.min fwd bwd), if 2 * fwd <=? len L then 1 else -1).
Proof.
  intros Hs Hj Hne. cbv zeta. set (n := len L) in *.
  pose proof (fwd_bwd_sum n sel j Hs Hj Hne) as Hsum.
  assert (Hf : 0 <= (j - sel) mod n < n) by (apply Z.mod_pos_bound; lia).
  assert (Hb : 0 <= (sel - j) mod n < n) by (apply Z.mod_pos_bound; lia).
  assert (Hwalk : forall m k, m = 1 \/ m = -1 -> (k < Z.to_nat n)%nat ->
            walk L m k sel = j -> Z.of_nat k = (m * (j - sel)) mod n).
  { intros m k Hm Hk Hw. rewrite walk_mod in Hw by (unfold n in *; lia). fold n in Hw.
    apply Nat2Z.inj_lt in Hk. rewrite Z2Nat.id in Hk by lia.
    apply (landing_distance n sel j); lia. }
  assert (Hreach : forall m, m = 1 \/ m = -1 ->
            walk L m (Z.to_nat ((m * (j - sel)) mod n)) sel = j).
  { intros m Hm. rewrite walk_mod, Z2Nat.id by (try apply Z.mod_pos_bound; unfold n in *; lia).
    apply landing_at_distance; unfold n in *; lia. }
  assert (Hm1 : (1 * (j - sel)) mod n = (j - sel) mod n) by (f_equal; lia).
  assert (Hm2 : (-1 * (j - sel)) mod n = (sel - j) mod n) by (f_equal; lia).
  pose proof (Hreach 1 ltac:(lia)) as R1. pose proof (Hreach (-1) ltac:(lia)) as R2.
  rewrite Hm1 in R1. rewrite Hm2 in R2.
  unfold shortest_walk. fold n.
  set (k0 := Z.to_nat (Z.min ((j - sel) mod n) ((sel - j) mod n))).
  rewrite (proj2 (list_find_Some _ _ k0 k0)); unfold k0.
  - cbn [fmap option_fmap option_map]. f_equal. f_equal.
    destruct (Z.leb_spec (2 * ((j - sel) mod n)) n); case_decide as Hd; try reflexivity.
    + exfalso. apply Hd. rewrite Z.min_l by lia. exact R1.
    + exfalso. apply Hwalk in Hd; [|lia|lia]. rewrite Hm1, Z.min_r, Z2Nat.id in Hd by lia. lia.
  - split_and!.
    + apply lookup_seq_lt. lia.
    + apply Z.min_case; [left; exact R1|right; exact R2].
    + intros k y Hy Hlt. apply lookup_seq in Hy as [-> Hy]. cbn in Hlt.
      intros [Hw|Hw]; apply Hwalk in Hw; rewrite ?Hm1, ?Hm2 in Hw; lia.
Qed.

(** C10: the arithmetic plan of [slideTo] (lines 103-112) is the plan a
    search over the walks of [getNextSlideIndex] finds: as many steps as
    the fewest after which a walk in either direction lands on the
    target, in a direction that lands on it in that many steps (forward
    on a tie). *)
Theorem slideTo_plan_shortest (t now j : Z) (s : slider) :
  slider_inv t s -> isAnimated s = false -> 0 <= j < len (sl s) -> j <> selectedSlide s ->
  let s1 := slideTo (run anim_fuel now) j s in
  shortest_walk (sl s) (selectedSlide s) j =
    Some (Z.to_nat (times s1), rightToLeftMultiplier s1).
Proof.
  intros Hinv Hidle Hj Hne. cbv zeta.
  destruct (slideTo_fields t now j s Hinv Hidle Hj Hne) as (_ & Htm & Hrtl & _).
  pose proof Hinv as (_ & Hsel & _).
  rewrite shortest_walk_spec by lia. unfold rightToLeftMultiplier. rewrite Htm, Hrtl.
  reflexivity.
Qed.


(** A frame is the [AnimationFrame] event. *)
Lemma frames_at_sl (ts : list Z) (s s' : slider) :
  frames_at anim_fuel ts s = Some s' -> sl s' = sl s.
Proof.
  revert s. induction ts as [|t ts IH]; intros s H; cbn [frames_at] in H.
  - apply some_eq in H. subst. reflexivity.
  - destruct (frame anim_fuel t s) as [s1|] eqn:E; [|discriminate].
    rewrite (IH _ H). apply (sl_handle t AnimationFrame). exact E.
Qed.

(** Frames [D] ms apart, [D] at least the step duration, carry a running
    transition to its end, one step per frame. *)
Lemma chain (r : nat) : forall (t' D : Z) (s : slider),
  slider_inv t' s -> distinct_items (sl s) -> isAnimated s = true ->
  times s = Z.of_nat (S r) -> (progress (mainAnimation s) == 0)%Q ->
  start (mainAnimation s) = t' -> (duration (mainAnimation s) <= inject_Z D)%Q ->
  exists s', frames_at anim_fuel (ticks t' D (S r)) s = Some s' /\
    isAnimated s' = false /\ selectedSlide s' = target s /\
    slider_inv (t' + D * Z.of_nat (S r)) s'.
Proof.
  induction r as [|r IH]; intros t' D s Hinv Hd Han Htm Hp Hst HD;
  pose proof Hinv as (Hwf & Hsel & Hpa & Hca & Hcy & Hrf & Hcls & Hrest);
  rewrite Han in Hrest; destruct Hrest as (Hn2 & _ & Hfr & Hdur & _);
  assert (HD0 : 0 < D) by
    (rewrite Zlt_Qlt; change (inject_Z 0) with 0%Q; eapply Qlt_le_trans; eassumption);
  assert (Hq : Qle_bool 1 (progress (tick (t' + D) (mainAnimation s))) = true) by
    (apply Qle_bool_iff; cbn [tick progress]; rewrite Hp, Hst, Qplus_0_l;
     replace (t' + D - t') with D by lia; apply Qdiv_ge_1; assumption);
  change anim_fuel with (S 1);
  destruct (frame_finished_result 1 (t' + D) s Hfr Hpa Hcy Hq)
    as (a0 & Hf0 & Hcl & Hc0 & Hcy0 & Hr0 & Hframe);
  cbn [ticks frames_at]; rewrite Hframe; change (S 1) with anim_fuel.
  - set (s1 := slider_onFinish _ _).
    assert (Hinv1 : slider_inv (t' + D) s1)
      by (eapply inv_onFinish_last; eauto; [lia|repeat split; assumption]).
    assert (Hs1 : isAnimated s1 = false /\ selectedSlide s1 = selectedSlide s)
      by (unfold s1; rewrite onFinish_last_result by (cbn; lia); split; reflexivity).
    exists s1. split_and!; [reflexivity|apply Hs1| |].
    + rewrite (proj2 Hs1). unfold target. rewrite Han, Htm. cbn.
      rewrite Z.mul_0_r, Z.add_0_r, Z.mod_small; lia.
    + replace (t' + D * Z.of_nat 1) with (t' + D) by lia. exact Hinv1.
  - set (s1 := slider_onFinish _ _).
    assert (Hinv1 : slider_inv (t' + D) s1)
      by (eapply inv_onFinish_more; eauto; [lia|lia|repeat split; assumption]).
    assert (Hs1 : sl s1 = sl s /\ isAnimated s1 = true /\ times s1 = Z.of_nat (S r) /\
                  (progress (mainAnimation s1) == 0)%Q /\ start (mainAnimation s1) = t' + D /\
                  duration (mainAnimation s1) = duration (mainAnimation s) /\
                  target s1 = target s).
    { unfold s1. change anim_fuel with (S 1). rewrite onFinish_more_result by (cbn; lia).
      cbv zeta.
      unfold set_carouselLeft, with_dom, target. cbn -[trunc].
      unfold clock in Hcl. injection Hcl as _ Hd0 _ _.
      split_and!; try reflexivity; try assumption; try lia.
      - rewrite Z.sub_diag. apply fresh_progress_zero.
      - rewrite Han. apply target_advance; destruct Hwf as (? & _);
          unfold rightToLeftMultiplier; destruct (rightToLeftFlag s); lia. }
    destruct Hs1 as (Hsl1 & Han1 & Htm1 & Hp1 & Hst1 & Hd1 & Htg1).
    destruct (IH (t' + D) D s1) as (s' & Hfa & Han' & Hsel' & Hinv');
      try rewrite Hsl1; try rewrite Hd1; try assumption.
    exists s'. split_and!; try assumption.
    + congruence.
    + replace (t' + D * Z.of_nat (S (S r))) with (t' + D + D * Z.of_nat (S r)) by lia.
      exact Hinv'.
Qed.

(** C2: a click on indicator [j] of an idle slider, followed by frames
    [D] ms apart where the [k] steps of the plan fit ([300 <= k * D]),
    ends after exactly [k] frames with the slider idle on [j]: indicator
    [j] selected and item [j] alone on display. *)
Theorem navigation_reaches_target (t now j D : Z) (s : slider) :
  reachable t s -> distinct_items (sl s) -> isAnimated s = false ->
  0 <= j < len (sl s) -> j <> selectedSlide s -> t <= now ->
  let k := Z.min ((j - selectedSlide s) mod len (sl s))
                 ((selectedSlide s - j) mod len (sl s)) in
  (ANIMATION_DURATION <= inject_Z (k * D))%Q ->
  exists s', frames_at anim_fuel (ticks now D (Z.to_nat k))
               (onClickAction (run anim_fuel now) 1 j s) = Some s' /\
    isAnimated s' = false /\ selectedSlide s' = j /\
    selectedClass s' = onehot (Z.to_nat (len (sl s))) j /\
    children (containerCurrent s') = [item_node (sl s) j] /\
    children (containerNext s') = [].
Proof.
  intros Hr Hd Hidle Hj Hne Ht k Hk300.
  pose proof (slider_reachable_inv t s Hr Hd) as Hinv.
  assert (Hg : (negb (1 =? 1) || (selectedSlide s =? j) || isAnimated s) = false)
    by (rewrite Hidle; destruct (Z.eqb_spec (selectedSlide s) j); [lia|reflexivity]).
  unfold onClickAction. rewrite Hg.
  destruct (slideTo_fields t now j s Hinv Hidle Hj Hne) as (Han1 & Htm1 & _ & Hdur1 & Htg1).
  pose proof (inv_slideTo t now j s Hinv Hd Hidle Hj Hne Ht) as Hinv1.
  set (s1 := slideTo (run anim_fuel now) j s) in *.
  assert (Hs1 : sl s1 = sl s /\ (progress (mainAnimation s1) == 0)%Q /\
                start (mainAnimation s1) = now).
  { unfold s1. change anim_fuel with (S 1). rewrite slideTo_result. cbv zeta. cbn.
    rewrite Z.sub_diag. split_and!; [reflexivity|apply fresh_progress_zero|reflexivity]. }
  destruct Hs1 as (Hsl1 & Hp1 & Hst1).
  assert (Hk1 : 1 <= k).
  { destruct Hinv as ((Hn & _) & Hsel & _).
    destruct (slide_plan (len (sl s)) (selectedSlide s) j) as (Hk1 & _); unfold k; lia. }
  assert (HD : (duration (mainAnimation s1) <= inject_Z D)%Q).
  { rewrite Hdur1. fold k. apply Qle_shift_div_r.
    - change 0%Q with (inject_Z 0). rewrite <- Zlt_Qlt. lia.
    - rewrite <- inject_Z_mult, Z.mul_comm. exact Hk300. }
  destruct (Z.to_nat k) as [|r] eqn:Ek; [lia|].
  destruct (chain r now D s1) as (s' & Hfa & Han' & Hsel' & Hinv');
    try rewrite Hsl1; try assumption; [rewrite Htm1; fold k; lia|].
  pose proof (frames_at_sl _ _ _ Hfa) as Hsl'. rewrite Hsl1 in Hsl'.
  destruct Hinv' as (_ & _ & _ & _ & _ & _ & Hcls' & Hrest). rewrite Han' in Hrest.
  destruct Hrest as (_ & _ & _ & Hcur' & Hnext').
  rewrite Htg1 in Hsel'. unfold target in Hcls'. rewrite Han', Hsel', Hsl' in Hcls'.
  rewrite Hsel', Hsl' in Hcur'.
  exists s'. split_and!; assumption.
Qed.

(** ** Scenarios *)

(** C21: a carousel of one item ignores every event: no click changes
    it (the only indicator and both arrows designate the item on
    display) and no frame is ever pending. *)
Theorem single_item_inert (t now : Z) (e : event) (s : slider) :
  reachable t s -> distinct_items (sl s) -> len (sl s) = 1 ->
  handle now e s = Some s \/ handle now e s = None.
Proof.
  intros Hr Hd Hl.
  pose proof (slider_reachable_inv t s Hr Hd) as (_ & Hsel & _ & _ & _ & _ & _ & Hrest).
  assert (Hs0 : selectedSlide s = 0) by lia.
  destruct (isAnimated s) eqn:Han; [destruct Hrest as (H2 & _); lia|].
  destruct Hrest as (_ & Hfr & _).
  assert (Hsame : forall which j, j = 0 -> onClickAction (run anim_fuel now) which j s = s)
    by (intros which j ->; unfold onClickAction; rewrite Hs0, Z.eqb_refl, orb_true_r;
        reflexivity).
  destruct e as [j which|which|which|]; unfold handle; cbv zeta.
  - destruct ((0 <=? j) && (j <? len (sl s))) eqn:E; [left|right; reflexivity].
    apply andb_true_iff in E as [E1 E2]. qbool. rewrite Hsame by lia. reflexivity.
  - left. rewrite Hsame; [reflexivity|]. unfold trunc. rewrite Hs0, Hl. reflexivity.
  - left. rewrite Hsame; [reflexivity|]. unfold trunc. rewrite Hs0, Hl. reflexivity.
  - right. unfold frame, take_frame. cbn [host_anim slider_host]. rewrite Hfr. reflexivity.
Qed.

(** On two items an arrow goes to the other index. *)
Lemma two_items_arrow (L : layout) (sel d : Z) :
  len L = 2 -> 0 <= sel < 2 -> d = 1 \/ d = -1 -> trunc L (sel + d) = 1 - sel.
Proof.
  intros Hl Hs Hd. unfold trunc. rewrite Hl.
  assert (sel = 0 \/ sel = 1) as [-> | ->] by lia; destruct Hd as [-> | ->]; reflexivity.
Qed.

(** C22: a carousel of two items, idle: either arrow slides forward to
    the other item in one step of the full 300 ms. *)
Theorem two_items_arrows_forward (t now : Z) (e : event) (s : slider) :
  reachable t s -> distinct_items (sl s) -> len (sl s) = 2 -> isAnimated s = false ->
  t <= now -> e = LeftScrollerClick 1 \/ e = RightScrollerClick 1 ->
  exists s1, handle now e s = Some s1 /\ isAnimated s1 = true /\ times s1 = 1 /\
    rightToLeftFlag s1 = true /\ (duration (mainAnimation s1) == 300)%Q /\
    target s1 = 1 - selectedSlide s.
Proof.
  intros Hr Hd Hl Han Ht He.
  pose proof (slider_reachable_inv t s Hr Hd) as Hinv. pose proof Hinv as (_ & Hsel & _).
  assert (Hj : exists d, (d = 1 \/ d = -1) /\
            handle now e s = Some (onClickAction (run anim_fuel now) 1
                                     (trunc (sl s) (selectedSlide s + d)) s)).
  { destruct He as [-> | ->]; [exists (-1)|exists 1]; split; auto. }
  destruct Hj as (d & Hd1 & ->). rewrite two_items_arrow by lia.
  rewrite onClickAction_go by first [exact Han | lia]. eexists. split; [reflexivity|].
  destruct (slideTo_fields t now (1 - selectedSlide s) s Hinv Han) as (Ha1 & Ht1 & Hr1 & Hd2 & Htg);
    [lia|lia|].
  rewrite Ha1, Ht1, Hr1, Hd2, Htg, Hl.
  assert (selectedSlide s = 0 \/ selectedSlide s = 1) as [-> | ->] by lia;
    split_and!; reflexivity.
Qed.

(** ** Rejected input *)

(** C6: while a transition runs, every click (indicator or arrow, any
    button) is dropped: the state is left exactly as it was. *)
Theorem clicks_dropped_while_animating (now : Z) (e : event) (s : slider) :
  isAnimated s = true -> e <> AnimationFrame ->
  handle now e s = Some s \/ handle now e s = None.
Proof.
  intros Han He. unfold handle, onClickAction. cbv zeta.
  destruct e as [j which|which|which|]; [|left|left|congruence]; rewrite ?Han, ?orb_true_r.
  - destruct ((0 <=? j) && (j <? len (sl s))); [left|right]; reflexivity.
  - reflexivity.
  - reflexivity.
Qed.

(** The constructor refuses only the empty array (its three type
    checks never fire) and keeps at most ten items. *)
Theorem create_rejects_only_empty (arr : list elem) :
  (createSliderFromHTMLElementArray arr = None <-> arr = []) /\
  (forall s, createSliderFromHTMLElementArray arr = Some s ->
     len (sl s) = Z.of_nat (Nat.min 10 (length arr)) /\ selectedSlide s = 0 /\
     isAnimated s = false).
Proof.
  split.
  - split.
    + destruct arr; [reflexivity|]. intros H.
      destruct (createSliderFromHTMLElementArray (e :: arr)) eqn:E; [discriminate|].
      unfold createSliderFromHTMLElementArray in E.
      cbn [negated_instanceof js_not js_instanceof orb] in E. rewrite existsb_const_false in E. discriminate.
    + intros ->. reflexivity.
  - intros s H. apply create_spec in H as [_ ->]. cbn.
    rewrite length_firstn. split_and!; reflexivity.
Qed.

(** C14: the container is as large as the largest item and at least
    200 x 100; every item is centred in it, with non-negative offsets. *)
Theorem create_geometry (arr : list elem) (s : slider) (i : nat) (e : elem) :
  createSliderFromHTMLElementArray arr = Some s ->
  HTMLElementArrayUsed (sl s) !! i = Some e ->
  MIN_SLIDER_WIDTH <= mainContainerWidth (sl s) /\
  offsetWidth e <= mainContainerWidth (sl s) /\
  offsetsLeft (sl s) !! i = Some (inject_Z (mainContainerWidth (sl s) - offsetWidth e) / 2)%Q /\
  (0 <= inject_Z (mainContainerWidth (sl s) - offsetWidth e) / 2)%Q /\
  offsetHeight e <= mainContainerHeight (sl s) /\
  offsetsTop (sl s) !! i = Some (inject_Z (mainContainerHeight (sl s) - offsetHeight e) / 2)%Q.
Proof.
  intros H Hi.
  assert (Hl : sl s = make_layout (firstn MAX_CAROUSEL_LENGTH arr))
    by (apply create_spec in H as [_ ->]; reflexivity).
  rewrite Hl in *. unfold make_layout in *.
  cbn [HTMLElementArrayUsed mainContainerWidth mainContainerHeight offsetsLeft offsetsTop] in *.
  set (used := firstn MAX_CAROUSEL_LENGTH arr) in *.
  assert (Hin : In e used) by (apply list_elem_of_In; eapply list_elem_of_lookup_2; eauto).
  destruct (math_max_apply_ge (map offsetWidth used) (offsetWidth e)) as (mw & Hmw & Hle);
    [apply in_map; exact Hin|].
  destruct (math_max_apply_ge (map offsetHeight used) (offsetHeight e)) as (mh & Hmh & Hleh);
    [apply in_map; exact Hin|].
  pose proof (math_max2_ge_r MIN_SLIDER_WIDTH _ _ Hmw).
  pose proof (math_max2_ge_r MIN_SLIDER_HEIGHT _ _ Hmh).
  split_and!; try apply math_max2_ge_l; try lia.
  - rewrite list_lookup_fmap, Hi. reflexivity.
  - apply Qdiv_nonneg; [apply inject_Z_sub_nonneg; lia|reflexivity].
  - rewrite list_lookup_fmap, Hi. reflexivity.
Qed.

(** C27: the same element given twice is one node with two indices: a
    click on the second indicator moves that node out of the current
    container into the next one, so the current container is empty for
    the whole first step of the slide: the hypothesis [distinct_items]
    of the container theorems cannot be dropped. *)
Theorem duplicate_item_empties_container (now : Z) (e : elem) (rest : list elem) (s s' : slider) :
  createSliderFromHTMLElementArray (e :: e :: rest) = Some s ->
  handle now (IndicatorClick 1 1) s = Some s' ->
  children (containerCurrent s') = [] /\ children (containerNext s') = [node e].
Proof.
  intros Hc Hh. apply create_spec in Hc as [_ Hs].
  set (L := make_layout (firstn MAX_CAROUSEL_LENGTH (e :: e :: rest))) in Hs.
  assert (HL : 2 <= len L) by (cbn; lia).
  assert (Hn0 : item_node L 0 = node e) by reflexivity.
  assert (Hn1 : item_node L 1 = node e) by reflexivity.
  assert (Hsl : sl s = L) by (rewrite Hs; reflexivity).
  assert (Hsel : selectedSlide s = 0) by (rewrite Hs; reflexivity).
  assert (Han : isAnimated s = false) by (rewrite Hs; reflexivity).
  assert (Hcur : children (containerCurrent s) = [item_node L 0]) by (rewrite Hs; reflexivity).
  assert (Hnxt : children (containerNext s) = []) by (rewrite Hs; reflexivity).
  clear Hs. clearbody L.
  unfold handle in Hh. cbv zeta in Hh. rewrite Hsl in Hh.
  replace ((0 <=? 1) && (1 <? len L)) with true in Hh by (symmetry; apply andb_true_iff; lia).
  apply some_eq in Hh. subst s'. rewrite onClickAction_go by first [exact Han | lia].
  change anim_fuel with (S 1). rewrite slideTo_result. cbv zeta.
  cbn [set_carouselLeft with_dom children containerCurrent containerNext].
  rewrite Hsl, Hsel, Hcur, Hnxt, Z.sub_0_r, (trunc_mod L 1), Z.mod_small, half_le_bool by lia.
  replace (2 * 1 <=? len L) with true by lia. rewrite (trunc_mod L (0 + 1)), Z.mod_small by lia.
  rewrite Z.add_0_l, Hn0, Hn1, detach_self. split; reflexivity.
Qed.

(** C26: [cancel] does not stop a transition of several steps: the
    frame already requested that ends a step calls [onFinish] all the
    same, which launches the next step through [run]; [run] clears
    [cancelled] and requests a new frame.  The slider after that frame
    is the one the frame gives without the [cancel]. *)
Theorem cancel_does_not_stop_transition (t now : Z) (s : slider) :
  reachable t s -> distinct_items (sl s) -> isAnimated s = true -> 2 <= times s ->
  Qle_bool 1 (progress (tick now (mainAnimation s))) = true ->
  exists s', handle now AnimationFrame (set_mainAnimation (cancel (mainAnimation s)) s) = Some s' /\
    handle now AnimationFrame s = Some s' /\
    isAnimated s' = true /\ cancelled (mainAnimation s') = false /\
    frames (mainAnimation s') = 1%nat /\ times s' = times s - 1.
Proof.
  intros Hr Hd Han Ht Hq.
  pose proof (slider_reachable_inv t s Hr Hd) as (_ & _ & Hpa & _ & Hcy & _ & _ & Hrest).
  rewrite Han in Hrest. destruct Hrest as (_ & _ & Hfr & _).
  unfold handle. change anim_fuel with (S 1).
  destruct (frame_finished_result 1 now s Hfr Hpa Hcy Hq)
    as (a0 & Hf0 & Hcl0 & _ & Hcy0 & Hr0 & ->).
  destruct (frame_finished_result 1 now (set_mainAnimation (cancel (mainAnimation s)) s))
    as (a1 & Hf1 & Hcl1 & _ & Hcy1 & Hr1 & ->); [exact Hfr|exact Hpa|exact Hcy|exact Hq|].
  rewrite !onFinish_more_result by (cbn; lia). cbv zeta.
  cbn [mainAnimation set_mainAnimation sl selectedSlide isAnimated rightToLeftFlag times
       carouselLeft nextSlideLeft containerCurrent containerNext display selectedClass].
  unfold clock in Hcl0, Hcl1. cbn in Hcl1, Hr1.
  rewrite (ran_fields now (set_progress 1 (tick now a1)) (set_progress 1 (tick now a0)))
    by (cbn; congruence).
  eexists. split_and!; [reflexivity..|exact Han|reflexivity|cbn; rewrite Hf0; reflexivity|reflexivity].
Qed.

(** ** Witnesses *)

Lemma demo4_reachable : reachable 0 demo4.
Proof. apply (reach_init (demo_items 4)). vm_compute. reflexivity. Qed.

Lemma demo4_sliding_reachable : reachable 0 demo4_sliding.
Proof.
  apply (reach_step 0 0 (IndicatorClick 2 1) demo4); [exact demo4_reachable|lia|].
  vm_compute. reflexivity.
Qed.

Lemma demo4_distinct : distinct_items (sl demo4).
Proof. decide_eval. Qed.

Lemma demo4_sliding_distinct : distinct_items (sl demo4_sliding).
Proof. decide_eval. Qed.

Lemma slider_invariant_witness : slider_inv 0 demo4_sliding.
Proof. apply (slider_invariant 0 demo4_sliding demo4_sliding_reachable demo4_sliding_distinct). Defined.

Lemma containers_disjoint_witness :
  NoDup (children (containerCurrent demo4_sliding) ++ children (containerNext demo4_sliding)) /\
  length (children (containerCurrent demo4_sliding)) = 1%nat /\
  (length (children (containerNext demo4_sliding)) <= 1)%nat.
Proof. apply (containers_disjoint 0 demo4_sliding demo4_sliding_reachable demo4_sliding_distinct). Defined.

Lemma carousel_offset_bounded_witness :
  (- inject_Z (mainContainerWidth (sl demo4_sliding)) <= 0 # 300 <=
     inject_Z (mainContainerWidth (sl demo4_sliding)))%Q.
Proof.
  apply (carousel_offset_bounded 0 demo4_sliding (0 # 300) demo4_sliding_reachable
           demo4_sliding_distinct).
  vm_compute. reflexivity.
Defined.

Lemma click_plan_witness :
  let n := len (sl demo4) in
  let fwd := (2 - selectedSlide demo4) mod n in
  let bwd := (selectedSlide demo4 - 2) mod n in
  let s1 := onClickAction (run anim_fuel 0) 1 2 demo4 in
  times s1 = Z.min fwd bwd /\ rightToLeftFlag s1 = (2 * fwd <=? n) /\
  (inject_Z (times s1) * duration (mainAnimation s1) == ANIMATION_DURATION)%Q /\
  target s1 = 2 /\ selectedClass s1 = onehot (Z.to_nat n) 2.
Proof.
  apply (click_plan 0 0 2 demo4 demo4_reachable demo4_distinct);
    by_eval.
Defined.

Lemma navigation_reaches_target_witness :
  exists s', frames_at anim_fuel (ticks 0 150 2) (onClickAction (run anim_fuel 0) 1 2 demo4)
               = Some s' /\
    isAnimated s' = false /\ selectedSlide s' = 2 /\
    selectedClass s' = onehot (Z.to_nat (len (sl demo4))) 2 /\
    children (containerCurrent s') = [item_node (sl demo4) 2] /\
    children (containerNext s') = [].
Proof.
  apply (navigation_reaches_target 0 0 2 150 demo4 demo4_reachable demo4_distinct);
    by_eval.
Defined.

Lemma clicks_dropped_while_animating_witness :
  handle 5 (LeftScrollerClick 1) demo4_sliding = Some demo4_sliding \/
  handle 5 (LeftScrollerClick 1) demo4_sliding = None.
Proof.
  apply (clicks_dropped_while_animating 5 (LeftScrollerClick 1) demo4_sliding);
    [vm_compute; reflexivity | discriminate].
Defined.

Lemma create_geometry_witness :
  let s := demo4 in
  let e := mkElem 1 110 50 in
  MIN_SLIDER_WIDTH <= mainContainerWidth (sl s) /\
  offsetWidth e <= mainContainerWidth (sl s) /\
  offsetsLeft (sl s) !! 1%nat = Some (inject_Z (mainContainerWidth (sl s) - offsetWidth e) / 2)%Q /\
  (0 <= inject_Z (mainContainerWidth (sl s) - offsetWidth e) / 2)%Q /\
  offsetHeight e <= mainContainerHeight (sl s) /\
  offsetsTop (sl s) !! 1%nat = Some (inject_Z (mainContainerHeight (sl s) - offsetHeight e) / 2)%Q.
Proof.
  apply (create_geometry (demo_items 4) demo4 1 (mkElem 1 110 50));
    vm_compute; reflexivity.
Defined.

Lemma slideTo_plan_shortest_witness :
  slider_inv 0 demo4 /\ isAnimated demo4 = false /\ 0 <= 3 < len (sl demo4) /\
  3 <> selectedSlide demo4 /\
  shortest_walk (sl demo4) (selectedSlide demo4) 3 =
    Some (Z.to_nat (times (slideTo (run anim_fuel 0) 3 demo4)),
          rightToLeftMultiplier (slideTo (run anim_fuel 0) 3 demo4)).
Proof.
  assert (Hinv : slider_inv 0 demo4)
    by exact (slider_reachable_inv 0 demo4 demo4_reachable demo4_distinct).
  assert (Hidle : isAnimated demo4 = false) by reflexivity.
  assert (Hj : 0 <= 3 < len (sl demo4)) by by_eval.
  assert (Hne : 3 <> selectedSlide demo4) by (vm_compute; discriminate).
  split; [exact Hinv|]. split; [exact Hidle|]. split; [exact Hj|]. split; [exact Hne|].
  exact (slideTo_plan_shortest 0 0 3 demo4 Hinv Hidle Hj Hne).
Defined.

Lemma demo1_reachable : reachable 0 demo1.
Proof. apply (reach_init (demo_items 1)). vm_compute. reflexivity. Qed.

Lemma demo2_reachable : reachable 0 demo2.
Proof. apply (reach_init (demo_items 2)). vm_compute. reflexivity. Qed.

Lemma single_item_inert_witness :
  handle 40 (RightScrollerClick 1) demo1 = Some demo1 \/
  handle 40 (RightScrollerClick 1) demo1 = None.
Proof.
  apply (single_item_inert 0 40 (RightScrollerClick 1) demo1 demo1_reachable);
    [decide_eval | reflexivity].
Defined.

Lemma two_items_arrows_forward_witness :
  exists s1, handle 10 (LeftScrollerClick 1) demo2 = Some s1 /\ isAnimated s1 = true /\
    times s1 = 1 /\ rightToLeftFlag s1 = true /\ (duration (mainAnimation s1) == 300)%Q /\
    target s1 = 1 - selectedSlide demo2.
Proof.
  apply (two_items_arrows_forward 0 10 (LeftScrollerClick 1) demo2 demo2_reachable);
    [decide_eval | reflexivity | reflexivity | lia | left; reflexivity].
Defined.

Lemma duplicate_item_empties_container_witness :
  let e := mkElem 7 120 80 in
  let s := default no_slider (createSliderFromHTMLElementArray [e; e]) in
  let s' := default no_slider (handle 0 (IndicatorClick 1 1) s) in
  children (containerCurrent s') = [] /\ children (containerNext s') = [node e].
Proof.
  intros e s s'.
  apply (duplicate_item_empties_container 0 e [] s s'); vm_compute; reflexivity.
Defined.

Lemma cancel_does_not_stop_transition_witness :
  exists s', handle 150 AnimationFrame
               (set_mainAnimation (cancel (mainAnimation demo4_sliding)) demo4_sliding) = Some s' /\
    handle 150 AnimationFrame demo4_sliding = Some s' /\
    isAnimated s' = true /\ cancelled (mainAnimation s') = false /\
    frames (mainAnimation s') = 1%nat /\ times s' = times demo4_sliding - 1.
Proof.
  apply (cancel_does_not_stop_transition 0 150 demo4_sliding demo4_sliding_reachable
           demo4_sliding_distinct); vm_compute; first [reflexivity | discriminate].
Defined.

End Slider.
