(* ===== verification/Carousel.v ===== *)
(** * Carousel: the slider's navigation contract and its refinement

    Section 4.2 of the specification describes the slider as a machine
    over circular indices: idle on an index, or sliding, with the index
    already committed for the step in flight, the index clicked, a
    direction and the number of single steps still pending (the one in
    flight included).  [cstep] is that machine: a navigation request
    [cs_go] plans [min(fwd, bwd)] steps in the direction that is
    forward exactly when [2 fwd <= N] and commits the first step; the
    end of a step either launches the next one ([cs_next]) or, on the
    target, releases the lock ([cs_done]).  The file proves the
    machine's own properties (its states stay well formed, a request
    reaches its target after exactly the planned number of steps) and
    that [Slider.handle] refines it through [alpha]: every page event
    leaves the abstract state as it is or makes one [cstep]. *)

From Stdlib Require Import Relations.
From S2P Require Import Prelude Animation Slider.

Import Anim Slider.
Local Open Scope Z_scope.

Module Carousel.

(** ** The abstract machine *)

Inductive cstate : Type :=
| Idle (sel : Z)
| Sliding (sel target : Z) (forward : bool) (pending : Z).

#[export] Instance cstate_eq_dec : EqDecision cstate.
Proof. solve_decision. Defined.

(** The step of a direction: forward is [+1]. *)
Definition sign (forward : bool) : Z := if forward then 1 else -1.

Section Machine.
Variable N : Z.

(** The plan of a request from [sel] to [j]: the direction, the first
    step committed, and the steps to run. *)
Definition plan (sel j : Z) : cstate :=
  let fwd := (j - sel) mod N in
  let bwd := (sel - j) mod N in
  let forward := 2 * fwd <=? N in
  Sliding ((sel + sign forward) mod N) j forward (Z.min fwd bwd).

Inductive cstep : cstate -> cstate -> Prop :=
| cs_go (sel j : Z) :
    0 <= j < N -> j <> sel -> cstep (Idle sel) (plan sel j)
| cs_next (sel j : Z) (f : bool) (k : Z) :
    1 < k -> cstep (Sliding sel j f k) (Sliding ((sel + sign f) mod N) j f (k - 1))
| cs_done (j : Z) (f : bool) :
    cstep (Sliding j j f 1) (Idle j).

(** The end of the step in flight, as a function. *)
Definition step_done (c : cstate) : option cstate :=
  match c with
  | Idle _ => None
  | Sliding sel j f k =>
      if 1 <? k then Some (Sliding ((sel + sign f) mod N) j f (k - 1))
      else if (k =? 1) && (sel =? j) then Some (Idle j)
      else None
  end.

(** [n] ends of steps in a row. *)
Fixpoint steps_done (n : nat) (c : cstate) : option cstate :=
  match n with
  | O => Some c
  | S n' => step_done c ≫= steps_done n'
  end.

(** Well-formed states: indices in range and, while sliding, the
    pending steps from the committed index end on the target. *)
Definition cwf (c : cstate) : Prop :=
  match c with
  | Idle sel => 0 <= sel < N
  | Sliding sel j f k =>
      0 <= sel < N /\ 0 <= j < N /\ 1 <= k /\ (sel + sign f * (k - 1)) mod N = j
  end.

End Machine.

(** ** The abstraction of a slider *)

(** The logical fields of the slider object, read as a [cstate]; the
    target is where the pending steps lead. *)
Definition alpha (s : slider) : cstate :=
  if isAnimated s
  then Sliding (selectedSlide s) (target s) (rightToLeftFlag s) (times s)
  else Idle (selectedSlide s).

(** The page events [evs], each at its instant, one after the other. *)
Fixpoint run_slider (evs : list (Z * event)) (s : slider) : option slider :=
  match evs with
  | [] => Some s
  | (t, e) :: evs' => handle t e s ≫= run_slider evs'
  end.

(** ** The machine keeps its states well formed *)

Lemma sign_cases (f : bool) : sign f = 1 \/ sign f = -1.
Proof. destruct f; auto. Qed.

Lemma plan_wf (N sel j : Z) :
  0 <= sel < N -> 0 <= j < N -> j <> sel -> cwf N (plan N sel j).
Proof.
  intros Hs Hj Hne. unfold plan, cwf, sign.
  destruct (slide_plan N sel j Hs Hj (not_eq_sym Hne)) as (Hk1 & Hk2 & Hland). cbv zeta in *.
  set (m := if 2 * ((j - sel) mod N) <=? N then 1 else -1) in *.
  assert (Hm : m = 1 \/ m = -1) by (unfold m; destruct (_ <=? _); auto).
  pose proof (Z.mod_pos_bound (sel + m) N ltac:(lia)).
  set (k := Z.min _ _) in *.
  split_and!; try lia.
  rewrite Zplus_mod_idemp_l. transitivity ((sel + m * k) mod N); [f_equal; lia|exact Hland].
Qed.

Lemma cstep_wf (N : Z) (c c' : cstate) : cwf N c -> cstep N c c' -> cwf N c'.
Proof.
  intros Hc Hs. destruct Hs as [sel j Hj Hne|sel j f k Hk|j f]; simpl in Hc.
  - apply plan_wf; lia.
  - destruct Hc as (Hs & Hj & Hk1 & Hland). pose proof (sign_cases f).
    pose proof (Z.mod_pos_bound (sel + sign f) N ltac:(lia)).
    split_and!; try lia.
    rewrite Zplus_mod_idemp_l, <- Hland. f_equal. lia.
  - simpl. lia.
Qed.

(** A well-formed sliding state ends its step by one [cstep]. *)
Lemma step_done_cstep (N sel j : Z) (f : bool) (k : Z) :
  cwf N (Sliding sel j f k) ->
  exists c', step_done N (Sliding sel j f k) = Some c' /\ cstep N (Sliding sel j f k) c'.
Proof.
  intros (Hs & Hj & Hk & Hland). simpl.
  destruct (1 <? k) eqn:E; qbool.
  - eexists. split; [reflexivity|]. now constructor.
  - assert (k = 1) by lia. subst k.
    rewrite Z.mul_0_r, Z.add_0_r, Z.mod_small in Hland by lia. subst j.
    rewrite Z.eqb_refl, Z.eqb_refl. eexists. split; [reflexivity|constructor].
Qed.

Lemma step_done_more (N sel j : Z) (f : bool) (k : Z) :
  1 < k -> step_done N (Sliding sel j f k) = Some (Sliding ((sel + sign f) mod N) j f (k - 1)).
Proof. intros Hk. simpl. now rewrite (proj2 (Z.ltb_lt 1 k) Hk). Qed.

(** A well-formed sliding state reaches its target after exactly its
    pending steps. *)
Lemma sliding_completes (N : Z) (n : nat) (sel j : Z) (f : bool) :
  cwf N (Sliding sel j f (Z.of_nat (S n))) ->
  steps_done N (S n) (Sliding sel j f (Z.of_nat (S n))) = Some (Idle j).
Proof.
  induction n as [|n IH] in sel |- *; intros Hc.
  - change (Z.of_nat 1) with 1 in *.
    destruct (step_done_cstep N sel j f 1 Hc) as (c' & Hd & Hs).
    cbn [steps_done]. rewrite Hd. simpl. inversion Hs; subst; [lia|reflexivity].
  - cbn [steps_done]. rewrite step_done_more by lia. cbn [mbind option_bind].
    replace (Z.of_nat (S (S n)) - 1) with (Z.of_nat (S n)) by lia.
    apply IH. apply (cstep_wf N (Sliding sel j f (Z.of_nat (S (S n))))); [exact Hc|].
    replace (Z.of_nat (S n)) with (Z.of_nat (S (S n)) - 1) by lia. constructor. lia.
Qed.

(** ** The slider's fields after each handler *)

Lemma slideTo_selected (t now j : Z) (s : slider) :
  slider_inv t s -> 0 <= j < len (sl s) -> j <> selectedSlide s ->
  selectedSlide (slideTo (run anim_fuel now) j s) =
  (selectedSlide s + sign (2 * ((j - selectedSlide s) mod len (sl s)) <=? len (sl s)))
    mod len (sl s).
Proof.
  intros ((Hn & _) & Hsel & _) Hj Hne.
  change anim_fuel with (S 1). rewrite slideTo_result. cbv zeta.
  unfold set_carouselLeft, with_dom. cbn -[trunc].
  rewrite (trunc_mod (sl s) (j - selectedSlide s)) by lia. rewrite half_le_bool.
  unfold sign. destruct (_ <=? _); apply trunc_mod; lia.
Qed.

(** The abstraction reads only the logical fields. *)
Lemma alpha_fields (s s' : slider) :
  len (sl s') = len (sl s) -> isAnimated s' = isAnimated s -> selectedSlide s' = selectedSlide s ->
  rightToLeftFlag s' = rightToLeftFlag s -> times s' = times s -> alpha s' = alpha s.
Proof.
  intros E1 E2 E3 E4 E5. unfold alpha, target, rightToLeftMultiplier.
  rewrite E1, E2, E3, E4, E5. reflexivity.
Qed.

Lemma sl_slideTo (now j : Z) (s : slider) : sl (slideTo (run anim_fuel now) j s) = sl s.
Proof. change anim_fuel with (S 1). rewrite slideTo_result. reflexivity. Qed.

(** ** Each handler refines the machine *)

Lemma click_refines (t now which j : Z) (s : slider) :
  slider_inv t s -> 0 <= j < len (sl s) ->
  let s' := onClickAction (run anim_fuel now) which j s in
  s' = s \/ cstep (len (sl s)) (alpha s) (alpha s').
Proof.
  intros Hinv Hj. cbv zeta. unfold onClickAction.
  destruct (negb (which =? 1) || (selectedSlide s =? j) || isAnimated s) eqn:E;
    [now left|right].
  apply orb_false_iff in E as [E Hidle]. apply orb_false_iff in E as [_ Hsj].
  apply Z.eqb_neq in Hsj.
  destruct (slideTo_fields t now j s Hinv Hidle Hj (not_eq_sym Hsj)) as (Ha & Ht & Hr & _ & Htg).
  replace (alpha (slideTo _ j s)) with (plan (len (sl s)) (selectedSlide s) j).
  - unfold alpha. rewrite Hidle. constructor; [exact Hj|exact (not_eq_sym Hsj)].
  - unfold alpha, plan. rewrite Ha, Ht, Hr, Htg, (slideTo_selected t); auto.
Qed.

Lemma target_last (s : slider) :
  0 <= selectedSlide s < len (sl s) -> isAnimated s = true -> times s = 1 ->
  target s = selectedSlide s.
Proof.
  intros Hs Han Ht. unfold target. rewrite Han, Ht, Z.mul_0_r, Z.add_0_r.
  apply Z.mod_small. exact Hs.
Qed.

Lemma frame_refines (t now : Z) (s s' : slider) :
  slider_inv t s -> frame anim_fuel now s = Some s' ->
  alpha s' = alpha s \/ cstep (len (sl s)) (alpha s) (alpha s').
Proof.
  intros Hinv Hfr'. pose proof Hinv as ((Hn & _) & Hsel & Hpa & Hca & Hcy & Hrf & Hcls & Hrest).
  destruct (isAnimated s) eqn:Han.
  - destruct Hrest as (Hn2 & Htm & Hfr & _).
    destruct (Qle_bool 1 (progress (tick now (mainAnimation s)))) eqn:Hq.
    + change anim_fuel with (S 1) in Hfr'.
      destruct (frame_finished_result 1 now s Hfr Hpa Hcy Hq) as (a0 & _ & _ & _ & _ & _ & E).
      rewrite E in Hfr'. apply some_eq in Hfr'. subst s'. right.
      destruct (Z.eq_dec (times s) 1) as [H1|H1].
      * rewrite onFinish_last_result by (cbn; lia). unfold alpha at 1. rewrite Han.
        rewrite (target_last s Hsel Han H1), H1. constructor.
      * rewrite onFinish_more_result by (cbn; lia). cbv zeta.
        unfold alpha, target, rightToLeftMultiplier. cbn -[trunc]. rewrite Han.
        rewrite target_advance by (destruct (rightToLeftFlag s); lia).
        rewrite trunc_mod by (destruct (rightToLeftFlag s); lia).
        apply (cs_next (len (sl s)) (selectedSlide s) _ (rightToLeftFlag s) (times s)). lia.
    + rewrite (frame_unfinished_result _ _ _ Hfr Hpa Hca Hq) in Hfr'.
      apply some_eq in Hfr'. subst s'. left. reflexivity.
  - destruct Hrest as (_ & Hfr & _). unfold frame in Hfr'. cbn [host_anim slider_host] in Hfr'.
    unfold take_frame in Hfr'. rewrite Hfr in Hfr'. discriminate.
Qed.

(** The abstraction of a slider satisfying the invariant is well formed. *)
Lemma alpha_wf (t : Z) (s : slider) : slider_inv t s -> cwf (len (sl s)) (alpha s).
Proof.
  intros ((Hn & _) & Hsel & _ & _ & _ & _ & _ & Hrest). unfold alpha, cwf.
  destruct (isAnimated s) eqn:Han; [|exact Hsel].
  destruct Hrest as (Hn2 & Htm & _). unfold target. rewrite Han.
  split_and!; try lia; try apply Z.mod_pos_bound; try lia.
  unfold sign, rightToLeftMultiplier. reflexivity.
Qed.

Lemma handle_refines_step (t now : Z) (e : event) (s s' : slider) :
  slider_inv t s -> handle now e s = Some s' ->
  alpha s' = alpha s \/ cstep (len (sl s)) (alpha s) (alpha s').
Proof.
  intros Hinv He. destruct e as [j which|which|which|]; unfold handle in He; cbv zeta in He.
  - destruct ((0 <=? j) && (j <? len (sl s))) eqn:E; [|discriminate].
    apply andb_true_iff in E as [E1 E2]. qbool. apply some_eq in He. subst s'.
    destruct (click_refines t now which j s Hinv) as [->|H]; auto.
  - apply some_eq in He. subst s'.
    destruct (click_refines t now which (trunc (sl s) (selectedSlide s - 1)) s Hinv)
      as [->|H]; auto.
    replace (selectedSlide s - 1) with (selectedSlide s + -1) by lia.
    eapply arrow_target_range; eauto.
  - apply some_eq in He. subst s'.
    destruct (click_refines t now which (trunc (sl s) (selectedSlide s + 1)) s Hinv)
      as [->|H]; auto.
    eapply arrow_target_range; eauto.
  - exact (frame_refines t now s s' Hinv He).
Qed.

(** C12: the slider refines the navigation contract: every page event
    either leaves the abstract state (idle index, or committed index,
    target, direction and pending steps) as it is or makes one step of
    the machine of Section 4.2, and the abstract state stays well
    formed. *)
Theorem handle_refines (t now : Z) (e : event) (s s' : slider) :
  reachable t s -> distinct_items (sl s) -> t <= now -> handle now e s = Some s' ->
  (alpha s' = alpha s \/ cstep (len (sl s)) (alpha s) (alpha s')) /\
  cwf (len (sl s)) (alpha s').
Proof.
  intros Hr Hd Ht He. pose proof (slider_reachable_inv t s Hr Hd) as Hinv.
  split; [exact (handle_refines_step t now e s s' Hinv He)|].
  rewrite <- (sl_handle now e s s' He).
  apply (alpha_wf now). eapply inv_handle; eauto.
Qed.

(** Over any sequence of events at non-decreasing instants the
    abstract states of the slider form a path of the machine. *)
Lemma run_slider_refines (evs : list (Z * event)) (t : Z) (s s' : slider) :
  reachable t s -> distinct_items (sl s) -> Sorted Z.le (t :: map fst evs) ->
  run_slider evs s = Some s' ->
  sl s' = sl s /\ clos_refl_trans cstate (cstep (len (sl s))) (alpha s) (alpha s').
Proof.
  induction evs as [|[t1 e] evs IH] in t, s |- *; simpl; intros Hr Hd Hs Hrun.
  - apply some_eq in Hrun. subst. split; [reflexivity|apply rt_refl].
  - destruct (handle t1 e s) as [s1|] eqn:He; [|discriminate]. simpl in Hrun.
    apply Sorted_inv in Hs as [Hs Hhd]. inversion Hhd; subst.
    pose proof (sl_handle t1 e s s1 He) as Hsl.
    destruct (IH t1 s1) as [Hsl' Hpath]; auto.
    + exact (reach_step t t1 e s s1 Hr H0 He).
    + rewrite Hsl. exact Hd.
    + split; [congruence|]. rewrite Hsl in Hpath.
      destruct (handle_refines_step t t1 e s s1 (slider_reachable_inv t s Hr Hd) He) as [E|E].
      * rewrite <- E. exact Hpath.
      * eapply rt_trans; [apply rt_step; exact E|exact Hpath].
Qed.

(** ** Witnesses *)

Lemma handle_refines_witness :
  (alpha demo4_sliding = alpha demo4 \/
   cstep (len (sl demo4)) (alpha demo4) (alpha demo4_sliding)) /\
  cwf (len (sl demo4)) (alpha demo4_sliding).
Proof.
  apply (handle_refines 0 0 (IndicatorClick 2 1) demo4 demo4_sliding);
    [exact demo4_reachable|exact demo4_distinct|lia|vm_compute; reflexivity].
Defined.

End Carousel.
