(* ===== verification/SliderDom.v ===== *)
(** * SliderDom: the document the slider constructor writes, and the demo page

    Lines 55-67 and 145-187 of Slider.js create the slider's own
    elements, register its click listeners, size it, give its elements
    their classes and append the tree to the element the slider is
    inserted into.  [dom] is the part of the document this code touches:
    a store of element nodes (tag, classes, parent, children, text,
    width and height), the next fresh node, and the click listeners of
    each node.  The construction is written in a small state monad over
    [dom] with stdpp's monad notation, one statement per line of the
    source.  [createSlider] is the whole constructor as the page calls
    it, with null entries, an insertion point that may not be an
    element, and the TypeErrors they raise; [dollar] and [window_onload]
    are lines 198-209.  [local_stmt] and [adds_nodes] are two small
    program logics over the monad (which nodes a statement may change,
    and how many it creates), with a bind rule and one rule per
    primitive.  The theorems give the tree the constructor builds,
    connect a click on any node to the step function [Slider.handle],
    describe the demo page's load, and show that the constructor's type
    checks never fire. *)

From S2P Require Import Prelude Animation Slider.

Import Anim Slider.
Local Open Scope Z_scope.
Local Open Scope string_scope.
Local Open Scope list_scope.

Module SliderDom.

(** ** Constants (lines 36-37) *)

Definition SLIDER_BUTTON_WIDTH : Z := 50.
Definition SLIDER_BOTTOM_BUTTONS_HEIGHT : Z := 30.

(** The text of a bottom indicator (line 149): the literal's bytes are
    the UTF-8 encoding of "â€¢" (U+00E2 U+20AC U+00A2), so read as
    UTF-8 the string holds these three UTF-16 code units. *)
Definition indicator_text : list Z := [226; 8364; 162].

(** ** The document *)

(** The listeners the constructor registers on "click".  Each arrow
    function closes over the [slider] object of its own constructor
    call, named here by that call's [divSlider] node; a bottom
    indicator's closure also holds the index [j] of lines 150-152, the
    scrollers' compute their target when clicked. *)
Inductive slistener : Type :=
| OnIndicator (self : nat) (j : Z)
| OnLeft (self : nat)
| OnRight (self : nat).

Definition owner (l : slistener) : nat :=
  match l with OnIndicator self _ | OnLeft self | OnRight self => self end.

Record dnode : Type := mkNode {
  tagName : string;
  classList : list string;
  parentNode : option nat;
  childNodes : list nat;
  textContent : list Z;
  styleWidth : option Z;    (** [style.width], px *)
  styleHeight : option Z    (** [style.height], px *)
}.

Record dom : Type := mkDom {
  store : gmap nat dnode;
  fresh : nat;
  clickListeners : gmap nat (list slistener)
}.

(** A statement of the constructor: it reads and changes the document. *)
Definition DomM (A : Type) : Type := dom -> A * dom.

#[export] Instance DomM_ret : MRet DomM := fun A x d => (x, d).
#[export] Instance DomM_bind : MBind DomM :=
  fun A B k m d => let '(x, d') := m d in k x d'.

Definition set_node (n : nat) (f : dnode -> dnode) (d : dom) : dom :=
  match store d !! n with
  | Some x => mkDom (<[n := f x]> (store d)) (fresh d) (clickListeners d)
  | None => d
  end.

Definition with_classes (cs : list string) (x : dnode) : dnode :=
  mkNode (tagName x) cs (parentNode x) (childNodes x) (textContent x) (styleWidth x) (styleHeight x).
Definition with_parent (p : option nat) (x : dnode) : dnode :=
  mkNode (tagName x) (classList x) p (childNodes x) (textContent x) (styleWidth x) (styleHeight x).
Definition with_children (ks : list nat) (x : dnode) : dnode :=
  mkNode (tagName x) (classList x) (parentNode x) ks (textContent x) (styleWidth x) (styleHeight x).
Definition with_text (t : list Z) (x : dnode) : dnode :=
  mkNode (tagName x) (classList x) (parentNode x) (childNodes x) t (styleWidth x) (styleHeight x).
Definition with_width (w : Z) (x : dnode) : dnode :=
  mkNode (tagName x) (classList x) (parentNode x) (childNodes x) (textContent x) (Some w) (styleHeight x).
Definition with_height (h : Z) (x : dnode) : dnode :=
  mkNode (tagName x) (classList x) (parentNode x) (childNodes x) (textContent x) (styleWidth x) (Some h).

(** [document.createElement(tag)]: a new node, detached, without
    classes, children or style. *)
Definition createElement (tag : string) : DomM nat :=
  fun d => (fresh d, mkDom (<[fresh d := mkNode tag [] None [] [] None None]> (store d))
                          (S (fresh d)) (clickListeners d)).

(** [el.classList.add(c1, ..., ck)]: each class not already there is
    added at the end. *)
Definition add_classes (l cs : list string) : list string :=
  foldl (fun acc c => if decide (c ∈ acc) then acc else acc ++ [c]) l cs.

Definition classList_add (n : nat) (cs : list string) : DomM unit :=
  fun d => (tt, set_node n (fun x => with_classes (add_classes (classList x) cs) x) d).

(** [el.textContent = t]: the element's children are removed and it
    holds the text [t]. *)
Definition set_textContent (n : nat) (t : list Z) : DomM unit :=
  fun d =>
    let kids := default [] (childNodes <$> store d !! n) in
    let d1 := foldl (fun d k => set_node k (with_parent None) d) d kids in
    (tt, set_node n (fun x => with_text t (with_children [] x)) d1).

(** [el.style.width = w + "px"] and [el.style.height = h + "px"]. *)
Definition set_width (n : nat) (w : Z) : DomM unit :=
  fun d => (tt, set_node n (with_width w) d).

Definition set_height (n : nat) (h : Z) : DomM unit :=
  fun d => (tt, set_node n (with_height h) d).

(** [parent.appendChild(c)]: [c] leaves its former parent and becomes
    the last child of [parent]. *)
Definition appendChild (parent c : nat) : DomM unit :=
  fun d =>
    let old := mbind parentNode (store d !! c) in
    let d1 := match old with
              | Some p => set_node p (fun x => with_children (filter (fun k => k <> c) (childNodes x)) x) d
              | None => d
              end in
    let d2 := set_node c (with_parent (Some parent)) d1 in
    (tt, set_node parent (fun x => with_children (childNodes x ++ [c]) x) d2).

(** [el.addEventListener("click", f)] for a fresh closure [f]. *)
Definition addEventListener (n : nat) (f : slistener) : DomM unit :=
  fun d => (tt, mkDom (store d) (fresh d)
                  (<[n := default [] (clickListeners d !! n) ++ [f]]> (clickListeners d))).

(** ** The constructor's elements *)

(** The elements of lines 56-67 and the bottom indicators. *)
Record slider_nodes : Type := mkNodes {
  divSlider : nat;
  divMainPanelContainer : nat;
  divLeftScroller : nat;
  divRightScroller : nat;
  divCenterContainer : nat;
  divSlideMiddle : nat;
  divSlideMiddleData : nat;
  divSlideRight : nat;
  divSlideRightData : nat;
  spanLeftButton : nat;
  spanRightButton : nat;
  ulBottomButtons : nat;
  bottomButtons : list nat
}.

(** The loop of lines 146-154, from iteration [i] with [k] left, for
    the slider object [self]. *)
Fixpoint addBottomButtons (k i : nat) (self ul : nat) : DomM (list nat) :=
  match k with
  | O => mret []
  | S k' =>
      liBottomButton ← createElement "li";
      classList_add liBottomButton ["sliderBottomButton"];;
      set_textContent liBottomButton indicator_text;;
      addEventListener liBottomButton (OnIndicator self (Z.of_nat i));;
      appendChild ul liBottomButton;;
      rest ← addBottomButtons k' (S i) self ul;
      mret (liBottomButton :: rest)
  end.

(** Lines 145-186, on the elements [nd] of lines 56-67, for a slider
    of [len] items whose central container is [W] x [H]; the listeners
    close over the slider object of this call, named by [divSlider]. *)
Definition assembleSlider (len : nat) (W H : Z) (nd : slider_nodes) : DomM slider_nodes :=
  let 'mkNodes divSlider divMainPanelContainer divLeftScroller divRightScroller
         divCenterContainer divSlideMiddle divSlideMiddleData divSlideRight
         divSlideRightData spanLeftButton spanRightButton ulBottomButtons _ := nd in
  lis ← addBottomButtons len 0 divSlider ulBottomButtons;
  addEventListener divLeftScroller (OnLeft divSlider);;
  addEventListener divRightScroller (OnRight divSlider);;
  set_width divSlider (W + 2 * SLIDER_BUTTON_WIDTH);;
  set_height divSlider (H + SLIDER_BOTTOM_BUTTONS_HEIGHT);;
  classList_add divLeftScroller ["sliderScroller"];;
  classList_add divRightScroller ["sliderScroller"];;
  classList_add divSlideMiddle ["slide"];;
  classList_add divSlideRight ["slide"];;
  classList_add divSlideMiddleData ["slideData"];;
  classList_add divSlideRightData ["slideData"];;
  classList_add divCenterContainer ["sliderCenterContainer"];;
  classList_add divMainPanelContainer ["sliderMainPanelContainer"];;
  classList_add spanLeftButton ["sliderScrollerButton"; "buttonLeft"];;
  classList_add spanRightButton ["sliderScrollerButton"; "buttonRight"];;
  classList_add ulBottomButtons ["sliderBottomButtons"];;
  classList_add divSlider ["slider"];;
  appendChild divLeftScroller spanLeftButton;;
  appendChild divRightScroller spanRightButton;;
  appendChild divSlideMiddle divSlideMiddleData;;
  appendChild divSlideRight divSlideRightData;;
  appendChild divCenterContainer divSlideMiddle;;
  appendChild divCenterContainer divSlideRight;;
  appendChild divMainPanelContainer divLeftScroller;;
  appendChild divMainPanelContainer divCenterContainer;;
  appendChild divMainPanelContainer divRightScroller;;
  appendChild divSlider divMainPanelContainer;;
  appendChild divSlider ulBottomButtons;;
  mret (mkNodes divSlider divMainPanelContainer divLeftScroller divRightScroller
          divCenterContainer divSlideMiddle divSlideMiddleData divSlideRight
          divSlideRightData spanLeftButton spanRightButton ulBottomButtons lis).

(** Lines 55-67, then [assembleSlider]: the slider's elements, built
    detached from the document.  The slider object of lines 69-143
    refers to these elements but does not change the document. *)
Definition buildSliderNodes (len : nat) (W H : Z) : DomM slider_nodes :=
  divSlider ← createElement "div";
  divMainPanelContainer ← createElement "div";
  divLeftScroller ← createElement "div";
  divRightScroller ← createElement "div";
  divCenterContainer ← createElement "div";
  divSlideMiddle ← createElement "div";
  divSlideMiddleData ← createElement "div";
  divSlideRight ← createElement "div";
  divSlideRightData ← createElement "div";
  spanLeftButton ← createElement "span";
  spanRightButton ← createElement "span";
  ulBottomButtons ← createElement "ul";
  assembleSlider len W H
    (mkNodes divSlider divMainPanelContainer divLeftScroller divRightScroller
       divCenterContainer divSlideMiddle divSlideMiddleData divSlideRight
       divSlideRightData spanLeftButton spanRightButton ulBottomButtons []).

(** Lines 55-187: the constructor's document work when the insertion
    point [HTMLElementInsertInto] is an element; line 187 attaches the
    subtree to it. *)
Definition buildSliderDom (len : nat) (W H : Z) (HTMLElementInsertInto : nat)
    : DomM slider_nodes :=
  nd ← buildSliderNodes len W H;
  appendChild HTMLElementInsertInto (divSlider nd);;
  mret nd.

(** ** Reading the document *)

(** The subtree under a node, as nested elements. *)
Local Set Warnings "-register-all".
Inductive tree : Type :=
| Elem (tag : string) (classes : list string) (text : list Z)
       (width height : option Z) (kids : list tree).

Fixpoint render (fuel : nat) (st : gmap nat dnode) (n : nat) : option tree :=
  match fuel with
  | O => None
  | S f =>
      x ← st !! n;
      kids ← mapM (render f st) (childNodes x);
      mret (Elem (tagName x) (classList x) (textContent x) (styleWidth x) (styleHeight x) kids)
  end.

(** The node and its ancestors, innermost first: the path a click
    bubbles along. *)
Fixpoint ancestors (fuel : nat) (st : gmap nat dnode) (n : nat) : list nat :=
  match fuel with
  | O => []
  | S f => n :: match mbind parentNode (st !! n) with
                | Some p => ancestors f st p
                | None => []
                end
  end.

(** The bodies of the three arrow functions of lines 151, 155 and 156,
    on the page's slider objects [objs] (by the node that names them):
    each calls [onClickAction] of the slider it closes over. *)
Definition call_listener (now which : Z) (l : slistener) (objs : gmap nat slider)
    : gmap nat slider :=
  let run := Anim.run anim_fuel now in
  match l with
  | OnIndicator self j => alter (onClickAction run which j) self objs
  | OnLeft self =>
      alter (fun s => onClickAction run which (trunc (sl s) (selectedSlide s - 1)) s) self objs
  | OnRight self =>
      alter (fun s => onClickAction run which (trunc (sl s) (selectedSlide s + 1)) s) self objs
  end.

(** The click listeners a click on node [n] reaches, in bubbling order. *)
Definition click_path (d : dom) (n : nat) : list slistener :=
  mjoin ((fun m => default [] (clickListeners d !! m)) <$> ancestors 8 (store d) n).

(** A click on node [n] with button [which] at instant [now]. *)
Definition dispatch_click (now which : Z) (d : dom) (n : nat) (objs : gmap nat slider)
    : gmap nat slider :=
  foldl (fun objs l => call_listener now which l objs) objs (click_path d n).

(** The document the demo page starts from: the body, detached from
    any listener, as node 0. *)
Definition body_node : dnode := mkNode "body" [] None [] [] None None.
Definition page0 : dom := mkDom {[0%nat := body_node]} 1 ∅.
Definition body : nat := 0.

(** The subtree lines 55-187 build for [len] items in a [W] x [H]
    central container. *)
Definition leaf (tag : string) (cs : list string) : tree := Elem tag cs [] None None [].
Definition panel (cs : list string) (kids : list tree) : tree := Elem "div" cs [] None None kids.

Definition slider_tree (len : nat) (W H : Z) : tree :=
  Elem "div" ["slider"] [] (Some (W + 2 * SLIDER_BUTTON_WIDTH))
       (Some (H + SLIDER_BOTTOM_BUTTONS_HEIGHT))
    [panel ["sliderMainPanelContainer"]
       [panel ["sliderScroller"] [leaf "span" ["sliderScrollerButton"; "buttonLeft"]];
        panel ["sliderCenterContainer"]
          [panel ["slide"] [leaf "div" ["slideData"]];
           panel ["slide"] [leaf "div" ["slideData"]]];
        panel ["sliderScroller"] [leaf "span" ["sliderScrollerButton"; "buttonRight"]]];
     Elem "ul" ["sliderBottomButtons"] [] None None
       (replicate len (Elem "li" ["sliderBottomButton"] indicator_text None None []))].


(** The listener each node of the constructed subtree is meant to carry:
    the left scroller and its button go back one slide, the right ones
    forward, the [i]-th bottom indicator to slide [i]. *)
Definition node_listener (nd : slider_nodes) (k : nat) : option slistener :=
  if decide (k = divLeftScroller nd \/ k = spanLeftButton nd) then Some (OnLeft (divSlider nd))
  else if decide (k = divRightScroller nd \/ k = spanRightButton nd)
  then Some (OnRight (divSlider nd))
  else (fun '(i, _) => OnIndicator (divSlider nd) (Z.of_nat i)) <$>
         list_find (fun m => m = k) (bottomButtons nd).

(** The page event of [Slider.handle] a listener stands for. *)
Definition listener_event (l : slistener) (which : Z) : event :=
  match l with
  | OnIndicator _ j => IndicatorClick j which
  | OnLeft _ => LeftScrollerClick which
  | OnRight _ => RightScrollerClick which
  end.

(** The step of the page's slider objects a listener stands for: the
    step [Slider.handle] takes on its event, applied to its owner. *)
Definition step_listener (now which : Z) (l : slistener) (objs : gmap nat slider)
    : option (gmap nat slider) :=
  match objs !! owner l with
  | Some s => (fun s' => <[owner l := s']> objs) <$> handle now (listener_event l which) s
  | None => None
  end.

(** On a page holding several sliders, the listener a node carries:
    that of the first slider the node belongs to. *)
Definition page_listener (nds : list slider_nodes) (k : nat) : option slistener :=
  head (omap (fun nd => node_listener nd k) nds).

(** ** The constructor as the page calls it, and the demo page *)

(** How a call ends: normally with a value, or by a thrown TypeError. *)
Inductive completion (A : Type) : Type :=
| Normal (v : A)
| Thrown.
Arguments Normal {A} v.
Arguments Thrown {A}.

(** Sequencing of statements that may throw: a throw skips the rest. *)
Definition try_bind {A B : Type} (m : DomM (completion A)) (k : A -> DomM (completion B))
    : DomM (completion B) :=
  x ← m; match x with Normal a => k a | Thrown => mret Thrown end.

(** An argument as JavaScript sees it: an element (an object) or null. *)
Definition js_value {A : Type} (x : option A) : jsval :=
  match x with Some _ => JObj | None => JNull end.

(** [createSliderFromHTMLElementArray(HTMLElementArray, HTMLElementInsertInto)]
    with the arguments as the page passes them: each entry an element
    or null ([None]), and the insertion point an element or a value
    that has no [appendChild] ([None]: null, undefined).  The checks of
    lines 15-28 ([Slider.negated_instanceof]) never fire on a null.
    Line 41 keeps ten entries; a null among them makes [x.offsetWidth]
    throw on line 48.  Otherwise the constructor builds its elements
    (lines 55-186) and the slider object ([Slider.make_slider]), and
    line 187 attaches the subtree, or throws when the insertion point
    is not an element. *)
Definition createSlider (HTMLElementArray : list (option elem))
    (HTMLElementInsertInto : option nat) : DomM (completion (option slider)) :=
  if negated_instanceof JObj || (length HTMLElementArray =? 0)%nat then mret (Normal None)
  else if negated_instanceof (js_value HTMLElementInsertInto) then mret (Normal None)
  else if existsb (fun x => negated_instanceof (js_value x)) HTMLElementArray
  then mret (Normal None)
  else match mapM id (firstn MAX_CAROUSEL_LENGTH HTMLElementArray) with
       | None => mret Thrown
       | Some used =>
           let s := make_slider used in
           nd ← buildSliderNodes (length used) (mainContainerWidth (sl s))
                  (mainContainerHeight (sl s));
           match HTMLElementInsertInto with
           | Some host => appendChild host (divSlider nd);; mret (Normal (Some s))
           | None => mret Thrown
           end
       end.

(** [$(id)] (lines 198-200): [document.getElementById(id)], null when
    the page has no element with that id. *)
Definition dollar (doc : gmap string elem) (id : string) : option elem := doc !! id.

Definition elems1_ids : list string :=
  ["img0"; "img1"; "p2"; "ul3"; "img4"; "img5"; "img6"; "img7"; "img8"; "div9"; "eleventh"].

(** [window.onload] (lines 202-209) on a page whose elements by id are
    [doc]; the result is [(slider1, slider3, slider2)]. *)
Definition window_onload (doc : gmap string elem)
    : DomM (completion (option slider * option slider * option slider)) :=
  let elems1 := dollar doc <$> elems1_ids in
  let elems2 := [dollar doc "loneImage"] in
  try_bind (createSlider [] (Some body)) (fun slider1 =>
  try_bind (createSlider elems1 (Some body)) (fun slider3 =>
  try_bind (createSlider elems2 (Some body)) (fun slider2 =>
  mret (Normal (slider1, slider3, slider2))))).

(** A page for the demo: the eleven elements of [elems1] and the lone
    image, with their node identities and rendered sizes. *)
Definition demo_es : list elem :=
  [mkElem 100 320 240; mkElem 101 320 240; mkElem 102 300 80; mkElem 103 250 120;
   mkElem 104 320 240; mkElem 105 640 480; mkElem 106 320 240; mkElem 107 320 240;
   mkElem 108 100 100; mkElem 109 280 150].
Definition demo_lone : elem := mkElem 120 150 90.
Definition demo_doc : gmap string elem :=
  list_to_map (zip elems1_ids (demo_es ++ [mkElem 110 500 500]) ++ [("loneImage", demo_lone)]).

#[export] Instance slistener_eq_dec : EqDecision slistener.
Proof. solve_decision. Defined.

(** ** Locality of the construction *)

(** A document whose fresh counter is past every node. *)
Definition dom_wf (d : dom) : Prop := forall n, (fresh d <= n)%nat -> store d !! n = None.

(** A node that points only at nodes numbered from [f0] on. *)
Definition node_local (f0 : nat) (x : dnode) : Prop :=
  (forall p, parentNode x = Some p -> (f0 <= p)%nat) /\
  Forall (fun k => (f0 <= k)%nat) (childNodes x).

(** The nodes created since the counter read [f0] form a part of the
    document of their own: none of them points at an older node. *)
Definition local_from (f0 : nat) (d : dom) : Prop :=
  (f0 <= fresh d)%nat /\ dom_wf d /\
  forall n x, (f0 <= n)%nat -> store d !! n = Some x -> node_local f0 x.

(** [d'] holds the nodes older than [f0] exactly as [d] does. *)
Definition keeps_below (f0 : nat) (d d' : dom) : Prop :=
  forall n, (n < f0)%nat -> store d' !! n = store d !! n.

(** A statement that works only on the nodes created from [f0] on: it
    keeps them a part of their own, leaves every older node as it was,
    and returns a value satisfying [P]. *)
Definition local_stmt {A : Type} (f0 : nat) (P : A -> Prop) (m : DomM A) : Prop :=
  forall d, local_from f0 d ->
    local_from f0 (snd (m d)) /\ P (fst (m d)) /\ keeps_below f0 d (snd (m d)).

(** A statement that creates [k] nodes. *)
Definition adds_nodes {A : Type} (k : nat) (m : DomM A) : Prop :=
  forall d, fresh (snd (m d)) = (fresh d + k)%nat.

(** ** Dispatch lemmas *)

Lemma dispatch_single (now which : Z) (d : dom) (k : nat) (l : slistener)
    (objs : gmap nat slider) :
  click_path d k = [l] -> dispatch_click now which d k objs = call_listener now which l objs.
Proof. unfold dispatch_click. intros ->. reflexivity. Qed.

Lemma dispatch_none (now which : Z) (d : dom) (k : nat) (objs : gmap nat slider) :
  click_path d k = [] -> dispatch_click now which d k objs = objs.
Proof. unfold dispatch_click. intros ->. reflexivity. Qed.

Lemma alter_lookup_Some {A : Type} (f : A -> A) (m : gmap nat A) (i : nat) (x : A) :
  m !! i = Some x -> alter f i m = <[i := f x]> m.
Proof.
  intros Hx. apply map_eq. intros j. destruct (decide (i = j)) as [<-|Hne]; by simplify_map_eq.
Qed.

(** A listener's body is the step [Slider.handle] takes on its event,
    applied to the slider it closes over, when the indicator it names
    exists. *)
Lemma call_listener_handle (now which : Z) (l : slistener) (objs : gmap nat slider) (s : slider) :
  objs !! owner l = Some s ->
  (forall o j, l = OnIndicator o j -> 0 <= j < len (sl s)) ->
  Some (call_listener now which l objs) = step_listener now which l objs.
Proof.
  intros Ho Hj. unfold step_listener. rewrite Ho.
  destruct l as [o j|o|o]; unfold call_listener, listener_event, handle; cbv zeta;
    cbn [owner] in Ho; rewrite (alter_lookup_Some _ _ _ _ Ho); try reflexivity.
  destruct (Hj o j eq_refl) as [H0 H1].
  apply Z.leb_le in H0. apply Z.ltb_lt in H1. rewrite H0, H1. reflexivity.
Qed.

Lemma node_listener_owner (nd : slider_nodes) (k : nat) (l : slistener) :
  node_listener nd k = Some l -> owner l = divSlider nd.
Proof.
  unfold node_listener. case_decide; [intros [= <-]; reflexivity|].
  case_decide; [intros [= <-]; reflexivity|].
  destruct (list_find _ _) as [[i m]|]; [intros [= <-]; reflexivity|discriminate].
Qed.

Lemma node_listener_indicator (nd : slider_nodes) (k : nat) (o : nat) (j : Z) :
  node_listener nd k = Some (OnIndicator o j) ->
  0 <= j < Z.of_nat (length (bottomButtons nd)).
Proof.
  unfold node_listener. case_decide; [discriminate|]. case_decide; [discriminate|].
  destruct (list_find _ _) as [[i m]|] eqn:Ef; [|discriminate].
  intros [= _ <-]. apply list_find_Some in Ef as (Hi & _ & _).
  apply lookup_lt_Some in Hi. lia.
Qed.

(** A click whose path carries at most the listener [ol] is the step
    that listener stands for, when its slider exists and its indicator
    index is in range. *)
Lemma dispatch_step (now which : Z) (d : dom) (k : nat) (objs : gmap nat slider)
    (ol : option slistener) :
  click_path d k = option_list ol ->
  (forall l, ol = Some l -> exists s, objs !! owner l = Some s /\
     forall o j, l = OnIndicator o j -> 0 <= j < len (sl s)) ->
  Some (dispatch_click now which d k objs) =
    match ol with Some l => step_listener now which l objs | None => Some objs end.
Proof.
  intros Hp Hol. destruct ol as [l|]; cbn in Hp.
  - destruct (Hol l eq_refl) as (s & Hs & Hj).
    rewrite (dispatch_single _ _ _ _ _ _ Hp). exact (call_listener_handle _ _ _ _ s Hs Hj).
  - rewrite (dispatch_none _ _ _ _ _ Hp). reflexivity.
Qed.

Lemma node_listener_ok (nd : slider_nodes) (k : nat) (objs : gmap nat slider) (s : slider)
    (l : slistener) :
  node_listener nd k = Some l -> objs !! divSlider nd = Some s ->
  len (sl s) = Z.of_nat (length (bottomButtons nd)) ->
  exists s', objs !! owner l = Some s' /\ forall o j, l = OnIndicator o j -> 0 <= j < len (sl s').
Proof.
  intros El Hs Hlen. exists s. rewrite (node_listener_owner _ _ _ El).
  split; [exact Hs|]. intros o j ->. apply node_listener_indicator in El. lia.
Qed.

Lemma page_listener_Some (nds : list slider_nodes) (k : nat) (l : slistener) :
  page_listener nds k = Some l -> exists nd, nd ∈ nds /\ node_listener nd k = Some l.
Proof.
  unfold page_listener. induction nds as [|nd nds IH]; cbn; [discriminate|].
  destruct (node_listener nd k) eqn:E; cbn.
  - intros [= <-]. exists nd. split; [left|exact E].
  - intros Hh. destruct (IH Hh) as (nd' & Hin & Hl). exists nd'. split; [right; exact Hin|exact Hl].
Qed.

Lemma create_len (es : list elem) (s : slider) :
  createSliderFromHTMLElementArray es = Some s ->
  len (sl s) = Z.of_nat (length (firstn MAX_CAROUSEL_LENGTH es)).
Proof. intros E. apply create_spec in E as [_ ->]. reflexivity. Qed.

(** The constructor, for each number of items it can be given, builds
    one bottom indicator per item and attaches to every node of the
    document the listener [node_listener] names, reached by bubbling. *)
Lemma build_paths (n : nat) (W H : Z) :
  (1 <= n <= 10)%nat ->
  let '(nd, d1) := buildSliderDom n W H body page0 in
  length (bottomButtons nd) = n /\
  forallb (fun k => bool_decide (click_path d1 k = option_list (node_listener nd k)))
    (seq 0 (fresh d1)) = true.
Proof. intros Hn. nat_cases n; vm_compute; split; reflexivity. Qed.

(** ** Construction and page-load lemmas *)

Lemma try_bind_normal {A B : Type} (m : DomM (completion A)) (k : A -> DomM (completion B))
    (d d' : dom) (a : A) :
  m d = (Normal a, d') -> try_bind m k d = k a d'.
Proof. intros Hm. unfold try_bind, mbind, DomM_bind. rewrite Hm. reflexivity. Qed.

Lemma try_bind_thrown {A B : Type} (m : DomM (completion A)) (k : A -> DomM (completion B))
    (d d' : dom) :
  m d = (Thrown, d') -> try_bind m k d = (Thrown, d').
Proof. intros Hm. unfold try_bind, mbind, DomM_bind. rewrite Hm. reflexivity. Qed.

Lemma mapM_fmap_id {A B : Type} (f : A -> option B) (l : list A) :
  mapM id (f <$> l) = mapM f l.
Proof. induction l as [|x l IH]; [reflexivity|]. cbn. rewrite IH. reflexivity. Qed.

Lemma mapM_None_elem {A B : Type} (f : A -> option B) (l : list A) (x : A) :
  x ∈ l -> f x = None -> mapM f l = None.
Proof.
  intros Hx Hf. induction l as [|y l IH]; [apply elem_of_nil in Hx; contradiction|].
  apply elem_of_cons in Hx as [->|Hx]; cbn; [rewrite Hf; reflexivity|].
  destruct (f y); cbn; [rewrite (IH Hx)|]; reflexivity.
Qed.

(** The entries the constructor keeps, looked up by id. *)
Lemma used_lookup (doc : gmap string elem) (ids : list string) :
  mapM id (firstn MAX_CAROUSEL_LENGTH (dollar doc <$> ids)) = mapM (dollar doc) (take 10 ids).
Proof. unfold MAX_CAROUSEL_LENGTH. rewrite <- fmap_take. apply mapM_fmap_id. Qed.

(** The checks of lines 15-28 let every non-empty array through. *)
Lemma createSlider_checks (arr : list (option elem)) (host : option nat) :
  arr <> [] ->
  createSlider arr host =
    match mapM id (firstn MAX_CAROUSEL_LENGTH arr) with
    | None => mret Thrown
    | Some used =>
        let s := make_slider used in
        nd ← buildSliderNodes (length used) (mainContainerWidth (sl s))
               (mainContainerHeight (sl s));
        match host with
        | Some h => appendChild h (divSlider nd);; mret (Normal (Some s))
        | None => mret Thrown
        end
    end.
Proof.
  intros Hne. unfold createSlider. rewrite !negated_instanceof_false, existsb_false by reflexivity.
  destruct arr; [contradiction|]. reflexivity.
Qed.

(** A constructor call that gets past its checks builds the slider's
    elements into the document and returns the slider. *)
Lemma createSlider_normal (arr : list (option elem)) (host : nat) (d : dom)
    (used : list elem) (s : slider) :
  arr <> [] -> mapM id (firstn MAX_CAROUSEL_LENGTH arr) = Some used ->
  createSliderFromHTMLElementArray used = Some s ->
  createSlider arr (Some host) d =
    (Normal (Some s), snd (buildSliderDom (length used) (mainContainerWidth (sl s))
                             (mainContainerHeight (sl s)) host d)).
Proof.
  intros Hne Hm Hc. rewrite createSlider_checks, Hm by exact Hne.
  assert (Hlen : (length used <= MAX_CAROUSEL_LENGTH)%nat).
  { apply mapM_Some, Forall2_length in Hm. rewrite <- Hm, length_firstn. lia. }
  rewrite (create_make _ _ Hc), firstn_all2 by exact Hlen.
  unfold buildSliderDom, mbind, DomM_bind. cbv zeta.
  destruct (buildSliderNodes _ _ _ d). destruct (appendChild _ _ _). reflexivity.
Qed.

(** A null among the kept entries throws before the document changes. *)
Lemma createSlider_throws (arr : list (option elem)) (host : option nat) (d : dom) :
  arr <> [] -> mapM id (firstn MAX_CAROUSEL_LENGTH arr) = None ->
  createSlider arr host d = (Thrown, d).
Proof. intros Hne Hm. rewrite createSlider_checks, Hm by exact Hne. reflexivity. Qed.

(** *** Rules of [local_stmt] *)

Lemma local_ret {A : Type} (f0 : nat) (P : A -> Prop) (x : A) :
  P x -> local_stmt f0 P (mret x).
Proof. intros Hx d Hd. split_and!; [exact Hd|exact Hx|intros n _; reflexivity]. Qed.

Lemma local_bind {A B : Type} (f0 : nat) (P : A -> Prop) (Q : B -> Prop)
    (m : DomM A) (k : A -> DomM B) :
  local_stmt f0 P m -> (forall x, P x -> local_stmt f0 Q (k x)) -> local_stmt f0 Q (m ≫= k).
Proof.
  intros Hm Hk d Hd. unfold mbind, DomM_bind. destruct (Hm d Hd) as (Hd1 & Hx & Hkeep1).
  destruct (m d) as [x d1]. cbn in *. destruct (Hk x Hx d1 Hd1) as (Hd2 & Hy & Hkeep2).
  split_and!; [exact Hd2|exact Hy|]. intros n Hn. rewrite Hkeep2, Hkeep1 by exact Hn. reflexivity.
Qed.

Lemma local_set_node (f0 n : nat) (f : dnode -> dnode) (d : dom) :
  (f0 <= n)%nat -> (forall x, node_local f0 x -> node_local f0 (f x)) ->
  local_from f0 d -> local_from f0 (set_node n f d) /\ keeps_below f0 d (set_node n f d).
Proof.
  intros Hn Hf (Hfr & Hwf & Hloc). unfold set_node.
  destruct (store d !! n) as [x|] eqn:Ex; [|split; [split_and!; assumption|intros ? ?; reflexivity]].
  unfold local_from, dom_wf, keeps_below. split; cbn.
  - split_and!; [exact Hfr| |].
    + intros m Hm. rewrite lookup_insert_ne; [exact (Hwf m Hm)|].
      intros ->. rewrite Hwf in Ex by exact Hm. discriminate.
    + intros m y Hm. destruct (decide (n = m)) as [<-|Hne].
      * rewrite lookup_insert_eq. intros [= <-]. exact (Hf x (Hloc n x Hn Ex)).
      * rewrite lookup_insert_ne by exact Hne. exact (Hloc m y Hm).
  - intros m Hm. rewrite lookup_insert_ne by lia. reflexivity.
Qed.

(** A statement that rewrites one node. *)
Lemma local_node_stmt (f0 n : nat) (f : dnode -> dnode) :
  (f0 <= n)%nat -> (forall x, node_local f0 x -> node_local f0 (f x)) ->
  local_stmt f0 (fun _ : unit => True) (fun d => (tt, set_node n f d)).
Proof.
  intros Hn Hf d Hd. destruct (local_set_node f0 n f d Hn Hf Hd) as [H1 H2]. cbn.
  split_and!; [exact H1|exact I|exact H2].
Qed.

Lemma local_createElement (f0 : nat) (tag : string) :
  local_stmt f0 (fun n => (f0 <= n)%nat) (createElement tag).
Proof.
  intros d (Hfr & Hwf & Hloc). unfold local_from, dom_wf, keeps_below. cbn.
  split_and!; [lia| | |lia|].
  - intros m Hm. rewrite lookup_insert_ne by lia. apply Hwf. lia.
  - intros m y Hm. destruct (decide (fresh d = m)) as [<-|Hne].
    + rewrite lookup_insert_eq. intros [= <-]. split; [discriminate|constructor].
    + rewrite lookup_insert_ne by exact Hne. exact (Hloc m y Hm).
  - intros m Hm. rewrite lookup_insert_ne by lia. reflexivity.
Qed.

Lemma local_classList_add (f0 n : nat) (cs : list string) :
  (f0 <= n)%nat -> local_stmt f0 (fun _ => True) (classList_add n cs).
Proof. intros Hn. apply local_node_stmt; [exact Hn|]. intros x Hx. exact Hx. Qed.

Lemma local_set_width (f0 n : nat) (w : Z) :
  (f0 <= n)%nat -> local_stmt f0 (fun _ => True) (set_width n w).
Proof. intros Hn. apply local_node_stmt; [exact Hn|]. intros x Hx. exact Hx. Qed.

Lemma local_set_height (f0 n : nat) (h : Z) :
  (f0 <= n)%nat -> local_stmt f0 (fun _ => True) (set_height n h).
Proof. intros Hn. apply local_node_stmt; [exact Hn|]. intros x Hx. exact Hx. Qed.

Lemma local_addEventListener (f0 n : nat) (l : slistener) :
  local_stmt f0 (fun _ => True) (addEventListener n l).
Proof. intros d Hd. split_and!; [exact Hd|exact I|intros m _; reflexivity]. Qed.

Lemma Forall_filter_2 {A : Type} (P : A -> Prop) (Q : A -> Prop) `{!forall x, Decision (Q x)}
    (l : list A) :
  Forall P l -> Forall P (filter Q l).
Proof.
  rewrite !Forall_forall. intros Hl x Hx. apply list_elem_of_filter in Hx as [_ Hx]. exact (Hl x Hx).
Qed.

(** [el.textContent = t] detaches the element's children. *)
Lemma local_detach_children (f0 : nat) (kids : list nat) (d : dom) :
  Forall (fun k => (f0 <= k)%nat) kids -> local_from f0 d ->
  local_from f0 (foldl (fun d k => set_node k (with_parent None) d) d kids) /\
  keeps_below f0 d (foldl (fun d k => set_node k (with_parent None) d) d kids).
Proof.
  revert d. induction kids as [|k kids IH]; intros d Hk Hd; cbn; [split; [exact Hd|intros ? ?; reflexivity]|].
  apply Forall_cons in Hk as [Hk1 Hk].
  destruct (local_set_node f0 k (with_parent None) d Hk1) as [H1 H2]; [|exact Hd|].
  { intros x [_ Hc]. split; [discriminate|exact Hc]. }
  destruct (IH _ Hk H1) as [H3 H4]. split; [exact H3|].
  intros n Hn. rewrite H4, H2 by exact Hn. reflexivity.
Qed.

Lemma local_set_textContent (f0 n : nat) (t : list Z) :
  (f0 <= n)%nat -> local_stmt f0 (fun _ => True) (set_textContent n t).
Proof.
  intros Hn d Hd. unfold set_textContent. cbn [fst snd].
  assert (Hk : Forall (fun k => (f0 <= k)%nat) (default [] (childNodes <$> store d !! n))).
  { destruct (store d !! n) as [x|] eqn:Ex; cbn; [|constructor].
    exact (proj2 (proj2 (proj2 Hd) n x Hn Ex)). }
  destruct (local_detach_children f0 _ d Hk Hd) as [H1 H2].
  set (d1 := foldl _ d _) in H1, H2 |- *.
  destruct (local_set_node f0 n (fun x => with_text t (with_children [] x)) d1 Hn) as [H3 H4];
    [|exact H1|].
  { intros x [Hp _]. split; [exact Hp|constructor]. }
  split_and!; [exact H3|exact I|]. intros m Hm. rewrite H4, H2 by exact Hm. reflexivity.
Qed.

Lemma local_appendChild (f0 p c : nat) :
  (f0 <= p)%nat -> (f0 <= c)%nat -> local_stmt f0 (fun _ => True) (appendChild p c).
Proof.
  intros Hp Hc d Hd. unfold appendChild. cbn [fst snd].
  set (d1 := match mbind parentNode (store d !! c) with
             | Some q => set_node q (fun x => with_children
                                       (filter (fun k => k <> c) (childNodes x)) x) d
             | None => d
             end).
  assert (H1 : local_from f0 d1 /\ keeps_below f0 d d1).
  { unfold d1. destruct (store d !! c) as [x|] eqn:Ex; cbn; [|split; [exact Hd|intros ? ?; reflexivity]].
    destruct (parentNode x) as [q|] eqn:Eq; [|split; [exact Hd|intros ? ?; reflexivity]].
    apply local_set_node; [exact (proj1 (proj2 (proj2 Hd) c x Hc Ex) q Eq)| |exact Hd].
    intros y [Hy Hk]. split; [exact Hy|apply Forall_filter_2, Hk]. }
  destruct H1 as [H1 K1].
  destruct (local_set_node f0 c (with_parent (Some p)) d1 Hc) as [H2 K2]; [|exact H1|].
  { intros y [_ Hk]. split; [intros q [= <-]; exact Hp|exact Hk]. }
  destruct (local_set_node f0 p (fun x => with_children (childNodes x ++ [c]) x)
              (set_node c (with_parent (Some p)) d1) Hp) as [H3 K3]; [|exact H2|].
  { intros y [Hy Hk]. split; [exact Hy|apply Forall_app_2; [exact Hk|constructor; [exact Hc|constructor]]]. }
  split_and!; [exact H3|exact I|]. intros m Hm. rewrite K3, K2, K1 by exact Hm. reflexivity.
Qed.

(** The statements of the construction, one bind at a time. *)
Ltac local_prim :=
  first [ apply local_createElement
        | apply local_addEventListener
        | apply local_classList_add; lia
        | apply local_set_textContent; lia
        | apply local_set_width; lia
        | apply local_set_height; lia
        | apply local_appendChild; lia
        | match goal with IH : forall i : nat, local_stmt _ _ _ |- _ => apply IH end ].

Ltac local_run :=
  repeat lazymatch goal with
  | |- local_stmt _ _ (_ ≫= _) =>
      eapply local_bind; [local_prim|let x := fresh "n" in let Hx := fresh "Hn" in
                                     intros x Hx; cbv beta in Hx]
  | |- local_stmt _ _ (mret _) =>
      apply local_ret; first [exact I | cbv beta; cbn [divSlider]; lia]
  | |- local_stmt _ _ (assembleSlider _ _ _ _) => unfold assembleSlider; cbv beta iota
  end.

Lemma local_addBottomButtons (f0 k i self ul : nat) :
  (f0 <= ul)%nat -> local_stmt f0 (fun _ => True) (addBottomButtons k i self ul).
Proof.
  intros Hul. revert i. induction k as [|k IH]; intros i; cbn [addBottomButtons]; local_run.
Qed.

(** Lines 55-186 create the slider's elements and work on them alone;
    the slider div is one of them. *)
Lemma local_buildSliderNodes (f0 len : nat) (W H : Z) :
  local_stmt f0 (fun nd => (f0 <= divSlider nd)%nat) (buildSliderNodes len W H).
Proof.
  unfold buildSliderNodes. local_run.
  eapply local_bind; [apply local_addBottomButtons; lia|intros lis _]. local_run.
Qed.

(** Line 187 on a document whose nodes from [f0] on are a part of
    their own: [c], one of them, becomes the last child of the older node
    [host], and no other older node changes. *)
Lemma append_host (f0 host c : nat) (d : dom) :
  local_from f0 d -> (host < f0)%nat -> (f0 <= c)%nat ->
  (forall n, (n < f0)%nat -> n <> host -> store (snd (appendChild host c d)) !! n = store d !! n) /\
  (forall x, store d !! host = Some x ->
     store (snd (appendChild host c d)) !! host = Some (with_children (childNodes x ++ [c]) x)).
Proof.
  intros Hd Hh Hc. unfold appendChild. cbn [snd].
  set (d1 := match mbind parentNode (store d !! c) with
             | Some q => set_node q (fun x => with_children
                                       (filter (fun k => k <> c) (childNodes x)) x) d
             | None => d
             end).
  assert (K1 : keeps_below f0 d d1).
  { unfold d1. destruct (store d !! c) as [x|] eqn:Ex; cbn; [|intros ? ?; reflexivity].
    destruct (parentNode x) as [q|] eqn:Eq; [|intros ? ?; reflexivity].
    apply local_set_node; [exact (proj1 (proj2 (proj2 Hd) c x Hc Ex) q Eq)| |exact Hd].
    intros y [Hy Hk]. split; [exact Hy|apply Forall_filter_2, Hk]. }
  assert (K2 : keeps_below f0 d (set_node c (with_parent (Some host)) d1)).
  { intros n Hn. unfold set_node. destruct (store d1 !! c); cbn; [|apply K1, Hn].
    rewrite lookup_insert_ne by lia. apply K1, Hn. }
  split.
  - intros n Hn Hne. unfold set_node at 1.
    destruct (store (set_node c (with_parent (Some host)) d1) !! host); cbn;
      [rewrite lookup_insert_ne by congruence|]; apply K2, Hn.
  - intros x Hx. unfold set_node at 1. rewrite (K2 host Hh), Hx. cbn.
    apply lookup_insert_eq.
Qed.

Lemma local_from_start (d : dom) : dom_wf d -> local_from (fresh d) d.
Proof.
  intros Hwf. split_and!; [lia|exact Hwf|]. intros n x Hn Hx. rewrite Hwf in Hx by exact Hn.
  discriminate.
Qed.

(** *** Rules of [adds_nodes] *)

Lemma adds_ret {A : Type} (x : A) : adds_nodes 0 (mret x).
Proof. intros d. cbn. lia. Qed.

Lemma adds_bind {A B : Type} (k k1 k2 : nat) (m : DomM A) (f : A -> DomM B) :
  adds_nodes k1 m -> (forall x, adds_nodes k2 (f x)) -> (k1 + k2)%nat = k ->
  adds_nodes k (m ≫= f).
Proof.
  intros Hm Hf <- d. unfold mbind, DomM_bind. specialize (Hm d).
  destruct (m d) as [x d1]. cbn in Hm. rewrite (Hf x d1), Hm. lia.
Qed.

Lemma set_node_fresh (n : nat) (f : dnode -> dnode) (d : dom) : fresh (set_node n f d) = fresh d.
Proof. unfold set_node. destruct (store d !! n); reflexivity. Qed.

Lemma adds_node_stmt (n : nat) (f : dnode -> dnode) :
  adds_nodes 0 (fun d => (tt, set_node n f d)).
Proof. intros d. cbn. rewrite set_node_fresh. lia. Qed.

Lemma adds_createElement (tag : string) : adds_nodes 1 (createElement tag).
Proof. intros d. cbn. lia. Qed.

Lemma adds_addEventListener (n : nat) (l : slistener) : adds_nodes 0 (addEventListener n l).
Proof. intros d. cbn. lia. Qed.

Lemma adds_set_textContent (n : nat) (t : list Z) : adds_nodes 0 (set_textContent n t).
Proof.
  intros d. unfold set_textContent. cbn [fst snd]. rewrite set_node_fresh.
  generalize (default [] (childNodes <$> store d !! n)). intros kids.
  induction kids as [|k kids IH] in d |- *; cbn; [lia|]. rewrite IH, set_node_fresh. reflexivity.
Qed.

Lemma adds_appendChild (p c : nat) : adds_nodes 0 (appendChild p c).
Proof.
  intros d. unfold appendChild. cbn [fst snd]. rewrite !set_node_fresh.
  destruct (_ ≫= parentNode); [rewrite set_node_fresh|]; lia.
Qed.

Ltac adds_prim :=
  first [ apply adds_createElement | apply adds_addEventListener | apply adds_set_textContent
        | apply adds_appendChild | apply adds_node_stmt ].

Ltac adds_run :=
  repeat lazymatch goal with
  | |- adds_nodes _ (_ ≫= _) => eapply adds_bind; [adds_prim|intros ?|]
  | |- adds_nodes _ (mret _) => apply adds_ret
  | |- adds_nodes _ (assembleSlider _ _ _ _) => unfold assembleSlider; cbv beta iota
  end.

(** Each bottom indicator is one [li]. *)
Lemma adds_addBottomButtons (k i self ul : nat) : adds_nodes k (addBottomButtons k i self ul).
Proof.
  revert i. induction k as [|k IH]; intros i; cbn [addBottomButtons]; [apply adds_ret|].
  adds_run. eapply adds_bind; [apply IH|intros ?; apply adds_ret|]. all: first [reflexivity | lia].
Qed.

(** Lines 55-186 create twelve elements and one [li] per item. *)
Lemma adds_buildSliderNodes (len : nat) (W H : Z) :
  adds_nodes (12 + len) (buildSliderNodes len W H).
Proof.
  unfold buildSliderNodes. adds_run.
  eapply adds_bind; [apply adds_addBottomButtons|intros ?|]; adds_run. all: first [reflexivity | lia].
Qed.

Lemma create_some (es : list elem) :
  es <> [] -> exists s, createSliderFromHTMLElementArray es = Some s.
Proof.
  intros Hne. unfold createSliderFromHTMLElementArray.
  rewrite !negated_instanceof_false, existsb_false by reflexivity.
  destruct es; [contradiction|]. eexists. reflexivity.
Qed.

(** ** Properties *)

(** C16: For every number of items it can be given (1 to 10) and every
    size of the central container, the constructor appends to the body
    exactly one subtree: the slider div, sized 100 px wider and 30 px
    taller than the central container, holding the main panel (left
    scroller, central container with the two slides and their data
    containers, right scroller) and a list of one bottom indicator per
    item, each with the text of line 149. *)
Theorem constructor_builds_tree (n : nat) (W H : Z) :
  (1 <= n <= 10)%nat ->
  let '(nd, d1) := buildSliderDom n W H body page0 in
  render 8 (store d1) body = Some (Elem "body" [] [] None None [slider_tree n W H]).
Proof. intros Hn. nat_cases n; vm_compute; reflexivity. Qed.


(** C4: A click on any node of the document once the slider is built is
    the step [Slider.handle] takes, on the slider object the listeners
    close over, for the event that node stands for: the [i]-th bottom
    indicator selects slide [i] (its closure keeps [i]), the left and
    right scrollers, on themselves or on their buttons, go one slide
    back or forward, and every other node leaves the page's sliders as
    they are. *)
Theorem clicks_reach_handle (n : nat) (W H now which : Z) (k : nat)
    (objs : gmap nat slider) (s : slider) :
  (1 <= n <= 10)%nat -> len (sl s) = Z.of_nat n ->
  let '(nd, d1) := buildSliderDom n W H body page0 in
  objs !! divSlider nd = Some s -> (k < fresh d1)%nat ->
  Some (dispatch_click now which d1 k objs) =
    match node_listener nd k with
    | Some l => step_listener now which l objs
    | None => Some objs
    end.
Proof.
  intros Hn Hlen. pose proof (build_paths n W H Hn) as Hb.
  destruct (buildSliderDom n W H body page0) as [nd d1].
  destruct Hb as [Hcount Hall]. intros Hs Hk.
  pose proof (forall_lt_of_forallb _ _ Hall k Hk) as Hp. cbv beta in Hp.
  apply (dispatch_step _ _ _ _ _ _ Hp). intros l El.
  apply (node_listener_ok _ _ _ s _ El Hs). lia.
Qed.

(** A click on a page holding two sliders, named by distinct nodes,
    with the listeners [page_listener] gives its nodes. *)
Lemma two_slider_click (now which : Z) (nd3 nd2 : slider_nodes) (d : dom) (s3 s2 : slider)
    (k : nat) :
  divSlider nd3 <> divSlider nd2 ->
  len (sl s3) = Z.of_nat (length (bottomButtons nd3)) ->
  len (sl s2) = Z.of_nat (length (bottomButtons nd2)) ->
  click_path d k = option_list (page_listener [nd3; nd2] k) ->
  Some (dispatch_click now which d k {[divSlider nd3 := s3; divSlider nd2 := s2]}) =
    match page_listener [nd3; nd2] k with
    | Some l => step_listener now which l {[divSlider nd3 := s3; divSlider nd2 := s2]}
    | None => Some {[divSlider nd3 := s3; divSlider nd2 := s2]}
    end.
Proof.
  intros Hne L3 L2 Hp. apply (dispatch_step _ _ _ _ _ _ Hp). intros l El.
  apply page_listener_Some in El as (nd & Hin & El). elem_split Hin.
  - exact (node_listener_ok _ _ _ s3 _ El (lookup_insert_eq _ _ _) L3).
  - apply (node_listener_ok _ _ _ s2 _ El); [|exact L2].
    rewrite lookup_insert_ne by exact Hne. apply lookup_singleton_eq.
Qed.

(** The run of [window.onload] on a page holding the demo's elements:
    the two constructor calls that get past their checks, one after
    the other, on the body. *)
Lemma onload_run (doc : gmap string elem) (es : list elem) (lone : elem) :
  mapM (dollar doc) (take 10 elems1_ids) = Some es ->
  dollar doc "loneImage" = Some lone ->
  exists s3 s2,
    createSliderFromHTMLElementArray es = Some s3 /\
    createSliderFromHTMLElementArray [lone] = Some s2 /\
    length es = 10%nat /\
    window_onload doc page0 =
      (Normal (None, Some s3, Some s2),
       snd (buildSliderDom 1 (mainContainerWidth (sl s2)) (mainContainerHeight (sl s2)) body
              (snd (buildSliderDom 10 (mainContainerWidth (sl s3)) (mainContainerHeight (sl s3))
                      body page0)))).
Proof.
  intros Hes Hl.
  assert (Hlen : length es = 10%nat)
    by (apply mapM_Some in Hes; apply Forall2_length in Hes; exact (eq_sym Hes)).
  destruct (create_some es) as [s3 E3]; [intros ->; discriminate|].
  destruct (create_some [lone]) as [s2 E2]; [discriminate|].
  exists s3, s2. split_and!; [exact E3|exact E2|exact Hlen|].
  unfold window_onload.
  rewrite (try_bind_normal _ _ page0 page0 None) by reflexivity.
  rewrite (try_bind_normal _ _ _ _ (Some s3))
    by (rewrite (createSlider_normal _ _ _ es s3); [rewrite Hlen; reflexivity|discriminate
       |rewrite used_lookup; exact Hes|exact E3]).
  rewrite (try_bind_normal _ _ _ _ (Some s2))
    by (apply (createSlider_normal _ _ _ [lone]); [discriminate|cbn; rewrite Hl; reflexivity|exact E2]).
  reflexivity.
Qed.

(** The demo document after [window.onload], for every size of the two
    sliders: the nodes naming the two slider objects, and the listener
    every node carries. *)
Lemma onload_paths (W3 H3 W2 H2 : Z) :
  let '(nd3, d3) := buildSliderDom 10 W3 H3 body page0 in
  let '(nd2, d2) := buildSliderDom 1 W2 H2 body d3 in
  divSlider nd3 = 1%nat /\ divSlider nd2 = 23%nat /\
  length (bottomButtons nd3) = 10%nat /\ length (bottomButtons nd2) = 1%nat /\
  forallb (fun k => bool_decide (click_path d2 k = option_list (page_listener [nd3; nd2] k)))
    (seq 0 (fresh d2)) = true.
Proof. vm_compute. split_and!; reflexivity. Qed.

(** C18: On a page where the first ten ids of [elems1] and "loneImage"
    name elements, [window.onload] creates no slider for the empty
    array, a slider over exactly those ten elements (the eleventh entry
    is dropped whether or not the page has it) and a one-item slider, and
    leaves the body holding the two slider subtrees in that order. *)
Theorem demo_page_onload (doc : gmap string elem) (es : list elem) (lone : elem) :
  mapM (dollar doc) (take 10 elems1_ids) = Some es ->
  dollar doc "loneImage" = Some lone ->
  exists s3 s2,
    createSliderFromHTMLElementArray es = Some s3 /\
    createSliderFromHTMLElementArray [lone] = Some s2 /\
    HTMLElementArrayUsed (sl s3) = es /\
    fst (window_onload doc page0) = Normal (None, Some s3, Some s2) /\
    render 16 (store (snd (window_onload doc page0))) body =
      Some (Elem "body" [] [] None None
              [slider_tree 10 (mainContainerWidth (sl s3)) (mainContainerHeight (sl s3));
               slider_tree 1 (mainContainerWidth (sl s2)) (mainContainerHeight (sl s2))]).
Proof.
  intros Hes Hl. destruct (onload_run doc es lone Hes Hl) as (s3 & s2 & E3 & E2 & Hlen & Hrun).
  exists s3, s2. rewrite Hrun. split_and!; [exact E3|exact E2| |reflexivity|].
  - apply create_spec in E3 as [_ ->]. cbn. apply firstn_all2. unfold MAX_CAROUSEL_LENGTH. lia.
  - generalize (mainContainerWidth (sl s3)) (mainContainerHeight (sl s3))
      (mainContainerWidth (sl s2)) (mainContainerHeight (sl s2)).
    intros. vm_compute. reflexivity.
Qed.

(** C19: On the demo page after [window.onload] the two sliders are
    independent: a click on any node of the document is the step
    [Slider.handle] takes, for the event that node stands for, on the
    slider whose subtree holds the node, and leaves the other slider as
    it is; a click on any other node changes neither. *)
Theorem demo_page_clicks (doc : gmap string elem) (es : list elem) (lone : elem) (now which : Z) :
  mapM (dollar doc) (take 10 elems1_ids) = Some es ->
  dollar doc "loneImage" = Some lone ->
  exists s3 s2 nd3 nd2 d3 d,
    window_onload doc page0 = (Normal (None, Some s3, Some s2), d) /\
    buildSliderDom 10 (mainContainerWidth (sl s3)) (mainContainerHeight (sl s3)) body page0
      = (nd3, d3) /\
    buildSliderDom 1 (mainContainerWidth (sl s2)) (mainContainerHeight (sl s2)) body d3
      = (nd2, d) /\
    forall k, (k < fresh d)%nat ->
      Some (dispatch_click now which d k {[divSlider nd3 := s3; divSlider nd2 := s2]}) =
        match page_listener [nd3; nd2] k with
        | Some l => step_listener now which l {[divSlider nd3 := s3; divSlider nd2 := s2]}
        | None => Some {[divSlider nd3 := s3; divSlider nd2 := s2]}
        end.
Proof.
  intros Hes Hl. destruct (onload_run doc es lone Hes Hl) as (s3 & s2 & E3 & E2 & Hlen & Hrun).
  assert (L3 : len (sl s3) = 10)
    by (rewrite (create_len _ _ E3), firstn_all2; [rewrite Hlen; reflexivity
                                                  |unfold MAX_CAROUSEL_LENGTH; lia]).
  assert (L2 : len (sl s2) = 1) by (rewrite (create_len _ _ E2); reflexivity).
  pose proof (onload_paths (mainContainerWidth (sl s3)) (mainContainerHeight (sl s3))
                (mainContainerWidth (sl s2)) (mainContainerHeight (sl s2))) as Hp.
  destruct (buildSliderDom 10 (mainContainerWidth (sl s3)) (mainContainerHeight (sl s3)) body page0)
    as [nd3 d3] eqn:B3.
  destruct (buildSliderDom 1 (mainContainerWidth (sl s2)) (mainContainerHeight (sl s2)) body d3)
    as [nd2 d2] eqn:B2.
  destruct Hp as (Hd3 & Hd2 & Hc3 & Hc2 & Hall).
  exists s3, s2, nd3, nd2, d3, d2.
  refine (conj _ (conj B3 (conj B2 _))); [rewrite Hrun; cbn [snd]; rewrite B2; reflexivity|].
  intros k Hk.
  apply two_slider_click; [rewrite Hd3, Hd2; discriminate|rewrite Hc3; exact L3
                          |rewrite Hc2; exact L2|].
  exact (forall_lt_of_forallb _ _ Hall k Hk).
Qed.

(** C20: If one of the first ten ids of [elems1] names no element, the
    constructor throws a TypeError on line 48 instead of returning with
    a diagnostic: [window.onload] stops there, the document is left as
    it was, and the one-item slider of line 208 is never created. *)
Theorem missing_element_aborts_onload (doc : gmap string elem) (id : string) :
  id ∈ take 10 elems1_ids -> dollar doc id = None ->
  window_onload doc page0 = (Thrown, page0).
Proof.
  intros Hid Hnone. unfold window_onload.
  rewrite (try_bind_normal _ _ page0 page0 None) by reflexivity.
  apply try_bind_thrown, createSlider_throws; [discriminate|].
  rewrite used_lookup. exact (mapM_None_elem _ _ _ Hid Hnone).
Qed.

(** C15: the three type checks of lines 15-28 never fire, because
    [!x instanceof C] reads [(!x) instanceof C].  An insertion point
    that is not an element (null) gets past line 19: the constructor
    creates its twelve elements and one bullet per kept entry, leaves
    every node the document held before the call as it was (the new
    subtree stays detached), and throws a TypeError at line 187
    ([HTMLElementInsertInto.appendChild]) instead of returning with its
    warning.  And the loop of line 23 looks at no entry: whatever
    follows the ten entries line 41 keeps, null or not, the call goes
    as if they were absent. *)
Theorem type_checks_never_fire (arr : list (option elem)) (d : dom) :
  (forall used, dom_wf d -> arr <> [] -> mapM id (firstn MAX_CAROUSEL_LENGTH arr) = Some used ->
     fst (createSlider arr None d) = Thrown /\
     fresh (snd (createSlider arr None d)) = (fresh d + 12 + length used)%nat /\
     keeps_below (fresh d) d (snd (createSlider arr None d))) /\
  (forall rest host, (MAX_CAROUSEL_LENGTH <= length arr)%nat ->
     createSlider (arr ++ rest) host d = createSlider arr host d).
Proof.
  split.
  - intros used Hwf Hne Hm. rewrite createSlider_checks, Hm by exact Hne. cbv zeta.
    unfold mbind, DomM_bind.
    destruct (local_buildSliderNodes (fresh d) (length used)
                (mainContainerWidth (sl (make_slider used)))
                (mainContainerHeight (sl (make_slider used))) d (local_from_start d Hwf))
      as (_ & _ & Hkeep).
    pose proof (adds_buildSliderNodes (length used) (mainContainerWidth (sl (make_slider used)))
                  (mainContainerHeight (sl (make_slider used))) d) as Hcount.
    destruct (buildSliderNodes _ _ _ d) as [nd d1]. cbn in Hcount |- *.
    split_and!; [reflexivity|lia|exact Hkeep].
  - intros rest host Hlen.
    assert (Hne : arr <> []) by (intros ->; unfold MAX_CAROUSEL_LENGTH in Hlen; cbn in Hlen; lia).
    rewrite !createSlider_checks, take_app_le by (exact Hlen || exact Hne || (destruct arr; [contradiction|discriminate])).
    reflexivity.
Qed.

(** ** Witnesses *)

Lemma constructor_builds_tree_witness :
  (1 <= 3 <= 10)%nat /\
  (let '(nd, d1) := buildSliderDom 3 400 300 body page0 in
   render 8 (store d1) body = Some (Elem "body" [] [] None None [slider_tree 3 400 300])).
Proof. split; [lia | apply (constructor_builds_tree 3 400 300); lia]. Defined.

Lemma clicks_reach_handle_witness :
  let '(nd, d1) := buildSliderDom 4 400 300 body page0 in
  (14 < fresh d1)%nat /\
  Some (dispatch_click 0 1 d1 14 {[1%nat := demo4]}) =
    step_listener 0 1 (OnIndicator 1 1) {[1%nat := demo4]}.
Proof.
  pose proof (clicks_reach_handle 4 400 300 0 1 14 {[1%nat := demo4]} demo4 ltac:(lia)
                ltac:(vm_compute; reflexivity)) as Hc.
  destruct (buildSliderDom 4 400 300 body page0) as [nd d1] eqn:E.
  assert (Hf : fresh d1 = 17%nat) by (change d1 with (snd (nd, d1)); rewrite <- E; reflexivity).
  assert (Hl : node_listener nd 14 = Some (OnIndicator 1 1))
    by (change nd with (fst (nd, d1)); rewrite <- E; reflexivity).
  assert (Hd : divSlider nd = 1%nat)
    by (change nd with (fst (nd, d1)); rewrite <- E; reflexivity).
  rewrite Hf, Hd in Hc. rewrite Hf. split; [lia|].
  rewrite (Hc (lookup_singleton_eq _ _) ltac:(lia)), Hl. reflexivity.
Defined.

Lemma demo_page_onload_witness :
  mapM (dollar demo_doc) (take 10 elems1_ids) = Some demo_es /\
  dollar demo_doc "loneImage" = Some demo_lone /\
  exists s3 s2,
    createSliderFromHTMLElementArray demo_es = Some s3 /\
    createSliderFromHTMLElementArray [demo_lone] = Some s2 /\
    HTMLElementArrayUsed (sl s3) = demo_es /\
    fst (window_onload demo_doc page0) = Normal (None, Some s3, Some s2) /\
    render 16 (store (snd (window_onload demo_doc page0))) body =
      Some (Elem "body" [] [] None None
              [slider_tree 10 (mainContainerWidth (sl s3)) (mainContainerHeight (sl s3));
               slider_tree 1 (mainContainerWidth (sl s2)) (mainContainerHeight (sl s2))]).
Proof.
  assert (Hes : mapM (dollar demo_doc) (take 10 elems1_ids) = Some demo_es)
    by (vm_compute; reflexivity).
  assert (Hl : dollar demo_doc "loneImage" = Some demo_lone) by (vm_compute; reflexivity).
  split; [exact Hes|]. split; [exact Hl|]. exact (demo_page_onload _ _ _ Hes Hl).
Defined.

Lemma missing_element_aborts_onload_witness :
  "p2" ∈ take 10 elems1_ids /\ dollar (delete "p2" demo_doc) "p2" = None /\
  window_onload (delete "p2" demo_doc) page0 = (Thrown, page0).
Proof.
  assert (Hid : "p2" ∈ take 10 elems1_ids) by decide_eval.
  assert (Hn : dollar (delete "p2" demo_doc) "p2" = None) by (vm_compute; reflexivity).
  split; [exact Hid|]. split; [exact Hn|]. exact (missing_element_aborts_onload _ _ Hid Hn).
Defined.

Lemma demo_page_clicks_witness :
  mapM (dollar demo_doc) (take 10 elems1_ids) = Some demo_es /\
  dollar demo_doc "loneImage" = Some demo_lone /\
  exists s3 s2 nd3 nd2 d3 d,
    window_onload demo_doc page0 = (Normal (None, Some s3, Some s2), d) /\
    buildSliderDom 10 (mainContainerWidth (sl s3)) (mainContainerHeight (sl s3)) body page0
      = (nd3, d3) /\
    buildSliderDom 1 (mainContainerWidth (sl s2)) (mainContainerHeight (sl s2)) body d3
      = (nd2, d) /\
    forall k, (k < fresh d)%nat ->
      Some (dispatch_click 0 1 d k {[divSlider nd3 := s3; divSlider nd2 := s2]}) =
        match page_listener [nd3; nd2] k with
        | Some l => step_listener 0 1 l {[divSlider nd3 := s3; divSlider nd2 := s2]}
        | None => Some {[divSlider nd3 := s3; divSlider nd2 := s2]}
        end.
Proof.
  assert (Hes : mapM (dollar demo_doc) (take 10 elems1_ids) = Some demo_es)
    by (vm_compute; reflexivity).
  assert (Hl : dollar demo_doc "loneImage" = Some demo_lone) by (vm_compute; reflexivity).
  split; [exact Hes|]. split; [exact Hl|]. exact (demo_page_clicks _ _ _ 0 1 Hes Hl).
Defined.

Lemma type_checks_never_fire_witness :
  let arr := [Some (mkElem 200 120 80); Some (mkElem 201 90 60)] in
  dom_wf page0 /\ arr <> [] /\
  mapM id (firstn MAX_CAROUSEL_LENGTH arr) = Some [mkElem 200 120 80; mkElem 201 90 60] /\
  fst (createSlider arr None page0) = Thrown /\
  fresh (snd (createSlider arr None page0)) = (fresh page0 + 12 + 2)%nat /\
  keeps_below (fresh page0) page0 (snd (createSlider arr None page0)).
Proof.
  intros arr.
  assert (Hwf : dom_wf page0).
  { intros n Hn. cbn in Hn. apply lookup_singleton_ne. lia. }
  assert (Hne : arr <> []) by discriminate.
  assert (Hm : mapM id (firstn MAX_CAROUSEL_LENGTH arr) = Some [mkElem 200 120 80; mkElem 201 90 60])
    by reflexivity.
  split_and!; [exact Hwf|exact Hne|exact Hm|..];
    apply (proj1 (type_checks_never_fire arr page0) _ Hwf Hne Hm).
Defined.


End SliderDom.
