(* ===== verification/Notab.v ===== *)
(** * Notab: the page glue of Notab.js

    The immediately invoked function of lines 1-58 keeps two closure
    variables ([cookieShown], [animationProgress]) and registers four
    listeners: [scroll] and [scroll2] on the document's "scroll" event,
    [scroll2] on the window's "resize" event, and a "load" handler that
    registers [cookiesListener] on the accept button and arms a 5 s
    timer.  [page] holds those variables, the listener lists of the four
    event targets, the browser's viewport, the "hidden" class of the
    cookie holder and the three styles [animateElements] writes.  Events
    are dispatched the way the DOM does it: over the listener list as it
    was when dispatch began, skipping a listener removed meanwhile.
    [validate] (lines 60-75) is a function of the form's fields. *)

From S2P Require Import Prelude.

Local Open Scope Q_scope.

Module Notab.

(** ** Listeners and event targets *)

(** The functions the script registers, by identity. *)
Inductive listener : Type :=
| Lscroll
| Lscroll2
| LcookiesListener
| Lload.

#[export] Instance listener_eq_dec : EqDecision listener.
Proof. solve_decision. Defined.

(** [target.addEventListener(type, f)]: a function already registered
    for the event is not added twice. *)
Definition addEventListener (f : listener) (ls : list listener) : list listener :=
  if decide (f ∈ ls) then ls else ls ++ [f].

(** [target.removeEventListener(type, f)]. *)
Definition removeEventListener (f : listener) (ls : list listener) : list listener :=
  filter (fun g => g <> f) ls.

(** ** Page state *)

(** [window.scrollY], [window.innerHeight] and the section's
    [offsetTop] / [offsetHeight], read by the handlers. *)
Record view : Type := mkView {
  scrollY : Q;
  innerHeight : Q;
  missionTop : Q;
  missionHeight : Q
}.

(** The styles [animateElements] writes: the image's rotation (deg),
    the paragraph's opacity and the section's [left] (its percentage
    part); [None] while unwritten. *)
Record mission_style : Type := mkStyle {
  imgRotate : option Q;
  pOpacity : option Q;
  leftPercent : option Q
}.

Record page : Type := mkPage {
  cookieShown : bool;
  animationProgress : Q;
  holderHidden : bool;            (** [ch()] has class "hidden" *)
  style : mission_style;
  docScroll : list listener;      (** document, "scroll" *)
  winResize : list listener;      (** window, "resize" *)
  winLoad : list listener;        (** window, "load" *)
  btnClick : list listener;       (** [btn()], "click" *)
  loaded : bool;                  (** the window's load event has fired *)
  timerPending : bool;            (** the 5 s [setTimeout] is armed *)
  viewport : view
}.

Definition set_cookie (shown hidden : bool) (s : page) : page :=
  mkPage shown (animationProgress s) hidden (style s) (docScroll s) (winResize s)
    (winLoad s) (btnClick s) (loaded s) (timerPending s) (viewport s).

Definition set_cookieShown (b : bool) (s : page) : page := set_cookie b (holderHidden s) s.

(** [ch().classList.add("hidden")] ([true]) / [.remove("hidden")]. *)
Definition set_holderHidden (b : bool) (s : page) : page := set_cookie (cookieShown s) b s.

Definition set_animationProgress (p : Q) (s : page) : page :=
  mkPage (cookieShown s) p (holderHidden s) (style s) (docScroll s) (winResize s)
    (winLoad s) (btnClick s) (loaded s) (timerPending s) (viewport s).

Definition set_style (st : mission_style) (s : page) : page :=
  mkPage (cookieShown s) (animationProgress s) (holderHidden s) st (docScroll s)
    (winResize s) (winLoad s) (btnClick s) (loaded s) (timerPending s) (viewport s).

Definition set_listeners (ds wr wl bc : list listener) (s : page) : page :=
  mkPage (cookieShown s) (animationProgress s) (holderHidden s) (style s) ds wr wl bc
    (loaded s) (timerPending s) (viewport s).

Definition set_browser (ld tp : bool) (v : view) (s : page) : page :=
  mkPage (cookieShown s) (animationProgress s) (holderHidden s) (style s) (docScroll s)
    (winResize s) (winLoad s) (btnClick s) ld tp v.

(** [document.removeEventListener("scroll", f)]. *)
Definition remove_doc_scroll (f : listener) (s : page) : page :=
  set_listeners (removeEventListener f (docScroll s)) (winResize s) (winLoad s) (btnClick s) s.

(** ** The handlers *)

(** [scroll] (lines 9-15). *)
Definition scroll (s : page) : page :=
  if negb (cookieShown s) && js_gt (scrollY (viewport s)) 300 then
    set_cookieShown true (remove_doc_scroll Lscroll (set_holderHidden false s))
  else s.

(** [animateElements(scrollProgress)] (lines 31-36). *)
Definition animateElements (scrollProgress : Q) (s : page) : page :=
  let deg := 90 * (1 - scrollProgress) in
  set_style {| imgRotate := Some deg; pOpacity := Some (1 - scrollProgress);
               leftPercent := Some (scrollProgress * 50) |} s.

(** The branch [scrolledProgress > 0.5] of [scroll2], with
    [Math.min(1, 2 * scrolledProgress - 1)] already computed. *)
Definition scroll2_advance (p : Q) (s : page) : page :=
  let s1 := animateElements p (set_animationProgress p s) in
  if Qeq_bool (animationProgress s1) 1 then
    let s2 := set_listeners (docScroll s1) (removeEventListener Lscroll2 (winResize s1))
                (winLoad s1) (btnClick s1) s1 in
    remove_doc_scroll Lscroll2 s2
  else s1.

(** [scroll2] (lines 17-29); [scrolledProgress] is a JavaScript number,
    infinite or NaN when the section has no height. *)
Definition scroll2 (s : page) : page :=
  let v := viewport s in
  let windowBottom := innerHeight v + scrollY v in
  match js_div (windowBottom - missionTop v) (missionHeight v) with
  | Fin sp => if js_gt sp (1 # 2) then scroll2_advance (math_min2 1 (2 * sp - 1)) s
              else animateElements 0 s
  | PosInf => scroll2_advance 1 s
  | NegInf | NaN => animateElements 0 s
  end.

(** [cookiesListener] (lines 38-42). *)
Definition cookiesListener (s : page) : page :=
  let s1 := set_listeners (docScroll s) (winResize s) (winLoad s)
              (removeEventListener LcookiesListener (btnClick s)) s in
  let s2 := set_holderHidden true s1 in
  remove_doc_scroll Lscroll s2.

(** The window's "load" handler (lines 48-57): it registers
    [cookiesListener] and arms the timer. *)
Definition onLoad (s : page) : page :=
  let s1 := set_listeners (docScroll s) (winResize s) (winLoad s)
              (addEventListener LcookiesListener (btnClick s)) s in
  set_browser (loaded s1) true (viewport s1) s1.

(** The timer's callback (lines 51-56). *)
Definition onTimeout (s : page) : page :=
  if cookieShown s then s
  else set_cookieShown true (remove_doc_scroll Lscroll (set_holderHidden false s)).

(** Calling a registered function. *)
Definition call (f : listener) (s : page) : page :=
  match f with
  | Lscroll => scroll s
  | Lscroll2 => scroll2 s
  | LcookiesListener => cookiesListener s
  | Lload => onLoad s
  end.

(** Dispatch of an event to the listeners [target] lists: the list is
    the one of the start of dispatch, and a listener removed by an
    earlier one is skipped. *)
Definition dispatch (target : page -> list listener) (s : page) : page :=
  foldl (fun s' f => if decide (f ∈ target s') then call f s' else s') s (target s).

(** The script's top level (lines 1-7, 44-46): the closure variables
    and the three registrations; [hidden0] is the cookie holder's class
    in the page's markup. *)
Definition init (hidden0 : bool) (v : view) : page :=
  {| cookieShown := false; animationProgress := 0; holderHidden := hidden0;
     style := mkStyle None None None;
     docScroll := addEventListener Lscroll2 (addEventListener Lscroll []);
     winResize := addEventListener Lscroll2 [];
     winLoad := addEventListener Lload [];
     btnClick := [];
     loaded := false; timerPending := false; viewport := v |}.

(** ** Page events *)

#[export] Instance view_eq_dec : EqDecision view.
Proof. solve_decision. Defined.

Inductive event : Type :=
| DocScroll (v : view)      (** the user scrolls to [v] *)
| WinResize (v : view)      (** the window is resized to [v] *)
| WinLoad                   (** the page has loaded *)
| Timeout                   (** the 5 s timer fires *)
| AcceptClick.              (** a click on the accept button *)

#[export] Instance event_eq_dec : EqDecision event.
Proof. solve_decision. Defined.

(** The effect of one event; [None] when it cannot happen (a second
    load, a timer that is not armed). *)
Definition handle (e : event) (s : page) : option page :=
  match e with
  | DocScroll v => Some (dispatch docScroll (set_browser (loaded s) (timerPending s) v s))
  | WinResize v => Some (dispatch winResize (set_browser (loaded s) (timerPending s) v s))
  | WinLoad => if loaded s then None
               else Some (dispatch winLoad (set_browser true (timerPending s) (viewport s) s))
  | Timeout => if timerPending s
               then Some (onTimeout (set_browser (loaded s) false (viewport s) s))
               else None
  | AcceptClick => Some (dispatch btnClick s)
  end.

(** States the page reaches from its start. *)
Inductive reachable : page -> Prop :=
| reach_init (h : bool) (v : view) : reachable (init h v)
| reach_step (e : event) (s s' : page) :
    reachable s -> handle e s = Some s' -> reachable s'.

(** The events [es] one after the other. *)
Fixpoint run_events (es : list event) (s : page) : option page :=
  match es with
  | [] => Some s
  | e :: es' => handle e s ≫= run_events es'
  end.

(** ** The invariant *)

(** The document's "scroll" listeners: a sublist of the two registered
    at start, in order. *)
Definition ds_shapes : list (list listener) :=
  [[Lscroll; Lscroll2]; [Lscroll]; [Lscroll2]; []].

(** The styles are unwritten, or written by [animateElements] with an
    argument in [0, 1]. *)
Definition style_ok (st : mission_style) : Prop :=
  st = mkStyle None None None \/
  exists p, 0 <= p <= 1 /\ st = mkStyle (Some (90 * (1 - p))) (Some (1 - p)) (Some (p * 50)).

(** The styles [animateElements(p)] writes. *)
Definition styles_at (p : Q) : mission_style :=
  mkStyle (Some (90 * (1 - p))) (Some (1 - p)) (Some (p * 50)).

Definition notab_inv (s : page) : Prop :=
  docScroll s ∈ ds_shapes /\
  winResize s ∈ [[Lscroll2]; []] /\
  winLoad s = [Lload] /\
  btnClick s ∈ [[]; [LcookiesListener]] /\
  (cookieShown s = true -> Lscroll ∉ docScroll s) /\
  bool_decide (Lscroll2 ∈ docScroll s) = negb (Qeq_bool (animationProgress s) 1) /\
  bool_decide (Lscroll2 ∈ winResize s) = negb (Qeq_bool (animationProgress s) 1) /\
  0 <= animationProgress s <= 1 /\
  style_ok (style s).

(** The number of events of [es], run from [s], after which the cookie
    holder has lost its class "hidden". *)
Fixpoint banner_shows (es : list event) (s : page) : option nat :=
  match es with
  | [] => Some 0%nat
  | e :: es' =>
      handle e s ≫= fun s' : page =>
        (fun n => ((if holderHidden s && negb (holderHidden s') then 1 else 0) + n)%nat)
          <$> banner_shows es' s'
  end.

(** Between two states, the banner flag only grows, and the banner is
    un-hidden only by the step that sets the flag. *)
Definition no_reshow (s s1 : page) : Prop :=
  (cookieShown s = true -> cookieShown s1 = true) /\
  (holderHidden s = true -> holderHidden s1 = false ->
   cookieShown s = false /\ cookieShown s1 = true).

(** ** Sample pages *)

(** A viewport at the top of a page whose section starts at 1000 px
    and is 600 px high, in an 800 px window. *)
Definition view_top : view := mkView 0 800 1000 600.

(** The same page scrolled by [y]. *)
Definition view_at (y : Q) : view := mkView y 800 1000 600.

(** The page as the markup leaves it: the cookie holder hidden. *)
Definition page0 : page := init true view_top.

(** The page after load, the timer and a click on accept. *)
Definition page_dismissed : page :=
  Eval vm_compute in default page0 (run_events [WinLoad; Timeout; AcceptClick] page0).

(** The page after a scroll that completes the section's effect. *)
Definition page_done : page :=
  Eval vm_compute in default page0 (handle (DocScroll (view_at 900)) page0).

(** ** Form validation (lines 60-75) *)

(** An [input] or [textarea] element: its [type], its [value] and
    whether it has class "invalid". *)
Record field : Type := mkField {
  ftype : string;
  fvalue : string;
  invalid : bool
}.

(** The form: its [input] elements, its [textarea] elements (in
    document order) and whether [form.submit()] has been called. *)
Record form : Type := mkForm {
  finputs : list field;
  ftextareas : list field;
  submitted : bool
}.

(** A call returns a value or throws; either way the fields keep the
    classes written before. *)
Inductive result : Type :=
| Returned (f : form) (v : jsval)
| Thrown (f : form).

Definition set_invalid (b : bool) (f : field) : field :=
  mkField (ftype f) (fvalue f) b.

(** One iteration of the loop on a defined element: the field as the
    loop leaves it, and whether it keeps [passed]. *)
Definition check_field (input : field) : field * bool :=
  if String.eqb (ftype input) "submit" then (input, true)
  else if (String.length (fvalue input) =? 0)%nat then (set_invalid true input, false)
  else (set_invalid false input, true).

(** The loop over [inputs]: the fields as left, and [passed]. *)
Fixpoint check_fields (inputs : list field) (passed : bool) : list field * bool :=
  match inputs with
  | [] => ([], passed)
  | input :: rest =>
      let '(input', ok) := check_field input in
      let '(rest', passed') := check_fields rest (passed && ok) in
      (input' :: rest', passed')
  end.

(** [validate(form)]: the loop runs over the inputs, then over the
    element pushed last, [getElementsByTagName("textarea")[0]]; when the
    form has no textarea that element is [undefined] and reading its
    [type] throws a TypeError.  [form.submit()] returns [undefined]. *)
Definition validate (frm : form) : result :=
  let '(inputs', passed) := check_fields (finputs frm) true in
  match ftextareas frm with
  | [] => Thrown (mkForm inputs' [] (submitted frm))
  | ta :: rest =>
      let '(ta', ok) := check_field ta in
      let frm' := mkForm inputs' (ta' :: rest) (submitted frm) in
      if passed && ok then Returned (mkForm inputs' (ta' :: rest) true) JUndefined
      else Returned frm' (JBool false)
  end.

(** The form a call leaves. *)
Definition result_form (r : result) : form :=
  match r with Returned f _ => f | Thrown f => f end.

(** A field the loop checks, and what it requires of it. *)
Definition checked (f : field) : bool := negb (String.eqb (ftype f) "submit").
Definition filled (f : field) : bool := negb (String.length (fvalue f) =? 0)%nat.

(** The state a finished effect keeps through any dispatch. *)
Definition frozen (st : mission_style) (p : Q) (s : page) : Prop :=
  notab_inv s /\ Qeq_bool (animationProgress s) 1 = true /\
  style s = st /\ animationProgress s = p.

(** What the loop leaves of a field [f] as [f']: type and value kept,
    class "invalid" exactly on an empty field it checks. *)
Definition marked (f f' : field) : Prop :=
  ftype f' = ftype f /\ fvalue f' = fvalue f /\
  invalid f' = (if checked f then negb (filled f) else invalid f).

(** A sample contact form: a filled name, an empty e-mail, the submit
    button and a message. *)
Definition form1 : form :=
  mkForm [mkField "text" "Ann" false; mkField "email" "" false; mkField "submit" "Send" false]
    [mkField "textarea" "Hello" true] false.

(** ** Dispatch and the shapes of the listener lists *)

(** Normalise projections of the page setters. *)
Ltac page_simpl :=
  cbn [cookieShown animationProgress holderHidden style docScroll winResize winLoad
       btnClick loaded timerPending viewport set_cookie set_cookieShown set_holderHidden
       set_animationProgress set_style set_listeners set_browser remove_doc_scroll
       animateElements imgRotate pOpacity leftPercent] in *.

(** What every listener keeps, dispatch keeps. *)
Lemma dispatch_ind (target : page -> list listener) (P : page -> Prop) :
  (forall f s, P s -> f ∈ target s -> P (call f s)) ->
  forall s, P s -> P (dispatch target s).
Proof.
  intros Hcall s Hs. unfold dispatch. generalize (target s) as l.
  induction l as [|f l IH] in s, Hs |- *; simpl; [exact Hs|].
  apply IH. case_decide; auto.
Qed.

(** Split a membership in an explicit list of lists into its cases. *)
Ltac elem_cases H := elem_split H; try decide_eval.

Lemma ds_remove (l : list listener) (f : listener) :
  l ∈ ds_shapes -> removeEventListener f l ∈ ds_shapes.
Proof. intros Hl. destruct f; unfold ds_shapes in Hl; elem_cases Hl. Qed.

Lemma resize_remove (l : list listener) (f : listener) :
  l ∈ [[Lscroll2]; []] -> removeEventListener f l ∈ [[Lscroll2]; []].
Proof. intros Hl. destruct f; elem_cases Hl. Qed.

Lemma btn_remove (l : list listener) (f : listener) :
  l ∈ [[]; [LcookiesListener]] -> removeEventListener f l ∈ [[]; [LcookiesListener]].
Proof. intros Hl. destruct f; elem_cases Hl. Qed.

Lemma btn_add (l : list listener) :
  l ∈ [[]; [LcookiesListener]] -> addEventListener LcookiesListener l ∈ [[]; [LcookiesListener]].
Proof. intros Hl. elem_cases Hl. Qed.

Lemma not_elem_remove (f g : listener) (l : list listener) :
  f ∉ l -> f ∉ removeEventListener g l.
Proof. unfold removeEventListener. rewrite list_elem_of_filter. tauto. Qed.

Lemma elem_remove_self (f : listener) (l : list listener) :
  f ∉ removeEventListener f l.
Proof. unfold removeEventListener. rewrite list_elem_of_filter. tauto. Qed.

Lemma btn_only_cookies (f : listener) (l : list listener) :
  l ∈ [[]; [LcookiesListener]] -> f ∈ l -> f = LcookiesListener.
Proof.
  intros Hl. elem_cases Hl.
  all: intros Hf; first [apply elem_of_nil in Hf; contradiction
                        | now apply list_elem_of_singleton in Hf].
Qed.

(** ** The shapes of the handlers *)

Lemma scroll_cases (s : page) :
  scroll s = s \/
  (cookieShown s = false /\
   scroll s = set_cookieShown true (remove_doc_scroll Lscroll (set_holderHidden false s))).
Proof. unfold scroll. destruct (cookieShown s), (js_gt _ _); auto. Qed.

Lemma math_min2_range (x : Q) : 0 < x -> 0 < math_min2 1 x <= 1.
Proof.
  intros Hx. unfold math_min2. destruct (Qle_bool 1 x) eqn:E; qbool; lra.
Qed.

Lemma scroll2_cases (s : page) :
  scroll2 s = animateElements 0 s \/
  exists p, 0 < p <= 1 /\ scroll2 s = scroll2_advance p s.
Proof.
  unfold scroll2. destruct (js_div _ _) as [sp| | |]; auto.
  - unfold js_gt. destruct (Qle_bool sp (1 # 2)) eqn:E; [now left|right].
    apply Qle_bool_false in E. eexists; split; [|reflexivity]. apply math_min2_range; lra.
  - right. exists 1. split; [lra|reflexivity].
Qed.

Lemma remove_other_bool (f g : listener) (l : list listener) :
  f <> g -> bool_decide (f ∈ removeEventListener g l) = bool_decide (f ∈ l).
Proof.
  intros Hfg. apply bool_decide_ext. unfold removeEventListener.
  rewrite list_elem_of_filter. tauto.
Qed.

(** The listener-list facts the handler proofs discharge by [auto]. *)
Create HintDb pagedb.
#[export] Hint Resolve ds_remove resize_remove btn_remove btn_add not_elem_remove
  elem_remove_self : pagedb.

(** ** The invariant, handler by handler *)

Lemma inv_animateElements (p : Q) (s : page) :
  0 <= p <= 1 -> notab_inv s -> notab_inv (animateElements p s).
Proof.
  intros Hp (?&?&?&?&?&?&?&[? ?]&?). unfold notab_inv; page_simpl.
  split_and!; auto. red; right; exists p. split; [lra|reflexivity].
Qed.

Lemma inv_scroll2_advance (p : Q) (s : page) :
  0 < p <= 1 -> notab_inv s -> Lscroll2 ∈ docScroll s -> notab_inv (scroll2_advance p s).
Proof.
  intros Hp (Hds&Hwr&Hwl&Hbc&Hsh&Hd2&Hw2&[? ?]&Hst) Hin.
  unfold scroll2_advance, notab_inv; cbv zeta; page_simpl.
  destruct (Qeq_bool p 1) eqn:E; page_simpl.
  - split_and!; auto with pagedb; try lra.
    + rewrite bool_decide_false by apply elem_remove_self. now rewrite E.
    + rewrite bool_decide_false by apply elem_remove_self. now rewrite E.
    + red; right; exists p. split; [lra|reflexivity].
  - assert (Hw : bool_decide (Lscroll2 ∈ winResize s) = true)
      by (rewrite Hw2, <- Hd2; now apply bool_decide_eq_true_2).
    split_and!; auto; try lra.
    + rewrite E. now apply bool_decide_eq_true_2.
    + now rewrite E.
    + red; right; exists p. split; [lra|reflexivity].
Qed.

(** [scroll] and the timer's callback show the banner the same way. *)
Lemma inv_show (s : page) :
  notab_inv s ->
  notab_inv (set_cookieShown true (remove_doc_scroll Lscroll (set_holderHidden false s))).
Proof.
  intros (?&?&?&?&?&Hd2&?&[? ?]&?). unfold notab_inv; page_simpl.
  split_and!; auto with pagedb. now rewrite remove_other_bool.
Qed.

Lemma inv_cookiesListener (s : page) : notab_inv s -> notab_inv (cookiesListener s).
Proof.
  intros (?&?&?&?&Hsh&Hd2&?&[? ?]&?). unfold cookiesListener, notab_inv; page_simpl.
  split_and!; auto with pagedb. now rewrite remove_other_bool.
Qed.

Lemma inv_onLoad (s : page) : notab_inv s -> notab_inv (onLoad s).
Proof.
  intros (?&?&?&?&?&?&?&[? ?]&?). unfold onLoad, notab_inv; page_simpl.
  split_and!; auto with pagedb.
Qed.

Lemma inv_call (f : listener) (s : page) :
  notab_inv s -> (f = Lscroll2 -> Lscroll2 ∈ docScroll s) -> notab_inv (call f s).
Proof.
  intros Hs Hf. destruct f; simpl.
  - destruct (scroll_cases s) as [->|[_ ->]]; auto using inv_show.
  - destruct (scroll2_cases s) as [->|(p & Hp & ->)].
    + apply inv_animateElements; [lra|exact Hs].
    + apply inv_scroll2_advance; auto.
  - now apply inv_cookiesListener.
  - now apply inv_onLoad.
Qed.

Lemma inv_browser (ld tp : bool) (v : view) (s : page) :
  notab_inv s -> notab_inv (set_browser ld tp v s).
Proof. intros Hs. exact Hs. Qed.

Lemma page_inv_handle (e : event) (s s' : page) :
  notab_inv s -> handle e s = Some s' -> notab_inv s'.
Proof.
  intros Hs He. destruct e; simpl in He;
    repeat match type of He with
           | (if ?b then _ else _) = _ => destruct b
           end;
    inversion He; subst; clear He.
  - apply dispatch_ind; [|now apply inv_browser].
    intros f s1 Hs1 Hf. apply inv_call; [exact Hs1|now intros ->].
  - apply dispatch_ind; [|now apply inv_browser].
    intros f s1 Hs1 Hf. apply inv_call; [exact Hs1|intros ->].
    destruct Hs1 as (_&_&_&_&_&Hd2&Hw2&_).
    apply (bool_decide_eq_true_1 (Lscroll2 ∈ docScroll s1)).
    rewrite Hd2, <- Hw2. now apply bool_decide_eq_true_2.
  - apply dispatch_ind; [|now apply inv_browser].
    intros f s1 Hs1 Hf. apply inv_call; [exact Hs1|].
    destruct Hs1 as (_&_&Hwl&_). rewrite Hwl in Hf. intros ->.
    apply list_elem_of_singleton in Hf. discriminate.
  - unfold onTimeout; page_simpl. destruct (cookieShown s); [now apply inv_browser|].
    apply inv_show, inv_browser, Hs.
  - apply dispatch_ind; [|exact Hs].
    intros f s1 Hs1 Hf. apply inv_call; [exact Hs1|].
    destruct Hs1 as (_&_&_&Hbc&_). intros ->.
    pose proof (btn_only_cookies _ _ Hbc Hf). discriminate.
Qed.

(** ** The cookie banner *)

Lemma no_reshow_refl (s : page) : no_reshow s s.
Proof. split; [auto|]. intros H1 H2. congruence. Qed.

Lemma no_reshow_trans (s s1 s2 : page) :
  no_reshow s s1 -> no_reshow s1 s2 -> no_reshow s s2.
Proof.
  intros [m1 h1] [m2 h2]. split; [auto|]. intros Hs H2.
  destruct (holderHidden s1) eqn:E1.
  - destruct (h2 eq_refl H2) as [c1 c2]. split; [|exact c2].
    destruct (cookieShown s) eqn:C; [|reflexivity]. rewrite m1 in c1 by reflexivity.
    discriminate.
  - destruct (h1 Hs eq_refl) as [_ c2]. destruct (h1 Hs eq_refl). auto.
Qed.

Lemma scroll2_cookie (s : page) :
  cookieShown (scroll2 s) = cookieShown s /\ holderHidden (scroll2 s) = holderHidden s.
Proof.
  destruct (scroll2_cases s) as [->|(p & _ & ->)]; [split; reflexivity|].
  unfold scroll2_advance; cbv zeta; page_simpl.
  destruct (Qeq_bool p 1); split; reflexivity.
Qed.

Lemma no_reshow_show (s : page) :
  cookieShown s = false ->
  no_reshow s (set_cookieShown true (remove_doc_scroll Lscroll (set_holderHidden false s))).
Proof. intros Hc. split; page_simpl; auto. Qed.

Lemma no_reshow_same_cookie (s s1 : page) :
  cookieShown s1 = cookieShown s -> holderHidden s1 = holderHidden s -> no_reshow s s1.
Proof. intros Hc Hh. unfold no_reshow. rewrite Hc, Hh. split; [auto|congruence]. Qed.

Lemma no_reshow_call (f : listener) (s : page) : no_reshow s (call f s).
Proof.
  destruct f; simpl.
  - destruct (scroll_cases s) as [->|[Hc ->]]; [apply no_reshow_refl|now apply no_reshow_show].
  - apply no_reshow_same_cookie; apply scroll2_cookie.
  - unfold cookiesListener. split; page_simpl; [auto|discriminate].
  - now apply no_reshow_same_cookie.
Qed.

Lemma no_reshow_dispatch (target : page -> list listener) (s : page) :
  no_reshow s (dispatch target s).
Proof.
  apply (dispatch_ind target (no_reshow s)); [|apply no_reshow_refl].
  intros f s1 H _. eapply no_reshow_trans; [exact H|apply no_reshow_call].
Qed.

Lemma no_reshow_handle (e : event) (s s' : page) :
  handle e s = Some s' -> no_reshow s s'.
Proof.
  intros He. destruct e; simpl in He;
    repeat match type of He with
           | (if ?b then _ else _) = _ => destruct b
           end;
    inversion He; subst; clear He;
    try (eapply no_reshow_trans; [|apply no_reshow_dispatch]; now apply no_reshow_same_cookie).
  unfold onTimeout; page_simpl. destruct (cookieShown s) eqn:Hc.
  - now apply no_reshow_same_cookie.
  - eapply no_reshow_trans; [|apply no_reshow_show; exact Hc].
    now apply no_reshow_same_cookie.
Qed.

Lemma no_reshow_run (es : list event) (s s' : page) :
  run_events es s = Some s' -> no_reshow s s'.
Proof.
  induction es as [|e es IH] in s |- *; simpl; intros Hr.
  - injection Hr as <-. apply no_reshow_refl.
  - destruct (handle e s) as [s1|] eqn:He; [|discriminate]. simpl in Hr.
    eapply no_reshow_trans; [eapply no_reshow_handle, He|exact (IH _ Hr)].
Qed.

(** Only the timer's own event disarms the timer. *)
Lemma timer_call (f : listener) (s : page) :
  timerPending s = true -> timerPending (call f s) = true.
Proof.
  intros Ht. destruct f; simpl.
  - destruct (scroll_cases s) as [->|[_ ->]]; exact Ht.
  - destruct (scroll2_cases s) as [->|(p & _ & ->)]; [exact Ht|].
    unfold scroll2_advance; cbv zeta; page_simpl. destruct (Qeq_bool p 1); exact Ht.
  - exact Ht.
  - reflexivity.
Qed.

Lemma timer_dispatch (target : page -> list listener) (s : page) :
  timerPending s = true -> timerPending (dispatch target s) = true.
Proof.
  intros Ht. apply (dispatch_ind target (fun s1 => timerPending s1 = true)); [|exact Ht].
  intros f s1 H _. now apply timer_call.
Qed.

Lemma timer_handle (e : event) (s s' : page) :
  e <> Timeout -> timerPending s = true -> handle e s = Some s' -> timerPending s' = true.
Proof.
  intros Hne Ht He. destruct e; simpl in He; try congruence;
    repeat match type of He with
           | (if ?b then _ else _) = _ => destruct b
           end;
    inversion He; subst; clear He; apply timer_dispatch; exact Ht.
Qed.

Lemma timer_run (es : list event) (s s' : page) :
  Timeout ∉ es -> timerPending s = true -> run_events es s = Some s' -> timerPending s' = true.
Proof.
  induction es as [|e es IH] in s |- *; simpl; intros Hes Ht Hr.
  - now injection Hr as <-.
  - apply not_elem_of_cons in Hes as [Hne Hes].
    destruct (handle e s) as [s1|] eqn:He; [|discriminate].
    exact (IH s1 Hes (timer_handle e s s1 (not_eq_sym Hne) Ht He) Hr).
Qed.

Lemma dispatch_load (s : page) :
  winLoad s = [Lload] -> timerPending (dispatch winLoad s) = true.
Proof.
  intros Hwl. unfold dispatch. rewrite Hwl. simpl.
  rewrite decide_True by (rewrite Hwl; apply list_elem_of_singleton; reflexivity).
  reflexivity.
Qed.

Lemma run_events_inv (es : list event) (s s' : page) :
  notab_inv s -> run_events es s = Some s' -> notab_inv s'.
Proof.
  induction es as [|e es IH] in s |- *; simpl; intros Hs Hr.
  - now injection Hr as <-.
  - destruct (handle e s) as [s1|] eqn:He; [|discriminate].
    exact (IH s1 (page_inv_handle e s s1 Hs He) Hr).
Qed.

Lemma reachable_inv (s : page) : reachable s -> notab_inv s.
Proof.
  induction 1 as [h v|e s s' Hr IH He].
  - unfold notab_inv, init, style_ok; page_simpl.
    split_and!; try decide_eval; try lra. left; reflexivity.
  - exact (page_inv_handle e s s' IH He).
Qed.

Lemma ds_cases (l : list listener) :
  l ∈ ds_shapes -> l = [Lscroll; Lscroll2] \/ l = [Lscroll] \/ l = [Lscroll2] \/ l = [].
Proof. intros Hl. unfold ds_shapes in Hl. elem_cases Hl. Qed.

Lemma scroll_keeps (s : page) :
  viewport (scroll s) = viewport s /\ animationProgress (scroll s) = animationProgress s /\
  (Lscroll2 ∈ docScroll s -> Lscroll2 ∈ docScroll (scroll s)).
Proof.
  destruct (scroll_cases s) as [->|[_ ->]]; page_simpl; split_and!; auto.
  intros H. unfold removeEventListener. apply list_elem_of_filter. split; [discriminate|exact H].
Qed.

(** With both listeners registered, a scroll runs [scroll] and then
    [scroll2], which stays on the list dispatch started with. *)
Lemma dispatch_both (s : page) :
  docScroll s = [Lscroll; Lscroll2] -> dispatch docScroll s = scroll2 (scroll s).
Proof.
  intros E. unfold dispatch. rewrite E. simpl.
  repeat case_decide; try reflexivity; exfalso.
  all: match goal with
       | H : ~ (Lscroll ∈ _) |- _ => apply H; rewrite E; now left
       | H : ~ _ |- _ => apply H, scroll_keeps; rewrite E; right; left
       end.
Qed.

Lemma dispatch_doc_scroll (s : page) :
  docScroll s ∈ ds_shapes -> Lscroll2 ∈ docScroll s ->
  dispatch docScroll s = scroll2 (scroll s) \/ dispatch docScroll s = scroll2 s.
Proof.
  intros Hds Hin. unfold dispatch.
  destruct (ds_cases _ Hds) as [E|[E|[E|E]]].
  - left. exact (dispatch_both s E).
  - rewrite E in Hin. apply list_elem_of_singleton in Hin. discriminate.
  - right. rewrite E. simpl. case_decide as H; [reflexivity|]. exfalso. apply H. rewrite E. now left.
  - rewrite E in Hin. apply elem_of_nil in Hin. contradiction.
Qed.

Lemma scroll2_advance_fields (p : Q) (s : page) :
  animationProgress (scroll2_advance p s) = p /\ style (scroll2_advance p s) = styles_at p.
Proof.
  unfold scroll2_advance; cbv zeta; page_simpl. destruct (Qeq_bool p 1); split; reflexivity.
Qed.

(** [scroll2] on a section of positive height. *)
Lemma scroll2_outcome (s : page) :
  0 < missionHeight (viewport s) ->
  let v := viewport s in
  let sp := (innerHeight v + scrollY v - missionTop v) / missionHeight v in
  if js_gt sp (1 # 2) then
    animationProgress (scroll2 s) = math_min2 1 (2 * sp - 1) /\
    style (scroll2 s) = styles_at (math_min2 1 (2 * sp - 1))
  else animationProgress (scroll2 s) = animationProgress s /\ style (scroll2 s) = styles_at 0.
Proof.
  intros Hh. cbv zeta. unfold scroll2. rewrite js_div_fin by (intros E; rewrite E in Hh; lra).
  destruct (js_gt _ _); [apply scroll2_advance_fields|split; reflexivity].
Qed.

(** [scroll2] touches neither the banner nor any listener but its own. *)
Lemma scroll2_fields (x : page) :
  cookieShown (scroll2 x) = cookieShown x /\ holderHidden (scroll2 x) = holderHidden x /\
  docScroll (scroll2 x) ⊆ docScroll x.
Proof.
  assert (Ha : forall p, cookieShown (scroll2_advance p x) = cookieShown x /\
                 holderHidden (scroll2_advance p x) = holderHidden x /\
                 docScroll (scroll2_advance p x) ⊆ docScroll x).
  { intros p. unfold scroll2_advance; cbv zeta; page_simpl.
    destruct (Qeq_bool p 1); page_simpl; split_and!; try reflexivity.
    intros f Hf. unfold removeEventListener in Hf. apply list_elem_of_filter in Hf. apply Hf. }
  unfold scroll2. destruct (js_div _ _); [destruct (js_gt _ _)| | |];
    first [apply Ha | page_simpl; split_and!; [reflexivity|reflexivity|intros f Hf; exact Hf]].
Qed.

(** A scroll with [scroll2] registered ends with [scroll2], run on the
    page at the new position with the progress it had. *)
Lemma handle_doc_scroll (s s' : page) (v : view) :
  reachable s -> Lscroll2 ∈ docScroll s -> handle (DocScroll v) s = Some s' ->
  exists x, s' = scroll2 x /\ viewport x = v /\ animationProgress x = animationProgress s.
Proof.
  intros Hr Hin He. simpl in He. injection He as <-.
  pose proof (reachable_inv s Hr) as (Hds&_).
  set (s1 := set_browser (loaded s) (timerPending s) v s).
  destruct (dispatch_doc_scroll s1 Hds Hin) as [E|E]; rewrite E; [exists (scroll s1)|exists s1].
  - destruct (scroll_keeps s1) as (Hv & Hp & _). split_and!; [reflexivity|exact Hv|exact Hp].
  - split_and!; reflexivity.
Qed.

(** [scroll2] on a section of height 0: [scrolledProgress] is
    [+Infinity] once the section's top is above the window's bottom,
    and [-Infinity] or NaN otherwise. *)
Lemma scroll2_zero_height (x : page) :
  (missionHeight (viewport x) == 0)%Q ->
  let v := viewport x in
  if Qle_bool (innerHeight v + scrollY v - missionTop v) 0
  then animationProgress (scroll2 x) = animationProgress x /\ style (scroll2 x) = styles_at 0
  else animationProgress (scroll2 x) = 1 /\ style (scroll2 x) = styles_at 1.
Proof.
  intros Hh. cbv zeta. unfold scroll2, js_div.
  replace (Qeq_bool (missionHeight (viewport x)) 0) with true by (symmetry; apply Qeq_bool_iff, Hh).
  destruct (Qle_bool _ 0); cbn [negb];
    [destruct (Qle_bool 0 _); cbn [negb]; split; reflexivity|apply scroll2_advance_fields].
Qed.

(** ** Properties of the page script *)

(** C30: every state the page reaches keeps its listener lists in the
    shapes the script can produce ([scroll] before [scroll2] on the
    document, [scroll2] on resize, the load handler on load, at most
    [cookiesListener] on the button); [scroll] is gone once the banner
    was shown; [scroll2] is registered on both targets exactly while
    [animationProgress] is not 1; the progress is in [0, 1] and the
    styles are those of [animateElements] at a progress in [0, 1]. *)
Theorem notab_invariant (s : page) : reachable s -> notab_inv s.
Proof. exact (reachable_inv s). Qed.

(** C31: in any sequence of events the cookie holder loses its class
    "hidden" at most once, and never once the banner has been shown. *)
Theorem banner_shown_at_most_once (es : list event) (s : page) (n : nat) :
  banner_shows es s = Some n -> (n <= 1)%nat /\ (cookieShown s = true -> n = 0%nat).
Proof.
  induction es as [|e es IH] in s, n |- *; simpl; intros Hn.
  - injection Hn as <-. lia.
  - destruct (handle e s) as [s1|] eqn:He; [|discriminate]. simpl in Hn.
    destruct (banner_shows es s1) as [m|] eqn:Hm; [|discriminate].
    injection Hn as <-. destruct (IH s1 m Hm) as [Hm1 Hm0].
    destruct (no_reshow_handle e s s1 He) as [Hmono Hshow].
    destruct (holderHidden s) eqn:Hh, (holderHidden s1) eqn:Hh1; simpl; try (split; auto; fail).
    destruct (Hshow eq_refl eq_refl) as [Hc Hc1].
    rewrite (Hm0 Hc1). split; [lia|congruence].
Qed.

(** A banner that was shown and then dismissed never comes back:
    whatever events follow, the holder keeps its class "hidden". *)
Theorem dismissed_banner_stays_hidden (es : list event) (s s' : page) :
  run_events es s = Some s' -> cookieShown s = true -> holderHidden s = true ->
  holderHidden s' = true.
Proof.
  intros Hr Hc Hh. destruct (no_reshow_run es s s' Hr) as [_ Hshow].
  destruct (holderHidden s') eqn:E; [reflexivity|].
  destruct (Hshow Hh eq_refl) as [Hc' _]. congruence.
Qed.

(** C32: once the page has loaded, whatever the user does the timer
    stays armed, and when it fires the banner is shown (made visible if
    it was not shown before). *)
Theorem banner_shown_after_load (s s1 s2 : page) (es : list event) :
  reachable s -> handle WinLoad s = Some s1 -> Timeout ∉ es -> run_events es s1 = Some s2 ->
  exists s3, handle Timeout s2 = Some s3 /\ cookieShown s3 = true /\
             (cookieShown s2 = false -> holderHidden s3 = false).
Proof.
  intros Hr Hl Hes Hrun. pose proof (reachable_inv s Hr) as (_&_&Hwl&_).
  simpl in Hl. destruct (loaded s); [discriminate|]. injection Hl as <-.
  pose proof (timer_run es _ s2 Hes (dispatch_load (set_browser true (timerPending s) (viewport s) s) Hwl) Hrun) as Ht.
  simpl. rewrite Ht. eexists. split; [reflexivity|].
  unfold onTimeout; page_simpl.
  destruct (cookieShown s2) eqn:Hc; page_simpl; [split; [exact Hc|discriminate]|auto].
Qed.

(** ** The scroll effect *)

Lemma call_frame (f : listener) (s : page) :
  f <> Lscroll2 ->
  style (call f s) = style s /\ animationProgress (call f s) = animationProgress s.
Proof.
  intros Hf. destruct f; simpl; try congruence.
  - destruct (scroll_cases s) as [->|[_ ->]]; split; reflexivity.
  - split; reflexivity.
  - split; reflexivity.
Qed.

Lemma no_scroll2_when_done (s : page) :
  notab_inv s -> Qeq_bool (animationProgress s) 1 = true ->
  (Lscroll2 ∉ docScroll s) /\ (Lscroll2 ∉ winResize s) /\
  (Lscroll2 ∉ winLoad s) /\ (Lscroll2 ∉ btnClick s).
Proof.
  intros (_&_&Hwl&Hbc&_&Hd2&Hw2&_) Hp. rewrite Hp in Hd2, Hw2. split_and!.
  - intros H. rewrite bool_decide_true in Hd2 by exact H. discriminate.
  - intros H. rewrite bool_decide_true in Hw2 by exact H. discriminate.
  - rewrite Hwl. intros H%list_elem_of_singleton. discriminate.
  - intros H. pose proof (btn_only_cookies _ _ Hbc H). discriminate.
Qed.

Lemma frozen_dispatch (target : page -> list listener) (st : mission_style) (p : Q) (s : page) :
  (forall s1, notab_inv s1 -> Qeq_bool (animationProgress s1) 1 = true -> Lscroll2 ∉ target s1) ->
  frozen st p s -> frozen st p (dispatch target s).
Proof.
  intros Ht. apply dispatch_ind. intros f s1 (Hi & Hq & Hst & Hp) Hf.
  assert (Hne : f <> Lscroll2) by (intros ->; exact (Ht s1 Hi Hq Hf)).
  destruct (call_frame f s1 Hne) as [E1 E2].
  split_and!; [apply inv_call; [exact Hi|congruence]|congruence..].
Qed.

Lemma frozen_handle (e : event) (st : mission_style) (p : Q) (s s' : page) :
  frozen st p s -> handle e s = Some s' -> frozen st p s'.
Proof.
  intros Hs He. destruct e; simpl in He;
    repeat match type of He with
           | (if ?b then _ else _) = _ => destruct b
           end;
    inversion He; subst; clear He.
  1-3, 5: apply frozen_dispatch; [intros s1 Hi Hq; apply (no_scroll2_when_done s1 Hi Hq)
                                 |exact Hs].
  destruct Hs as (Hi & Hq & Hst & Hp).
  unfold onTimeout; page_simpl. destruct (cookieShown s).
  - split_and!; page_simpl; auto using inv_browser.
  - split_and!; [apply inv_show, inv_browser, Hi|page_simpl; auto..].
Qed.

Lemma frozen_run (es : list event) (st : mission_style) (p : Q) (s s' : page) :
  frozen st p s -> run_events es s = Some s' -> frozen st p s'.
Proof.
  induction es as [|e es IH] in s |- *; simpl; intros Hs Hr.
  - now injection Hr as <-.
  - destruct (handle e s) as [s1|] eqn:He; [|discriminate].
    exact (IH s1 (frozen_handle e st p s s1 Hs He) Hr).
Qed.

(** The styles the scroll effect writes stay in range: the image
    turns by 0 to 90 degrees, the paragraph's opacity is in [0, 1] and
    the section moves by 0 to 50 percent. *)
Theorem mission_style_bounded (s : page) :
  reachable s ->
  (forall r, imgRotate (style s) = Some r -> 0 <= r <= 90) /\
  (forall o, pOpacity (style s) = Some o -> 0 <= o <= 1) /\
  (forall l, leftPercent (style s) = Some l -> 0 <= l <= 50).
Proof.
  intros Hr. destruct (reachable_inv s Hr) as (_&_&_&_&_&_&_&_&[Hst|(p&Hp&Hst)]);
    rewrite Hst; split_and!; intros x Hx; inversion Hx; subst; lra.
Qed.

(** C33: once the effect has reached progress 1, [scroll2] is gone from
    both targets and no later event changes the styles or the progress. *)
Theorem mission_frozen_when_complete (es : list event) (s s' : page) :
  reachable s -> (animationProgress s == 1)%Q -> run_events es s = Some s' ->
  style s' = style s /\ animationProgress s' = animationProgress s.
Proof.
  intros Hr Hp Hrun.
  destruct (frozen_run es (style s) (animationProgress s) s s') as (_&_&E1&E2); auto.
  split_and!; [exact (reachable_inv s Hr)|now apply Qeq_bool_iff|reflexivity|reflexivity].
Qed.

(** C34: a scroll, with [scroll2] still registered and a section of
    positive height, sets the progress to [min(1, 2 sp - 1)] and the
    styles to match when the scrolled fraction [sp] of the section
    exceeds one half, unregistering [scroll2] when that reaches 1;
    otherwise it resets the styles to progress 0 and keeps the
    progress. *)
Theorem scroll_progress (s s' : page) (v : view) :
  reachable s -> Lscroll2 ∈ docScroll s -> 0 < missionHeight v ->
  handle (DocScroll v) s = Some s' ->
  let sp := (innerHeight v + scrollY v - missionTop v) / missionHeight v in
  if js_gt sp (1 # 2) then
    animationProgress s' = math_min2 1 (2 * sp - 1) /\
    style s' = styles_at (math_min2 1 (2 * sp - 1)) /\
    ((animationProgress s' == 1)%Q -> (Lscroll2 ∉ docScroll s') /\ (Lscroll2 ∉ winResize s'))
  else animationProgress s' = animationProgress s /\ style s' = styles_at 0.
Proof.
  intros Hr Hin Hh He. cbv zeta.
  pose proof (reachable_inv s' (reach_step _ _ _ Hr He)) as Hi'.
  assert (Hdone : (animationProgress s' == 1)%Q ->
                  (Lscroll2 ∉ docScroll s') /\ (Lscroll2 ∉ winResize s'))
    by (intros Hq; apply Qeq_bool_iff in Hq; now destruct (no_scroll2_when_done s' Hi' Hq)).
  simpl in He. injection He as <-.
  pose proof (reachable_inv s Hr) as (Hds&_).
  set (s1 := set_browser (loaded s) (timerPending s) v s) in *.
  assert (Ho : forall x, viewport x = v -> animationProgress x = animationProgress s ->
    let sp := (innerHeight v + scrollY v - missionTop v) / missionHeight v in
    if js_gt sp (1 # 2) then
      animationProgress (scroll2 x) = math_min2 1 (2 * sp - 1) /\
      style (scroll2 x) = styles_at (math_min2 1 (2 * sp - 1))
    else animationProgress (scroll2 x) = animationProgress s /\ style (scroll2 x) = styles_at 0).
  { intros x <- Hx. rewrite <- Hx. apply scroll2_outcome. exact Hh. }
  destruct (dispatch_doc_scroll s1 Hds Hin) as [E|E]; rewrite E in Hdone |- *;
    [pose proof (Ho (scroll s1) (proj1 (scroll_keeps s1)) (proj1 (proj2 (scroll_keeps s1)))) as Hs
    |pose proof (Ho s1 eq_refl eq_refl) as Hs];
    cbv zeta in Hs; destruct (js_gt _ _); tauto.
Qed.

(** C35: one scroll past 300 px, with both document listeners
    registered, runs both in order: [scroll] shows the banner and
    removes itself, and [scroll2], still on the list the dispatch
    started with, runs on the page [scroll] left. *)
Theorem scroll_runs_both_listeners (s s' : page) (v : view) :
  reachable s -> Lscroll ∈ docScroll s -> Lscroll2 ∈ docScroll s ->
  js_gt (scrollY v) 300 = true -> handle (DocScroll v) s = Some s' ->
  s' = scroll2 (scroll (set_browser (loaded s) (timerPending s) v s)) /\
  cookieShown s' = true /\ holderHidden s' = false /\ Lscroll ∉ docScroll s'.
Proof.
  intros Hr H1 H2 Hy He. pose proof (reachable_inv s Hr) as (Hds&_&_&_&Hcs&_).
  assert (Hc : cookieShown s = false) by (destruct (cookieShown s); [exfalso; exact (Hcs eq_refl H1)|reflexivity]).
  assert (E : docScroll s = [Lscroll; Lscroll2]).
  { destruct (ds_cases _ Hds) as [E|[E|[E|E]]]; rewrite E in H1, H2 |- *; try reflexivity;
      exfalso; revert H1 H2; rewrite ?list_elem_of_singleton; intros; try discriminate.
    apply elem_of_nil in H1. exact H1. }
  simpl in He. injection He as <-. rewrite dispatch_both by exact E.
  set (s1 := set_browser (loaded s) (timerPending s) v s).
  assert (Hs1 : scroll s1 = set_cookieShown true (remove_doc_scroll Lscroll (set_holderHidden false s1)))
    by (unfold scroll, s1; page_simpl; rewrite Hc, Hy; reflexivity).
  destruct (scroll2_fields (scroll s1)) as (Ec & Eh & Ed).
  rewrite Ec, Eh. rewrite Hs1 in Ed |- *. page_simpl. split_and!; [reflexivity..|].
  intros Hin%Ed. unfold removeEventListener in Hin. apply list_elem_of_filter in Hin as [Hne _].
  exact (Hne eq_refl).
Qed.

(** C36: a section of height 0 makes [scrolledProgress] infinite or NaN:
    a scroll with [scroll2] registered sets the effect to its end and
    unregisters [scroll2] once the section's top is above the window's
    bottom; otherwise it resets the styles to progress 0. *)
Theorem zero_height_section (s s' : page) (v : view) :
  reachable s -> Lscroll2 ∈ docScroll s -> (missionHeight v == 0)%Q ->
  handle (DocScroll v) s = Some s' ->
  if Qle_bool (innerHeight v + scrollY v - missionTop v) 0
  then animationProgress s' = animationProgress s /\ style s' = styles_at 0
  else animationProgress s' = 1 /\ style s' = styles_at 1 /\
       (Lscroll2 ∉ docScroll s') /\ (Lscroll2 ∉ winResize s').
Proof.
  intros Hr Hin Hh He.
  pose proof (reachable_inv s' (reach_step _ _ _ Hr He)) as Hi'.
  destruct (handle_doc_scroll s s' v Hr Hin He) as (x & -> & Hv & Hp).
  pose proof (scroll2_zero_height x) as Hz. cbv zeta in Hz. rewrite Hv in Hz.
  specialize (Hz Hh). rewrite <- Hp.
  destruct (Qle_bool _ 0); [exact Hz|]. destruct Hz as [Hz1 Hz2].
  destruct (no_scroll2_when_done _ Hi') as (Hd & Hw & _); [rewrite Hz1; reflexivity|].
  split_and!; assumption.
Qed.

(** C37: [cookiesListener] hides the banner without setting
    [cookieShown]: an accept click that comes before the banner was
    shown hides it, and the armed timer shows it again. *)
Theorem accept_before_shown_reshows (s s1 : page) :
  reachable s -> cookieShown s = false -> timerPending s = true ->
  LcookiesListener ∈ btnClick s -> handle AcceptClick s = Some s1 ->
  holderHidden s1 = true /\ cookieShown s1 = false /\
  exists s2, handle Timeout s1 = Some s2 /\ holderHidden s2 = false /\ cookieShown s2 = true.
Proof.
  intros Hr Hc Ht Hb He. pose proof (reachable_inv s Hr) as (_&_&_&Hbc&_).
  assert (E : btnClick s = [LcookiesListener]).
  { revert Hb. elem_split Hbc; intros Hb; [apply elem_of_nil in Hb; contradiction|reflexivity]. }
  simpl in He. injection He as <-. unfold dispatch. rewrite E. simpl.
  rewrite decide_True by (rewrite E; now left). simpl. unfold cookiesListener; page_simpl.
  rewrite Hc, Ht. split_and!; [reflexivity|reflexivity|]. eexists. split; [reflexivity|].
  unfold onTimeout; page_simpl. rewrite Hc. page_simpl. split; reflexivity.
Qed.

(** ** Form validation *)

Lemma check_field_ok (f : field) : (check_field f).2 = implb (checked f) (filled f).
Proof.
  unfold check_field, checked, filled.
  destruct (String.eqb _ _), (String.length _ =? 0)%nat; reflexivity.
Qed.

Lemma check_field_marked (f : field) : marked f (check_field f).1.
Proof.
  unfold marked, check_field, checked, filled.
  destruct (String.eqb _ _), (String.length _ =? 0)%nat; split_and!; reflexivity.
Qed.

Lemma check_fields_eq (l : list field) (b : bool) :
  check_fields l b =
  (map (fun f => (check_field f).1) l, b && forallb (fun f => (check_field f).2) l).
Proof.
  induction l as [|f l IH] in b |- *; simpl; [now rewrite andb_true_r|].
  destruct (check_field f) as [f' ok]. rewrite IH. simpl. now rewrite andb_assoc.
Qed.

Lemma forallb_complete (l : list field) :
  forallb (fun f => (check_field f).2) l = true <->
  Forall (fun f => checked f = true -> filled f = true) l.
Proof.
  rewrite forallb_forall, Forall_forall. split.
  - intros H f Hf Hc. specialize (H f (proj1 (list_elem_of_In _ _) Hf)). simpl in H.
    rewrite check_field_ok, Hc in H. exact H.
  - intros H f Hf. simpl. rewrite check_field_ok.
    specialize (H f (proj2 (list_elem_of_In _ _) Hf)).
    destruct (checked f); [now rewrite H|reflexivity].
Qed.

Lemma marked_map (l : list field) (i : nat) (f : field) :
  l !! i = Some f ->
  exists f', map (fun f => (check_field f).1) l !! i = Some f' /\ marked f f'.
Proof.
  intros Hi. exists (check_field f).1. split; [|apply check_field_marked].
  induction l as [|g l IH] in i, Hi |- *; [discriminate|].
  destruct i; simpl in *; [congruence|auto].
Qed.

Lemma validate_inputs (frm : form) :
  finputs (result_form (validate frm)) = map (fun f => (check_field f).1) (finputs frm).
Proof. unfold validate. rewrite check_fields_eq. repeat case_match; reflexivity. Qed.

Lemma validate_textarea (frm : form) (ta : field) (rest : list field) :
  ftextareas frm = ta :: rest ->
  validate frm =
  let inputs' := map (fun f => (check_field f).1) (finputs frm) in
  if forallb (fun f => (check_field f).2) (finputs frm ++ [ta])
  then Returned (mkForm inputs' ((check_field ta).1 :: rest) true) JUndefined
  else Returned (mkForm inputs' ((check_field ta).1 :: rest) (submitted frm)) (JBool false).
Proof.
  intros Hta. unfold validate. rewrite check_fields_eq, Hta, forallb_app. simpl.
  destruct (check_field ta) as [ta' ok]. simpl. now rewrite andb_true_r.
Qed.

(** C38: on a form with a textarea, [validate] submits the form and
    returns [undefined] exactly when every field it checks (every input
    but the submit buttons, and the first textarea) is non-empty;
    otherwise it returns [false] and submits nothing. *)
Theorem validate_submits_iff_complete (frm : form) (ta : field) (rest : list field) :
  ftextareas frm = ta :: rest ->
  exists frm',
    (Forall (fun f => checked f = true -> filled f = true) (finputs frm ++ [ta]) /\
     validate frm = Returned frm' JUndefined /\ submitted frm' = true) \/
    (~ Forall (fun f => checked f = true -> filled f = true) (finputs frm ++ [ta]) /\
     validate frm = Returned frm' (JBool false) /\ submitted frm' = submitted frm).
Proof.
  intros Hta. rewrite (validate_textarea frm ta rest Hta).
  destruct (forallb _ _) eqn:E; eexists; [left|right]; split_and!; try reflexivity.
  - now apply forallb_complete.
  - rewrite <- forallb_complete, E. discriminate.
Qed.

(** C39: [validate] marks every field it checks: an input or the first
    textarea gets class "invalid" exactly when it is empty; submit
    buttons keep their class, and types and values are unchanged. *)
Theorem validate_marks_fields (frm : form) :
  (forall i f, finputs frm !! i = Some f ->
     exists f', finputs (result_form (validate frm)) !! i = Some f' /\ marked f f') /\
  (forall ta rest, ftextareas frm = ta :: rest ->
     exists ta', ftextareas (result_form (validate frm)) = ta' :: rest /\ marked ta ta').
Proof.
  split.
  - intros i f Hi. rewrite validate_inputs. exact (marked_map _ i f Hi).
  - intros ta rest Hta. rewrite (validate_textarea frm ta rest Hta).
    exists (check_field ta).1. split; [|apply check_field_marked].
    case_match; reflexivity.
Qed.

(** C40: [validate] throws exactly on a form without textarea (reading
    [type] of [undefined]), after marking the inputs and without
    submitting, even when every input is filled. *)
Theorem validate_throws_without_textarea (frm : form) :
  ((exists frm', validate frm = Thrown frm') <-> ftextareas frm = []) /\
  (ftextareas frm = [] -> submitted (result_form (validate frm)) = submitted frm).
Proof.
  destruct (ftextareas frm) as [|ta rest] eqn:Hta.
  - unfold validate. rewrite check_fields_eq, Hta. simpl. split; [split; eauto|reflexivity].
  - rewrite (validate_textarea frm ta rest Hta). cbv zeta.
    split; [split; [|discriminate]|discriminate].
    intros [frm' H]. revert H. case_match; discriminate.
Qed.

(** ** Witnesses *)

Lemma reach_run (es : list event) (s s' : page) :
  reachable s -> run_events es s = Some s' -> reachable s'.
Proof.
  induction es as [|e es IH] in s |- *; simpl; intros Hr Hrun.
  - now injection Hrun as <-.
  - destruct (handle e s) as [s1|] eqn:He; [|discriminate].
    exact (IH s1 (reach_step e s s1 Hr He) Hrun).
Qed.

Lemma page0_reachable : reachable page0.
Proof. apply reach_init. Qed.

Lemma page_done_reachable : reachable page_done.
Proof. apply (reach_step (DocScroll (view_at 900)) page0); [exact page0_reachable|]. vm_compute. reflexivity. Qed.

Lemma notab_invariant_witness : notab_inv page_done.
Proof. apply (notab_invariant page_done page_done_reachable). Defined.

Lemma banner_shown_at_most_once_witness :
  banner_shows [WinLoad; Timeout] page0 = Some 1%nat /\
  (1 <= 1)%nat /\ (cookieShown page0 = true -> 1%nat = 0%nat).
Proof.
  split; [vm_compute; reflexivity|].
  apply (banner_shown_at_most_once [WinLoad; Timeout] page0 1). vm_compute. reflexivity.
Defined.

Lemma banner_shown_after_load_witness :
  exists s3, handle Timeout (default page0 (run_events [WinLoad; DocScroll (view_at 100); AcceptClick] page0)) = Some s3 /\
    cookieShown s3 = true /\
    (cookieShown (default page0 (run_events [WinLoad; DocScroll (view_at 100); AcceptClick] page0)) = false ->
     holderHidden s3 = false).
Proof.
  apply (banner_shown_after_load page0 (default page0 (handle WinLoad page0))
           _ [DocScroll (view_at 100); AcceptClick]);
    [exact page0_reachable|vm_compute; reflexivity|decide_eval|vm_compute; reflexivity].
Defined.

Lemma mission_frozen_when_complete_witness :
  style (default page0 (run_events [DocScroll view_top; WinResize (view_at 100)] page_done))
    = style page_done /\
  animationProgress (default page0 (run_events [DocScroll view_top; WinResize (view_at 100)] page_done))
    = animationProgress page_done.
Proof.
  apply (mission_frozen_when_complete [DocScroll view_top; WinResize (view_at 100)] page_done);
    [exact page_done_reachable|vm_compute; reflexivity|vm_compute; reflexivity].
Defined.

Lemma scroll_progress_witness :
  let sp := (innerHeight (view_at 700) + scrollY (view_at 700) - missionTop (view_at 700))
              / missionHeight (view_at 700) in
  let s' := default page0 (handle (DocScroll (view_at 700)) page0) in
  if js_gt sp (1 # 2) then
    animationProgress s' = math_min2 1 (2 * sp - 1) /\
    style s' = styles_at (math_min2 1 (2 * sp - 1)) /\
    ((animationProgress s' == 1)%Q -> (Lscroll2 ∉ docScroll s') /\ (Lscroll2 ∉ winResize s'))
  else animationProgress s' = animationProgress page0 /\ style s' = styles_at 0.
Proof.
  apply (scroll_progress page0 _ (view_at 700));
    [exact page0_reachable|decide_eval|vm_compute; reflexivity|vm_compute; reflexivity].
Defined.

Lemma scroll_runs_both_listeners_witness :
  let s' := default page0 (handle (DocScroll (view_at 700)) page0) in
  s' = scroll2 (scroll (set_browser (loaded page0) (timerPending page0) (view_at 700) page0)) /\
  cookieShown s' = true /\ holderHidden s' = false /\ Lscroll ∉ docScroll s'.
Proof.
  apply (scroll_runs_both_listeners page0 _ (view_at 700));
    [exact page0_reachable|decide_eval|decide_eval|vm_compute; reflexivity|vm_compute; reflexivity].
Defined.

Lemma zero_height_section_witness :
  let v := mkView 0 800 500 0 in
  let s' := default page0 (handle (DocScroll v) page0) in
  if Qle_bool (innerHeight v + scrollY v - missionTop v) 0
  then animationProgress s' = animationProgress page0 /\ style s' = styles_at 0
  else animationProgress s' = 1 /\ style s' = styles_at 1 /\
       (Lscroll2 ∉ docScroll s') /\ (Lscroll2 ∉ winResize s').
Proof.
  apply (zero_height_section page0 _ (mkView 0 800 500 0));
    [exact page0_reachable|decide_eval|reflexivity|vm_compute; reflexivity].
Defined.

Lemma page_loaded_reachable : reachable (default page0 (handle WinLoad page0)).
Proof. apply (reach_step WinLoad page0); [exact page0_reachable|]. vm_compute. reflexivity. Qed.

Lemma accept_before_shown_reshows_witness :
  let s := default page0 (handle WinLoad page0) in
  let s1 := default page0 (handle AcceptClick s) in
  holderHidden s1 = true /\ cookieShown s1 = false /\
  exists s2, handle Timeout s1 = Some s2 /\ holderHidden s2 = false /\ cookieShown s2 = true.
Proof.
  apply (accept_before_shown_reshows _ _ page_loaded_reachable);
    [vm_compute; reflexivity|vm_compute; reflexivity|decide_eval|vm_compute; reflexivity].
Defined.

Lemma validate_submits_iff_complete_witness :
  exists frm',
    (Forall (fun f => checked f = true -> filled f = true)
       (finputs form1 ++ [mkField "textarea" "Hello" true]) /\
     validate form1 = Returned frm' JUndefined /\ submitted frm' = true) \/
    (~ Forall (fun f => checked f = true -> filled f = true)
         (finputs form1 ++ [mkField "textarea" "Hello" true]) /\
     validate form1 = Returned frm' (JBool false) /\ submitted frm' = submitted form1).
Proof. apply (validate_submits_iff_complete form1 _ []). reflexivity. Defined.

Lemma validate_marks_fields_witness :
  (forall i f, finputs form1 !! i = Some f ->
     exists f', finputs (result_form (validate form1)) !! i = Some f' /\ marked f f') /\
  (forall ta rest, ftextareas form1 = ta :: rest ->
     exists ta', ftextareas (result_form (validate form1)) = ta' :: rest /\ marked ta ta').
Proof. apply (validate_marks_fields form1). Defined.

Lemma validate_throws_without_textarea_witness :
  let frm := mkForm [mkField "text" "Ann" false] [] false in
  ((exists frm', validate frm = Thrown frm') <-> ftextareas frm = []) /\
  (ftextareas frm = [] -> submitted (result_form (validate frm)) = submitted frm).
Proof. apply (validate_throws_without_textarea (mkForm [mkField "text" "Ann" false] [] false)). Defined.

End Notab.
